(** * ScholarSync: document understanding and corpus-similarity pipeline

    A shallow embedding of the Python sources under
    [Project-3/Scholar_Sync/scholarsync] and the properties of the
    specification that are settled against it.

    Conventions of the embedding.
    - A Python [str] is a Rocq [string]; a character is a code point in
      [0, 255] (Latin-1), which covers ASCII.  [str.lower], [str.strip] and
      the regular-expression class [\s] are written out for that range.
    - A Python [int] is a [Z]; [Optional[int]] is [option Z].
    - A [set] of strings is a [gset string], a [dict] with string keys a
      [gmap string _].
    - A Python list is a [list]; loops over a list are structural
      recursions that thread the loop's local variables. *)

From Stdlib Require Import ZArith NArith QArith Ascii String DecimalString List Lia.
From stdpp Require Import gmap strings list fin_maps sorting.

Open Scope string_scope.
Open Scope list_scope.

(* ===================================================================== *)
(** * Python strings *)
(* ===================================================================== *)

Module PyStr.

(** [str.isspace] on one character, which is also the class [\s] of [re] on
    [str] patterns: TAB..CR, FS..US, SPACE, NEL and NBSP. *)
Definition isspace (c : ascii) : bool :=
  let n := N_of_ascii c in
  (((9 <=? n) && (n <=? 13)) || ((28 <=? n) && (n <=? 32))
   || (n =? 133) || (n =? 160))%N.

(** The character class [[a-z0-9 ]]. *)
Definition is_az09_space (c : ascii) : bool :=
  let n := N_of_ascii c in
  (((97 <=? n) && (n <=? 122)) || ((48 <=? n) && (n <=? 57)) || (n =? 32))%N.

(** ASCII letters and digits, [[A-Za-z0-9]]. *)
Definition is_ascii_alnum (c : ascii) : bool :=
  let n := N_of_ascii c in
  (((97 <=? n) && (n <=? 122)) || ((65 <=? n) && (n <=? 90))
   || ((48 <=? n) && (n <=? 57)))%N.

(** [str.lower] on one character: A-Z and the Latin-1 capitals U+00C0..U+00DE
    (without the multiplication sign U+00D7) move up by 32. *)
Definition lower_char (c : ascii) : ascii :=
  let n := N_of_ascii c in
  if (((65 <=? n) && (n <=? 90))
      || ((192 <=? n) && (n <=? 222) && negb (n =? 215)))%N
  then ascii_of_N (n + 32) else c.

Fixpoint lower (s : string) : string :=
  match s with
  | EmptyString => EmptyString
  | String c s' => String (lower_char c) (lower s')
  end.

Fixpoint lstrip (s : string) : string :=
  match s with
  | EmptyString => EmptyString
  | String c s' => if isspace c then lstrip s' else s
  end.

Fixpoint rstrip (s : string) : string :=
  match s with
  | EmptyString => EmptyString
  | String c s' =>
      match rstrip s' with
      | EmptyString => if isspace c then EmptyString else String c EmptyString
      | r => String c r
      end
  end.

(** [s.strip()]. *)
Definition strip (s : string) : string := rstrip (lstrip s).

(** [re.sub(r"\s+", " ", s)]: every maximal run of whitespace becomes one
    space.  [in_run] tells that the previous character was whitespace. *)
Fixpoint sub_ws_run (in_run : bool) (s : string) : string :=
  match s with
  | EmptyString => EmptyString
  | String c s' =>
      if isspace c
      then (if in_run then sub_ws_run true s'
            else String " " (sub_ws_run true s'))
      else String c (sub_ws_run false s')
  end.

Definition sub_ws_with_space (s : string) : string := sub_ws_run false s.

(** [re.sub(r"[^a-z0-9 ]", "", s)]: every character outside the class is
    deleted. *)
Fixpoint sub_delete_other (s : string) : string :=
  match s with
  | EmptyString => EmptyString
  | String c s' =>
      if is_az09_space c then String c (sub_delete_other s')
      else sub_delete_other s'
  end.

(** [s.startswith(p)]. *)
Fixpoint startswith (p s : string) : bool :=
  match p, s with
  | EmptyString, _ => true
  | String _ _, EmptyString => false
  | String a p', String b s' => Ascii.eqb a b && startswith p' s'
  end.

(** [needle in hay] on strings. *)
Fixpoint contains (needle hay : string) : bool :=
  startswith needle hay ||
  match hay with
  | EmptyString => false
  | String _ hay' => contains needle hay'
  end.

(** [c in chars], for a character. *)
Fixpoint char_in (c : ascii) (chars : string) : bool :=
  match chars with
  | EmptyString => false
  | String d chars' => Ascii.eqb c d || char_in c chars'
  end.

(** [s.rstrip(chars)]: trailing characters that occur in [chars] go. *)
Fixpoint rstrip_chars (chars s : string) : string :=
  match s with
  | EmptyString => EmptyString
  | String c s' =>
      match rstrip_chars chars s' with
      | EmptyString => if char_in c chars then EmptyString else String c EmptyString
      | r => String c r
      end
  end.

(** [re.sub(r"[^a-z0-9 ]", " ", s)]: every character outside the class
    becomes a space. *)
Fixpoint sub_other_with_space (s : string) : string :=
  match s with
  | EmptyString => EmptyString
  | String c s' =>
      String (if is_az09_space c then c else " "%char) (sub_other_with_space s')
  end.

(** [s.split()]: the maximal runs of non-whitespace characters; [cur] is the
    run being read. *)
Fixpoint split_ws_from (cur s : string) : list string :=
  match s with
  | EmptyString => if decide (cur = "") then [] else [cur]
  | String c s' =>
      if isspace c
      then (if decide (cur = "") then split_ws_from "" s'
            else cur :: split_ws_from "" s')
      else split_ws_from (cur +:+ String c "") s'
  end.

Definition split_ws (s : string) : list string := split_ws_from "" s.

(** [sep.join(parts)]. *)
Definition join (sep : string) (parts : list string) : string :=
  String.concat sep parts.

(** The characters of a string, in order. *)
Definition chars (s : string) : list ascii := list_ascii_of_string s.

End PyStr.

(* ===================================================================== *)
(** * models.py *)
(* ===================================================================== *)

Record Paper := mkPaper {
  title : string;
  abstract : string;
  authors : list string;
  year : option Z;
  source : string;
  paper_url : string;
  pdf_url : string;
  venue : string;
  citations : option Z
}.

Record PaperAnalysis := mkPaperAnalysis {
  paper : Paper;
  pa_insights : string;
  pa_literature_review : string;
  pa_method_used : string;
  pa_contributions : string;
  pa_limitations : string;
  pa_future_work : string;
  pa_citations : string;
  pa_research_gap : string
}.

(* ===================================================================== *)
(** * utils/text.py *)
(* ===================================================================== *)

Module Text.
Import PyStr.

(** [normalize_title]: lower-case and trim, collapse whitespace runs, then
    delete everything outside [[a-z0-9 ]], in this order. *)
Definition normalize_title (text : string) : string :=
  let text := strip (lower text) in
  let text := sub_ws_with_space text in
  let text := sub_delete_other text in
  text.

Section Dedupe.
Context {A : Type}.
Variable title_getter : A -> string.

(** The [for] loop of [dedupe_by_title], with its two locals. *)
Fixpoint dedupe_loop (items : list A) (seen : gset string) (output : list A)
  : list A :=
  match items with
  | [] => output
  | item :: rest =>
      let key := normalize_title (title_getter item) in
      if decide (key ∈ seen) then dedupe_loop rest seen output
      else dedupe_loop rest ({[key]} ∪ seen) (output ++ [item])
  end.
End Dedupe.

Definition dedupe_by_title {A : Type} (items : list A) (title_getter : A -> string)
  : list A :=
  dedupe_loop title_getter items ∅ [].

End Text.

(* ===================================================================== *)
(** * Python's stable sort *)
(* ===================================================================== *)

Module PySort.

Section Sorted.
Context {A K : Type}.
Variable leb : K -> K -> bool.
Variable key : A -> K.

(** [x] comes from an earlier position than everything in [l]: it goes in
    front of the first element whose key is not larger than its own. *)
Fixpoint insert_desc (x : A) (l : list A) : list A :=
  match l with
  | [] => [x]
  | y :: l' =>
      if leb (key y) (key x) then x :: y :: l'
      else y :: insert_desc x l'
  end.

(** [l.sort(key=key, reverse=True)] and [sorted(l, key=key, reverse=True)]:
    descending by key, elements with equal keys in their original order. *)
Definition sort_desc (l : list A) : list A := foldr insert_desc [] l.
End Sorted.

End PySort.

(* ===================================================================== *)
(** * analyzers/section_extractor.py *)
(* ===================================================================== *)

Module SectionExtractor.
Import PyStr.

Definition SECTION_KEYWORDS : gmap string (list string) :=
  list_to_map
    [ ("literature_review",
       [ "related work"; "previous work"; "prior work"; "existing methods";
         "state-of-the-art"; "literature"; "baseline"; "compared" ]);
      ("method_used",
       [ "we propose"; "our approach"; "method"; "framework"; "architecture";
         "algorithm"; "model"; "training"; "dataset"; "evaluation";
         "experiment" ]);
      ("contributions",
       [ "contribution"; "we introduce"; "we present"; "novel"; "new";
         "first"; "outperform"; "improve"; "significant" ]);
      ("limitations",
       [ "limitation"; "however"; "challenge"; "constraint"; "drawback";
         "cannot"; "fails"; "costly"; "expensive"; "still difficult" ]);
      ("future_work",
       [ "future work"; "in future"; "further work"; "next step";
         "can be extended"; "promising direction" ]) ].

(** [self.sections], set by [__init__]. *)
Definition sections : list string :=
  [ "insights"; "literature_review"; "method_used"; "contributions";
    "limitations"; "future_work"; "research_gap" ].

(** The text every field holds when the abstract has no sentence. *)
Definition NOT_ENOUGH_INFORMATION : string :=
  "Not enough information in abstract.".

(** The class [[.!?]]. *)
Definition is_sentence_end (c : ascii) : bool :=
  Ascii.eqb c "." || Ascii.eqb c "!" || Ascii.eqb c "?".

(** [re.split(r"(?<=[.!?])\s+", s)], scanning left to right.  A separator
    is a maximal whitespace run that follows one of [. ! ?]; [in_sep] tells
    that the scan is inside one, [after_end] that the previous character is
    a sentence end, [cur] is the piece read since the last separator. *)
Fixpoint re_split_sentence_ends (in_sep after_end : bool) (cur s : string)
  : list string :=
  match s with
  | EmptyString => [cur]
  | String c s' =>
      if isspace c then
        if in_sep then re_split_sentence_ends true false cur s'
        else if after_end then cur :: re_split_sentence_ends true false "" s'
        else re_split_sentence_ends false false (cur +:+ String c "") s'
      else re_split_sentence_ends false (is_sentence_end c) (cur +:+ String c "") s'
  end.

(** [_split_sentences]; [text or ""] is [text] for a [str]. *)
Definition _split_sentences (text : string) : list string :=
  let text := strip text in
  if decide (text = "") then []
  else
    let chunks := re_split_sentence_ends false false "" text in
    strip <$> List.filter (fun c => negb (String.eqb (strip c) "")) chunks.

(** [sum(1 for kw in keywords if kw in lower)]. *)
Definition keyword_score (keywords : list string) (lower : string) : nat :=
  sum_list ((fun _ => 1) <$> List.filter (fun kw => contains kw lower) keywords).

(** The scoring loop of [_extract_section_text]; [scored] is its local. *)
Fixpoint score_loop (keywords : list string) (sentences : list string)
    (scored : list (nat * string)) : list (nat * string) :=
  match sentences with
  | [] => scored
  | sent :: rest =>
      let lower := lower sent in
      let score := keyword_score keywords lower in
      if (0 <? score)%nat then score_loop keywords rest (scored ++ [(score, sent)])
      else score_loop keywords rest scored
  end.

(** [_extract_section_text].  The result is [None] where Python raises
    ([KeyError] on an unknown section, [IndexError] on an empty list). *)
Definition _extract_section_text (sentences : list string) (section : string)
    (top_k : nat) : option string :=
  keywords ← SECTION_KEYWORDS !! section;
  let scored := score_loop keywords sentences [] in
  match scored with
  | _ :: _ =>
      let scored := PySort.sort_desc Nat.leb fst scored in
      let chosen := snd <$> take top_k scored in
      Some (join " " chosen)
  | [] =>
      if decide (section = "method_used")
      then Some (join " " (take (Nat.min 2 (length sentences)) sentences))
      else if decide (section = "contributions")
      then last sentences
      else if decide (section = "limitations")
      then Some "Not explicitly stated in the abstract; practical constraints and edge-case behavior require deeper full-text review."
      else if decide (section = "future_work")
      then Some "Not explicitly stated in abstract."
      else head sentences
  end.

Definition _build_insights (sentences : list string)
    (method_used contributions : string) : string :=
  let core := join " " (take (Nat.min 2 (length sentences)) sentences) in
  "This paper focuses on a concrete problem setting and proposes a targeted strategy. "
  +:+ "Core context: " +:+ core +:+ " "
  +:+ "Technical direction: " +:+ method_used +:+ " "
  +:+ "Main outcome: " +:+ contributions.

Definition _derive_future_work (limitations : string) : string :=
  "Inferred future direction from limitations: extend evaluation across more diverse datasets, "
  +:+ "improve robustness in edge cases, and optimize efficiency for real-world deployment. "
  +:+ "Key limitation context: " +:+ limitations.

Definition _derive_research_gap (literature_review limitations future_work : string)
  : string :=
  "Current work indicates a gap between benchmark performance and reliable deployment in real settings. "
  +:+ "More standardized evaluation protocols, transparent failure analysis, and cross-domain generalization studies are needed. "
  +:+ "Evidence from related-work context: " +:+ literature_review +:+ " "
  +:+ "Observed constraints: " +:+ limitations +:+ " "
  +:+ "Forward direction: " +:+ future_work.

(** [SectionExtractor.extract]; [None] where Python raises. *)
Definition extract (abstract : string) : option (gmap string string) :=
  let sentences := _split_sentences abstract in
  match sentences with
  | [] => Some (list_to_map ((fun k => (k, NOT_ENOUGH_INFORMATION)) <$> sections))
  | _ :: _ =>
      literature_review ← _extract_section_text sentences "literature_review" 2;
      method_used ← _extract_section_text sentences "method_used" 3;
      contributions ← _extract_section_text sentences "contributions" 2;
      limitations ← _extract_section_text sentences "limitations" 2;
      future_work ← _extract_section_text sentences "future_work" 2;
      let insights := _build_insights sentences method_used contributions in
      let future_work :=
        if contains "Not explicitly stated" future_work
        then _derive_future_work limitations else future_work in
      let research_gap :=
        _derive_research_gap literature_review limitations future_work in
      Some (list_to_map
              [ ("insights", insights);
                ("literature_review", literature_review);
                ("method_used", method_used);
                ("contributions", contributions);
                ("limitations", limitations);
                ("future_work", future_work);
                ("research_gap", research_gap) ])
  end.

End SectionExtractor.

(* ===================================================================== *)
(** * Python values that cross the network boundary *)
(* ===================================================================== *)

Module Py.
Import PyStr.

(** The exceptions the code distinguishes.  [requests.Timeout] and the other
    classes of [requests] derive from [requests.RequestException]; everything
    else ([AttributeError], [TypeError], [arxiv.HTTPError], ...) is an
    [Exception] outside that hierarchy. *)
Inductive exn :=
  | RequestsTimeout
  | RequestsConnectionError
  | RequestsHTTPError
  | RequestsOther (name : string)
  | PyException (name : string).

(** [isinstance(e, requests.Timeout)]. *)
Definition is_timeout (e : exn) : bool :=
  match e with RequestsTimeout => true | _ => false end.

(** [isinstance(e, requests.RequestException)]. *)
Definition is_request_exception (e : exn) : bool :=
  match e with PyException _ => false | _ => true end.

(** A computation that returns a value or raises. *)
Inductive result (A : Type) :=
  | Ok (a : A)
  | Raise (e : exn).
Arguments Ok {A} a.
Arguments Raise {A} e.

#[global] Instance result_ret : MRet result := fun A a => Ok a.
#[global] Instance result_bind : MBind result := fun A B f r =>
  match r with Ok a => f a | Raise e => Raise e end.

(** A decoded JSON document, as [response.json()] returns it.  An object is
    the list of its members; [None] is [JNull]. *)
#[warnings="-register-all"]
Inductive json :=
  | JNull
  | JBool (b : bool)
  | JNum (q : Q)
  | JStr (s : string)
  | JArr (items : list json)
  | JObj (members : list (string * json)).

(** [bool(v)]. *)
Definition truthy (v : json) : bool :=
  match v with
  | JNull => false
  | JBool b => b
  | JNum q => negb (Qnum q =? 0)%Z
  | JStr s => negb (String.eqb s "")
  | JArr items => match items with [] => false | _ => true end
  | JObj members => match members with [] => false | _ => true end
  end.

(** [a or b]. *)
Definition py_or (a b : json) : json := if truthy a then a else b.

Fixpoint assoc (key : string) (members : list (string * json)) : option json :=
  match members with
  | [] => None
  | (k, v) :: rest => if String.eqb k key then Some v else assoc key rest
  end.

(** [v.get(key, default)]: only a dict has [get]. *)
Definition py_get (v : json) (key : string) (dflt : json) : result json :=
  match v with
  | JObj members => Ok (default dflt (assoc key members))
  | _ => Raise (PyException "AttributeError")
  end.

(** The values [for a in v] runs over. *)
Definition py_iter (v : json) : result (list json) :=
  match v with
  | JArr items => Ok items
  | JObj members => Ok ((fun kv => JStr (fst kv)) <$> members)
  | JStr s => Ok ((fun c => JStr (String c "")) <$> chars s)
  | _ => Raise (PyException "TypeError")
  end.

(** [v[0]]. *)
Definition py_first (v : json) : result json :=
  match v with
  | JArr (x :: _) => Ok x
  | JArr [] => Raise (PyException "IndexError")
  | JStr (String c _) => Ok (JStr (String c ""))
  | JStr EmptyString => Raise (PyException "IndexError")
  | JObj _ => Raise (PyException "KeyError")
  | _ => Raise (PyException "TypeError")
  end.

(** [(v or "").lower()]: only a [str] has [lower]. *)
Definition py_or_empty_lower (v : json) : result string :=
  match py_or v (JStr "") with
  | JStr s => Ok (lower s)
  | _ => Raise (PyException "AttributeError")
  end.

(** [(v or "").strip()]. *)
Definition py_or_empty_strip (v : json) : result string :=
  match py_or v (JStr "") with
  | JStr s => Ok (strip s)
  | _ => Raise (PyException "AttributeError")
  end.

End Py.

(* ===================================================================== *)
(** * The network, as the code sees it *)
(* ===================================================================== *)

Module Net.
Import Py.

Inductive param :=
  | PStr (s : string)
  | PInt (n : Z).

(** The arguments of one [requests.get]. *)
Record request := mkRequest {
  req_url : string;
  req_params : list (string * param);
  req_timeout : Z;
  req_headers : list (string * string)
}.

(** What the code reads of a [requests.Response]: the status and the outcome
    of [response.json()]. *)
Record response := mkResponse {
  status_code : Z;
  json_body : result json
}.

(** One element of [client.results(search)] of the [arxiv] package. *)
Record arxiv_result := mkArxivResult {
  ar_title : string;
  ar_summary : option string;
  ar_authors : list string;
  ar_published : option Z;
  ar_entry_id : string;
  ar_pdf_url : option string
}.

(** What a run does to the outside, in order. *)
Inductive event :=
  | EvGet (r : request)
  | EvSleep (seconds : Q)
  | EvArxiv (query : string) (max_results page_size : Z).

Definition trace := list event.

(** An effectful computation: it extends the trace and returns or raises. *)
Definition io (A : Type) : Type := trace -> result A * trace.

#[global] Instance io_ret : MRet io := fun A a tr => (Ok a, tr).
#[global] Instance io_bind : MBind io := fun A B f m tr =>
  match m tr with
  | (Ok a, tr') => f a tr'
  | (Raise e, tr') => (Raise e, tr')
  end.

(** A pure computation inside an effectful one. *)
Definition lift {A : Type} (r : result A) : io A := fun tr => (r, tr).

(** [try: body  except <classes>: handler]. *)
Definition try_except {A : Type} (body : io A) (catches : exn -> bool)
    (handler : exn -> io A) : io A :=
  fun tr =>
    match body tr with
    | (Ok a, tr') => (Ok a, tr')
    | (Raise e, tr') => if catches e then handler e tr' else (Raise e, tr')
    end.

(** [time.sleep(seconds)]. *)
Definition sleep (seconds : Q) : io unit :=
  fun tr => (Ok tt, tr ++ [EvSleep seconds]).

(** [response.raise_for_status()]: a 4xx or 5xx status raises [HTTPError]. *)
Definition raise_for_status (r : response) : result unit :=
  if ((400 <=? status_code r) && (status_code r <? 600))%Z
  then Raise RequestsHTTPError else Ok tt.

(** The GET requests of a trace. *)
Definition gets (tr : trace) : list request :=
  omap (fun ev => match ev with EvGet r => Some r | _ => None end) tr.

(** The outside world: what [requests.get] and the arXiv client answer, given
    everything that happened before. *)
Record world := mkWorld {
  http : trace -> request -> result response;
  arxiv : trace -> string -> Z -> Z -> result (list arxiv_result)
}.

(** [requests.get(url, params=..., timeout=..., headers=...)]. *)
Definition requests_get (w : world) (r : request) : io response :=
  fun tr => (http w tr r, tr ++ [EvGet r]).

(** [list(client.results(search))]: one event for the whole query.  The
    HTTP requests, retries and pauses that the arXiv client makes on its own
    to serve the query are not part of the trace. *)
Definition arxiv_client_results (w : world) (query : string)
    (max_results page_size : Z) : io (list arxiv_result) :=
  fun tr => (arxiv w tr query max_results page_size,
             tr ++ [EvArxiv query max_results page_size]).

End Net.

(* ===================================================================== *)
(** * analyzers/upload_analyzer.py: retrying requests and enrichment *)
(* ===================================================================== *)

Module UploadAnalyzer.
Import PyStr Py Net.

(** The dict that both lookups return, key by key. *)
Record enrichment := mkEnrichment {
  en_title : json;
  en_year : json;
  en_authors : list json;
  en_venue : json;
  en_paper_url : json;
  en_pdf_url : json;
  en_citation_count : json
}.

(** How one turn of the retry loop ends. *)
Inductive step :=
  | Return (v : json)
  | Continue.

Definition USER_AGENT : list (string * string) :=
  [ ("User-Agent", "ScholarSync/1.0 (+local-upload-enrichment)") ].

Definition RETRY_STATUSES : list Z := [429; 500; 502; 503; 504]%Z.

Definition SEARCH_URL : string :=
  "https://api.semanticscholar.org/graph/v1/paper/search".

Definition DOI_URL_PREFIX : string :=
  "https://api.semanticscholar.org/graph/v1/paper/DOI:".

Definition TITLE_STOP : list string :=
  [ "the"; "and"; "for"; "with"; "from"; "using"; "study"; "paper";
    "approach"; "method" ].

(** [[a.get("name", "") for a in v if a.get("name")]]. *)
Fixpoint author_names (items : list json) : result (list json) :=
  match items with
  | [] => Ok []
  | a :: rest =>
      cond ← py_get a "name" JNull;
      if truthy cond then
        name ← py_get a "name" (JStr "");
        names ← author_names rest;
        Ok (name :: names)
      else author_names rest
  end.

(** The dict literal built from a paper record of the API. *)
Definition enrichment_of_item (item : json) : result enrichment :=
  title ← py_get item "title" (JStr "");
  year ← py_get item "year" JNull;
  authors_value ← py_get item "authors" (JArr []);
  authors_items ← py_iter authors_value;
  authors ← author_names authors_items;
  venue ← py_get item "venue" (JStr "");
  paper_url ← py_get item "url" (JStr "");
  open_access ← py_get item "openAccessPdf" JNull;
  pdf_url ← py_get (py_or open_access (JObj [])) "url" (JStr "");
  citation_count ← py_get item "citationCount" JNull;
  Ok (mkEnrichment title year authors venue paper_url pdf_url citation_count).

(** [_tokenize_title]; the argument is whatever [item.get("title", "")]
    gave. *)
Definition _tokenize_title (text : json) : result (list string) :=
  text ← py_or_empty_lower text;
  let text := sub_other_with_space text in
  let tokens := List.filter (fun t => (2 <? String.length t)%nat) (split_ws text) in
  Ok (List.filter (fun t => negb (bool_decide (t ∈ TITLE_STOP))) tokens).

(** The inner function [score] of [_best_title_match]: the Jaccard index of
    the two token sets, as a rational. *)
Definition score (query_tokens : gset string) (item : json) : result Q :=
  cand_title ← py_get item "title" (JStr "");
  cand ← _tokenize_title cand_title;
  let cand_tokens : gset string := list_to_set cand in
  if decide (cand_tokens = ∅) then Ok 0%Q
  else
    let inter := size (query_tokens ∩ cand_tokens) in
    let union := size (query_tokens ∪ cand_tokens) in
    if (union =? 0)%nat then Ok 0%Q
    else Ok (inject_Z (Z.of_nat inter) / inject_Z (Z.of_nat union))%Q.

Definition _best_title_match (query_title : string) (items : json) : result json :=
  query ← _tokenize_title (JStr query_title);
  let query_tokens : gset string := list_to_set query in
  if decide (query_tokens = ∅) then py_first items
  else
    elems ← py_iter items;
    keys ← mapM (score query_tokens) elems;
    let ranked := PySort.sort_desc Qle_bool fst (zip keys elems) in
    match ranked with
    | (_, item) :: _ => Ok item
    | [] => Raise (PyException "IndexError")
    end.

Section WithWorld.
Variable w : world.

(** [if attempt < attempts - 1: time.sleep(0.6 * (attempt + 1)); continue]
    followed by [return None].  The pause is given by its decimal value; the
    float product of the code has this value for the first two pauses and
    the nearest float after that. *)
Definition backoff_or_give_up (attempts attempt : nat) : io step :=
  if (Z.of_nat attempt <? Z.of_nat attempts - 1)%Z
  then _ ← sleep ((6 # 10) * inject_Z (Z.of_nat attempt + 1))%Q; mret Continue
  else mret (Return JNull).

(** The [try] block of one turn. *)
Definition attempt_body (url : string) (params : list (string * param))
    (attempts : nat) (timeout : Z) (attempt : nat) : io step :=
  response ← requests_get w (mkRequest url params timeout USER_AGENT);
  if bool_decide (status_code response ∈ RETRY_STATUSES)
  then backoff_or_give_up attempts attempt
  else
    _ ← lift (raise_for_status response);
    v ← lift (json_body response);
    mret (Return v).

(** The two [except] clauses of one turn: [requests.Timeout] first, then
    [requests.RequestException]. *)
Definition attempt_handler (attempts attempt : nat) (e : exn) : io step :=
  if is_timeout e then backoff_or_give_up attempts attempt
  else backoff_or_give_up attempts attempt.

(** The [for attempt in range(attempts)] loop; [todo] is what is left of
    the range. *)
Fixpoint retry_loop (url : string) (params : list (string * param))
    (attempts : nat) (timeout : Z) (todo : list nat) : io json :=
  match todo with
  | [] => mret JNull
  | attempt :: rest =>
      s ← try_except (attempt_body url params attempts timeout attempt)
            (fun e => is_timeout e || is_request_exception e)
            (attempt_handler attempts attempt);
      match s with
      | Return v => mret v
      | Continue => retry_loop url params attempts timeout rest
      end
  end.

Definition _request_json_with_retries (url : string)
    (params : list (string * param)) (attempts : nat) (timeout : Z) : io json :=
  retry_loop url params attempts timeout (seq 0 attempts).

Definition _lookup_semantic_scholar_by_doi (doi : string)
  : io (option enrichment) :=
  try_except
    (let doi := rstrip_chars ").,;" (lower (strip doi)) in
     if decide (doi = "") then mret None
     else
       let url := DOI_URL_PREFIX +:+ doi in
       let params :=
         [ ("fields", PStr "title,year,authors,venue,url,openAccessPdf,citationCount") ] in
       item ← _request_json_with_retries url params 3 14;
       if negb (truthy item) then mret None
       else
         e ← lift (enrichment_of_item item);
         mret (Some e))
    (fun _ => true)
    (fun _ => mret None).

(** The part of [_lookup_semantic_scholar] after the DOI branch. *)
Definition title_search (title : option string) : io (option enrichment) :=
  match title with
  | None => mret None
  | Some title =>
      if decide (title = "") then mret None
      else
        try_except
          (let params :=
             [ ("query", PStr title); ("limit", PInt 5);
               ("fields", PStr "title,year,authors,venue,url,openAccessPdf,citationCount") ] in
           response_data ← _request_json_with_retries SEARCH_URL params 3 14;
           if negb (truthy response_data) then mret None
           else
             data ← lift (py_get response_data "data" (JArr []));
             if negb (truthy data) then mret None
             else
               item ← lift (_best_title_match title data);
               e ← lift (enrichment_of_item item);
               mret (Some e))
          (fun _ => true)
          (fun _ => mret None)
  end.

Definition _lookup_semantic_scholar (doi title : option string)
  : io (option enrichment) :=
  match doi with
  | Some (String c d) =>
      exact ← _lookup_semantic_scholar_by_doi (String c d);
      match exact with
      | Some e => mret (Some e)
      | None => title_search title
      end
  | _ => title_search title
  end.

End WithWorld.

End UploadAnalyzer.

(* ===================================================================== *)
(** * services/paper_search.py *)
(* ===================================================================== *)

Module PaperSearch.
Import PyStr Py Net.

(** The dataclass [Paper] annotates its fields and stores what it is given.
    The model has the annotated types: a JSON value is stored as the
    annotated type reads it, which is what the code stores when the payload
    has the documented types ([SearchWords.typed_record]); a value of
    another JSON type reads as the empty string or as [None], where the
    code would store it unchanged. *)
Definition json_str (v : json) : string :=
  match v with JStr s => s | _ => "" end.

Definition json_int (v : json) : option Z :=
  match v with
  | JNum q => if (Qnum q mod Zpos (Qden q) =? 0)%Z
              then Some (Qnum q / Zpos (Qden q))%Z else None
  | _ => None
  end.

(** [self.timeout] of [PaperSearchService()]. *)
Definition SERVICE_TIMEOUT : Z := 20.

Definition SEARCH_URL : string :=
  "https://api.semanticscholar.org/graph/v1/paper/search".

(** [x or y] on an optional string. *)
Definition str_or (x : option string) (y : string) : string :=
  match x with
  | Some (String c s) => String c s
  | _ => y
  end.

Definition paper_of_arxiv (r : arxiv_result) : Paper :=
  mkPaper (strip (ar_title r)) (strip (str_or (ar_summary r) ""))
          (ar_authors r) (ar_published r) "arXiv" (ar_entry_id r)
          (str_or (ar_pdf_url r) (ar_entry_id r)) "arXiv" None.

(** [[a.get("name", "") for a in v if a.get("name")]]. *)
Fixpoint author_names (items : list json) : result (list json) :=
  match items with
  | [] => Ok []
  | a :: rest =>
      cond ← py_get a "name" JNull;
      if truthy cond then
        name ← py_get a "name" (JStr "");
        names ← author_names rest;
        Ok (name :: names)
      else author_names rest
  end.

(** The loop over [data] in [_search_semantic_scholar]; [papers] is the list
    built so far. *)
Fixpoint papers_loop (data : list json) (papers : list Paper)
  : result (list Paper) :=
  match data with
  | [] => Ok papers
  | item :: rest =>
      title_value ← py_get item "title" JNull;
      title ← py_or_empty_strip title_value;
      abstract_value ← py_get item "abstract" JNull;
      abstract ← py_or_empty_strip abstract_value;
      if String.eqb title "" || String.eqb abstract "" then papers_loop rest papers
      else
        authors_value ← py_get item "authors" (JArr []);
        authors_items ← py_iter authors_value;
        authors ← author_names authors_items;
        url_value ← py_get item "url" JNull;
        let paper_url := py_or url_value (JStr "") in
        open_access ← py_get item "openAccessPdf" JNull;
        pdf_value ← py_get (py_or open_access (JObj [])) "url" JNull;
        let pdf_url := py_or pdf_value paper_url in
        year ← py_get item "year" JNull;
        venue_value ← py_get item "venue" JNull;
        citation_count ← py_get item "citationCount" JNull;
        papers_loop rest
          (papers ++
           [ mkPaper title abstract (json_str <$> authors) (json_int year)
               "Semantic Scholar" (json_str paper_url) (json_str pdf_url)
               (json_str (py_or venue_value (JStr ""))) (json_int citation_count) ])
  end.

Section WithWorld.
Variable w : world.

Definition _search_arxiv (query : string) (max_results : Z) : io (list Paper) :=
  results ← arxiv_client_results w query max_results (Z.min max_results 100);
  mret (paper_of_arxiv <$> results).

Definition _search_semantic_scholar (query : string) (max_results : Z)
  : io (list Paper) :=
  let params :=
    [ ("query", PStr query); ("limit", PInt (Z.min max_results 100));
      ("fields", PStr "title,abstract,year,authors,venue,url,openAccessPdf,citationCount") ] in
  response ← requests_get w (mkRequest SEARCH_URL params SERVICE_TIMEOUT []);
  _ ← lift (raise_for_status response);
  payload ← lift (json_body response);
  data ← lift (py_get payload "data" (JArr []));
  items ← lift (py_iter data);
  lift (papers_loop items []).

(** [search]; [int(max_results * 0.6)], a product of floats, is the integer
    part of [3 * max_results / 5] as long as [max_results] stays far below
    2^52 in absolute value, which is the range the definition describes. *)
Definition search (query : string) (max_results : Z) : io (list Paper) :=
  let arxiv_target := Z.max 4 (Z.quot (3 * max_results) 5) in
  let semsch_target := max_results in
  from_arxiv ← _search_arxiv query arxiv_target;
  from_semsch ← _search_semantic_scholar query semsch_target;
  mret (from_arxiv ++ from_semsch).

Definition safe_search (query : string) (max_results : Z) : io (list Paper) :=
  try_except (search query max_results)
    is_request_exception
    (fun _ => _search_arxiv query max_results).

End WithWorld.

End PaperSearch.

(* ===================================================================== *)
(** * pipeline.py *)
(* ===================================================================== *)

Module Pipeline.
Import Py Net.

(** The loop of [_filter_by_year]; [filtered] is the list built so far. Each
    [continue] of the source is a branch that leaves [filtered] as it is. *)
Fixpoint filter_loop (papers : list Paper) (start_year end_year : option Z)
    (filtered : list Paper) : list Paper :=
  match papers with
  | [] => filtered
  | paper :: rest =>
      match year paper with
      | None => filter_loop rest start_year end_year filtered
      | Some y =>
          if match start_year with Some s => (y <? s)%Z | None => false end
          then filter_loop rest start_year end_year filtered
          else if match end_year with Some e => (y >? e)%Z | None => false end
          then filter_loop rest start_year end_year filtered
          else filter_loop rest start_year end_year (filtered ++ [paper])
      end
  end.

Definition _filter_by_year (papers : list Paper) (start_year end_year : option Z)
  : list Paper :=
  match start_year, end_year with
  | None, None => papers
  | _, _ => filter_loop papers start_year end_year []
  end.

(** [str(n)] for an [int]. *)
Definition str_of_int (n : Z) : string := NilZero.string_of_int (Z.to_int n).


(** [d[key]] on the dict of sections. *)
Definition getitem (d : gmap string string) (key : string) : result string :=
  match d !! key with
  | Some v => Ok v
  | None => Raise (PyException "KeyError")
  end.

(** The body of the loop of [analyze_query] for one paper. *)
Definition analyze_paper (p : Paper) : result PaperAnalysis :=
  sections ← match SectionExtractor.extract (abstract p) with
             | Some d => Ok d
             | None => Raise (PyException "LookupError")
             end;
  let citation_text :=
    match citations p with
    | Some n => "Cited by approximately " +:+ str_of_int n
                +:+ " papers (source metadata)."
    | None => "Citation count unavailable in source metadata."
    end in
  insights ← getitem sections "insights";
  literature_review ← getitem sections "literature_review";
  method_used ← getitem sections "method_used";
  contributions ← getitem sections "contributions";
  limitations ← getitem sections "limitations";
  future_work ← getitem sections "future_work";
  research_gap ← getitem sections "research_gap";
  Ok (mkPaperAnalysis p insights literature_review method_used contributions
        limitations future_work citation_text research_gap).


End Pipeline.


(* ===================================================================== *)
(** * analyzers/corpus_analyzer.py: the similarity graph *)
(* ===================================================================== *)

Module CorpusAnalyzer.







Section Build.
(** [sim[i, j]], the cosine similarity of the TF-IDF vectors of abstracts
    [i] and [j], computed by scikit-learn. *)
Variable sim : nat -> nat -> Q.




End Build.







End CorpusAnalyzer.

(* ===================================================================== *)
(** * Predicates on titles and papers used in the statements *)
(* ===================================================================== *)

Module TextWords.
Import PyStr Text.

(** The key under which [dedupe_by_title] remembers an item: its normalised
    title. *)
Definition key_of {A : Type} (title_getter : A -> string) (x : A) : string :=
  normalize_title (title_getter x).


(** "Stripped to alphanumerics and spaces": the characters a-z and 0-9 and
    the white space stay, every other character goes. *)
Fixpoint keep_alnum_space (s : string) : string :=
  match s with
  | EmptyString => EmptyString
  | String c s' =>
      if is_az09_space c || isspace c then String c (keep_alnum_space s')
      else keep_alnum_space s'
  end.

(** The normalisation in the order of the specification's words:
    lower-case, strip to alphanumerics and spaces, collapse white space;
    without white space at the ends. *)
Definition described_key (t : string) : string :=
  strip (sub_ws_with_space (keep_alnum_space (lower t))).


End TextWords.

Module PipelineWords.

(** The test that the loop of [_filter_by_year] applies to one paper. *)
Definition in_bounds (start_year end_year : option Z) (p : Paper) : bool :=
  match year p with
  | None => false
  | Some y =>
      negb (match start_year with Some s => (y <? s)%Z | None => false end)
      && negb (match end_year with Some e => (y >? e)%Z | None => false end)
  end.

End PipelineWords.

(* ===================================================================== *)
(** * The words of the specification, for comparison with the code *)
(* ===================================================================== *)

Module ExtractorWords.
Import PyStr SectionExtractor.

(** The largest score in a list of scored sentences. *)
Definition max_score (l : list (nat * string)) : nat :=
  foldr Nat.max 0 (fst <$> l).

(** The first entry with score [m], and the list without it. *)
Fixpoint pick_first (m : nat) (l : list (nat * string))
  : option ((nat * string) * list (nat * string)) :=
  match l with
  | [] => None
  | y :: l' =>
      if (fst y =? m)%nat then Some (y, l')
      else match pick_first m l' with
           | Some (x, r) => Some (x, y :: r)
           | None => None
           end
  end.

(** "The top-K sentences by score, ties broken by original sentence order":
    K times, take out the first entry that has the largest score. *)
Fixpoint top_by_score (k : nat) (l : list (nat * string)) : list (nat * string) :=
  match k with
  | 0 => []
  | S k' =>
      match pick_first (max_score l) l with
      | Some (x, r) => x :: top_by_score k' r
      | None => []
      end
  end.

(** The keywords of a list that occur in a sentence, whatever the case of
    the sentence, as a set. *)
Definition keywords_in (keywords : list string) (sent : string) : gset string :=
  list_to_set (List.filter (fun kw => contains kw (lower sent)) keywords).

(** "Sentences with score 0 are excluded": the sentences with a positive
    count of keywords, each with its count, in the order of the text. *)
Definition scored_sentences (keywords : list string) (sentences : list string)
  : list (nat * string) :=
  List.filter (fun p => (0 <? fst p)%nat)
    ((fun sent => (size (keywords_in keywords sent), sent)) <$> sentences).

End ExtractorWords.

Module NetWords.
Import Py Net UploadAnalyzer.

(** A transport that never answers: every [requests.get] raises a timeout
    or another exception of the [requests] hierarchy. *)
Definition always_failing (w : world) : Prop :=
  forall tr r, exists e, http w tr r = Raise e /\ is_request_exception e = true.

(** An event that one call of the retrying helper may leave: a GET of its
    own request, or a sleep. *)
Definition retry_event (req : request) (ev : event) : Prop :=
  ev = EvGet req \/ exists seconds, ev = EvSleep seconds.

(** A request of the title search. *)
Definition is_title_search (r : request) : Prop :=
  req_url r = UploadAnalyzer.SEARCH_URL.

End NetWords.

(* ===================================================================== *)
(** * Concrete inputs *)
(* ===================================================================== *)

Module Examples.
Import Py Net.

(** A paper of which only the title matters. *)
Definition paper_titled (t : string) : Paper :=
  mkPaper t "" [] None "arXiv" "" "" "" None.





(** Three papers: from 2015, from 2021, and one without a year. *)
Definition paper_2015 : Paper :=
  mkPaper "A" "" [] (Some 2015%Z) "arXiv" "" "" "" None.
Definition paper_2021 : Paper :=
  mkPaper "B" "" [] (Some 2021%Z) "arXiv" "" "" "" None.
Definition paper_undated : Paper :=
  mkPaper "C" "" [] None "arXiv" "" "" "" None.

(** A world in which every request times out. *)
Definition world_timing_out : world :=
  mkWorld (fun _ _ => Raise RequestsTimeout) (fun _ _ _ _ => Ok []).

(** A world in which the metadata service answers every request with the
    same paper record. *)
Definition world_with_record : world :=
  mkWorld
    (fun _ _ =>
       Ok (mkResponse 200
             (Ok (JObj [ ("title", JStr "Attention Is All You Need");
                         ("year", JNum 2017) ]))))
    (fun _ _ _ _ => Ok []).

(** A world in which arXiv answers with one paper and every GET fails with
    a connection error. *)
Definition world_arxiv_only : world :=
  mkWorld (fun _ _ => Raise RequestsConnectionError)
    (fun _ _ _ _ =>
       Ok [ mkArxivResult " Graph Networks " (Some "We study graphs.")
              ["A. Author"] (Some 2020%Z) "http://arxiv.org/abs/1" None ]).

End Examples.

(* ===================================================================== *)
(** * Further predicates used in the statements *)
(* ===================================================================== *)

Module SentenceWords.
Import PyStr SectionExtractor.

(** The characters of a string that are not whitespace, in order. *)
Definition nonspace (s : string) : list ascii :=
  List.filter (fun c => negb (isspace c)) (chars s).

(** The last character of a string, if any. *)
Fixpoint last_char (s : string) : option ascii :=
  match s with
  | EmptyString => None
  | String c EmptyString => Some c
  | String _ s' => last_char s'
  end.

(** The string ends with one of [. ! ?]. *)
Definition ends_sentence (s : string) : bool :=
  match last_char s with
  | Some c => is_sentence_end c
  | None => false
  end.

(** Somewhere in the string, one of [. ! ?] is followed by whitespace. *)
Fixpoint boundary_inside (s : string) : bool :=
  match s with
  | EmptyString => false
  | String c s' =>
      match s' with
      | String d _ => (is_sentence_end c && isspace d) || boundary_inside s'
      | EmptyString => false
      end
  end.

(** All elements of a list but the last one satisfy [P]. *)
Fixpoint all_but_last {A : Type} (P : A -> Prop) (l : list A) : Prop :=
  match l with
  | [] => True
  | [_] => True
  | x :: l' => P x /\ all_but_last P l'
  end.

End SentenceWords.

Module RetryWords.
Import Py Net UploadAnalyzer.

(** The pause before the retry that follows attempt number [attempt]:
    [0.6 * (attempt + 1)] seconds. *)
Definition backoff_seconds (attempt : nat) : Q :=
  ((6 # 10) * inject_Z (Z.of_nat attempt + 1))%Q.

(** What [k] turns that end in a retry leave in the trace, the first of them
    being attempt number [attempt]: a GET and a pause each. *)
Fixpoint failed_turns (req : request) (attempt k : nat) : trace :=
  match k with
  | 0 => []
  | S k' =>
      EvGet req :: EvSleep (backoff_seconds attempt)
      :: failed_turns req (S attempt) k'
  end.

(** A response or exception after which the helper does not return a
    value: an exception of the [requests] hierarchy, a status of the retry
    list, any other 4xx or 5xx status, or a body whose decoding raises
    inside the [requests] hierarchy. *)
Definition unsuccessful (o : result response) : bool :=
  match o with
  | Raise e => is_request_exception e
  | Ok r =>
      bool_decide (status_code r ∈ RETRY_STATUSES)
      || ((400 <=? status_code r) && (status_code r <? 600))%Z
      || match json_body r with
         | Raise e => is_request_exception e
         | Ok _ => false
         end
  end.

(** A response that makes the helper return [v]. *)
Definition successful (o : result response) (v : json) : Prop :=
  exists r, o = Ok r
            /\ (status_code r ∉ RETRY_STATUSES)
            /\ ((status_code r < 400)%Z \/ (600 <= status_code r)%Z)
            /\ json_body r = Ok v.




End RetryWords.

Module MoreExamples.
Import Py Net.

(** A world whose metadata service fails the first request of a run with
    status 503 and answers the following ones with the JSON string "ok". *)
Definition world_second_try : world :=
  mkWorld
    (fun tr _ =>
       match tr with
       | [] => Ok (mkResponse 503 (Ok JNull))
       | _ => Ok (mkResponse 200 (Ok (JStr "ok")))
       end)
    (fun _ _ _ _ => Ok []).

(** A world whose metadata service answers every request with status 404. *)
Definition world_not_found : world :=
  mkWorld (fun _ _ => Ok (mkResponse 404 (Ok (JObj [("error", JStr "not found")]))))
    (fun _ _ _ _ => Ok []).

(** A world in which arXiv answers with one paper and the search of the
    metadata service with two records, the second without an abstract. *)
Definition world_both_answer : world :=
  mkWorld
    (fun _ _ =>
       Ok (mkResponse 200
             (Ok (JObj [ ("total", JNum 2);
                         ("data",
                          JArr [ JObj [ ("title", JStr " Deep Nets ");
                                        ("abstract", JStr "We train nets.");
                                        ("year", JNum 2021) ];
                                 JObj [ ("title", JStr "No abstract") ] ]) ]))))
    (fun _ _ _ _ =>
       Ok [ mkArxivResult " Graph Networks " (Some "We study graphs.")
              ["A. Author"] (Some 2020%Z) "http://arxiv.org/abs/1" None ]).


End MoreExamples.

Module SearchWords.
Import PyStr Py Net PaperSearch.

(** What the loop of [_search_semantic_scholar] guarantees of a paper it
    appends: a title and an abstract, both non-empty and without
    surrounding whitespace, and the source label. *)
Definition from_semantic_scholar (p : Paper) : Prop :=
  title p <> "" /\ abstract p <> ""
  /\ strip (title p) = title p /\ strip (abstract p) = abstract p
  /\ source p = "Semantic Scholar".

(** What [_search_arxiv] guarantees of a paper it appends. *)
Definition from_arxiv (p : Paper) : Prop :=
  strip (title p) = title p /\ strip (abstract p) = abstract p
  /\ source p = "arXiv" /\ venue p = "arXiv" /\ citations p = None
  /\ (pdf_url p = "" -> paper_url p = "").

(** The GET that [_search_semantic_scholar] sends. *)
Definition search_request (query : string) (max_results : Z) : request :=
  mkRequest SEARCH_URL
    [ ("query", PStr query); ("limit", PInt (Z.min max_results 100));
      ("fields", PStr "title,abstract,year,authors,venue,url,openAccessPdf,citationCount") ]
    SERVICE_TIMEOUT [].

(** The number of results that [search] asks of arXiv. *)
Definition arxiv_target (max_results : Z) : Z :=
  Z.max 4 (Z.quot (3 * max_results) 5).













End SearchWords.

Module TitleWords.
Import PyStr Py UploadAnalyzer.

(** The character class [[a-z0-9]]. *)
Definition is_az09 (c : ascii) : bool :=
  let n := N_of_ascii c in
  (((97 <=? n) && (n <=? 122)) || ((48 <=? n) && (n <=? 57)))%N.

(** What [_tokenize_title] guarantees of a token: more than two characters,
    all of them in [[a-z0-9]], and not a stop word. *)
Definition title_token (t : string) : Prop :=
  2 < String.length t
  /\ Forall (fun c => is_az09 c = true) (chars t)
  /\ t ∉ TITLE_STOP.

End TitleWords.

(* ===================================================================== *)
(** * analyzers/upload_analyzer.py: the text helpers *)
(* ===================================================================== *)

#[local] Set Warnings "-abstract-large-number".

Module UploadText.
Import PyStr.

(** [text.replace("\x00", " ")]. *)
Fixpoint replace_nul (s : string) : string :=
  match s with
  | EmptyString => EmptyString
  | String c s' =>
      String (if (N_of_ascii c =? 0)%N then " "%char else c) (replace_nul s')
  end.

Definition _normalize_whitespace (text : string) : string :=
  let text := replace_nul text in
  let text := sub_ws_with_space text in
  strip text.

(** [_pick]; [primary] is what [dict.get] gave. *)
Definition _pick (primary : option string) (fallback : string) : string :=
  match primary with
  | Some p =>
      if negb (String.eqb p "") && negb (String.eqb (strip p) "")
      then strip p else fallback
  | None => fallback
  end.

(** [s.lstrip(chars)]: leading characters that occur in [chars] go. *)
Fixpoint lstrip_chars (chars s : string) : string :=
  match s with
  | EmptyString => EmptyString
  | String c s' => if char_in c chars then lstrip_chars chars s' else s
  end.

(** [s.strip(chars)]. *)
Definition strip_chars (chars s : string) : string :=
  rstrip_chars chars (lstrip_chars chars s).

Definition TITLE_TRIM : string := " .,:;()[]{}".

(** [_normalize_query_title]; [None] stands for a missing title. *)
Definition _normalize_query_title (text : option string) : string :=
  let text := strip (default "" text) in
  let text := sub_ws_with_space text in
  strip_chars TITLE_TRIM text.

(** The line boundaries of [str.splitlines]: LF, VT, FF, CR, FS, GS, RS and
    NEL. *)
Definition is_linebreak (c : ascii) : bool :=
  let n := N_of_ascii c in
  (((10 <=? n) && (n <=? 13)) || ((28 <=? n) && (n <=? 30)) || (n =? 133))%N.

(** [s.splitlines()]; [cur] is the line being read, and [after_cr] tells
    that the previous character was a CR, so that CR LF is one boundary. *)
Fixpoint splitlines_from (after_cr : bool) (cur s : string) : list string :=
  match s with
  | EmptyString => if decide (cur = "") then [] else [cur]
  | String c s' =>
      if after_cr && (N_of_ascii c =? 10)%N then splitlines_from false cur s'
      else if is_linebreak c
      then cur :: splitlines_from (N_of_ascii c =? 13)%N "" s'
      else splitlines_from false (cur +:+ String c "") s'
  end.

Definition splitlines (s : string) : list string := splitlines_from false "" s.

(** The test of the loop of [_infer_title] on a stripped line. *)
Definition title_like (clean : string) : bool :=
  (15 <=? String.length clean)%nat && (String.length clean <=? 180)%nat
  && negb (startswith "abstract" (lower clean)
           || startswith "introduction" (lower clean)).

Fixpoint infer_title_loop (lines : list string) : string :=
  match lines with
  | [] => ""
  | line :: rest =>
      let clean := strip line in
      if title_like clean then clean else infer_title_loop rest
  end.

Definition _infer_title (text : string) : string :=
  infer_title_loop (take 20 (splitlines text)).

(** The class [\d] on one character. *)
Definition is_digit (c : ascii) : bool :=
  let n := N_of_ascii c in ((48 <=? n) && (n <=? 57))%N.

(** What [\d+(\.\d+)*] leaves of a string, read after its first digit:
    further digits go, and so does a dot that a digit follows. *)
Fixpoint after_numbering (s : string) : string :=
  match s with
  | EmptyString => EmptyString
  | String c s' =>
      if is_digit c then after_numbering s'
      else if (N_of_ascii c =? 46)%N
      then match s' with
           | String d _ => if is_digit d then after_numbering s' else s
           | EmptyString => s
           end
      else s
  end.

(** [re.sub(r"^\d+(\.\d+)*\s*", "", line)]. *)
Definition strip_numbering (line : string) : string :=
  match line with
  | String c s' => if is_digit c then lstrip (after_numbering s') else line
  | EmptyString => EmptyString
  end.

(** [s] without the prefix [p], when it starts with [p]. *)
Fixpoint strip_prefix (p s : string) : option string :=
  match p, s with
  | EmptyString, _ => Some s
  | String _ _, EmptyString => None
  | String a p', String b s' => if Ascii.eqb a b then strip_prefix p' s' else None
  end.

(** [re.fullmatch(pat, compact)] or [re.fullmatch(pat + r"\s*[:\-]?", compact)]
    for a pattern without special characters. *)
Definition heading_matches (pat compact : string) : bool :=
  String.eqb compact pat
  || match strip_prefix pat compact with
     | Some rest =>
         match lstrip rest with
         | EmptyString => true
         | String c EmptyString => ((N_of_ascii c =? 58) || (N_of_ascii c =? 45))%N
         | _ => false
         end
     | None => false
     end.

Definition SECTION_HEADINGS : list (string * list string) :=
  [ ("literature_review", ["related work"; "literature review"; "background"]);
    ("method_used",
     ["method"; "methodology"; "approach"; "framework"; "experimental setup"]);
    ("contributions", ["contribution"; "main contribution"]);
    ("limitations", ["limitation"; "threats to validity"; "discussion"]);
    ("future_work", ["future work"; "conclusion and future work"]);
    ("citations", ["references"; "bibliography"]) ].

(** The loop of [_find_heading_index]; [i] is the index of the first line
    of [lines]. *)
Fixpoint find_heading_from (i : nat) (lines : list string) (patterns : list string)
  : option nat :=
  match lines with
  | [] => None
  | line :: rest =>
      let compact := strip (strip_numbering line) in
      if existsb (fun pat => heading_matches pat compact) patterns then Some i
      else find_heading_from (S i) rest patterns
  end.

Definition _find_heading_index (lines : list string) (patterns : list string)
  : option nat :=
  find_heading_from 0 lines patterns.

(** The class [[A-Za-z0-9\s\-]]. *)
Definition is_heading_char (c : ascii) : bool :=
  is_ascii_alnum c || isspace c || (N_of_ascii c =? 45)%N.

(** [heading_like.match(ln)]: an optional section number, white space, a
    capital letter, and 2 to 50 characters of the class above up to the
    end, which may be taken before a final line feed. *)
Definition heading_like (ln : string) : bool :=
  let rest :=
    match ln with
    | String c s' => if is_digit c then after_numbering s' else ln
    | EmptyString => EmptyString
    end in
  match lstrip rest with
  | String c body =>
      let n := String.length body in
      (let k := N_of_ascii c in (65 <=? k) && (k <=? 90))%N
      && forallb is_heading_char (chars body)
      && (((2 <=? n) && (n <=? 50))%nat
          || ((3 <=? n) && (n <=? 51))%nat
             && match SentenceWords.last_char body with
                | Some d => (N_of_ascii d =? 10)%N
                | None => false
                end)
  | EmptyString => false
  end.

(** The loop of [_collect_until_next_heading]; [chunks] is the list built
    so far. *)
Fixpoint collect_loop (lines : list string) (chunks : list string) : list string :=
  match lines with
  | [] => chunks
  | ln :: rest =>
      if heading_like ln && (4 <? length chunks)%nat then chunks
      else
        let chunks := chunks ++ [ln] in
        if (2600 <? String.length (join " " chunks))%nat then chunks
        else collect_loop rest chunks
  end.

Definition _collect_until_next_heading (lines : list string) (start_idx : nat)
  : string :=
  strip (join " " (collect_loop (drop start_idx lines) [])).

(** The loop over [SECTION_HEADINGS.items()]. *)
Fixpoint sections_loop (headings : list (string * list string))
    (filtered lower_lines : list string) (collected : gmap string string)
  : gmap string string :=
  match headings with
  | [] => collected
  | (key, patterns) :: rest =>
      match _find_heading_index lower_lines patterns with
      | None => sections_loop rest filtered lower_lines collected
      | Some idx =>
          let section_text := _collect_until_next_heading filtered (idx + 1) in
          if String.eqb section_text ""
          then sections_loop rest filtered lower_lines collected
          else sections_loop rest filtered lower_lines
                 (<[key := String.substring 0 2200 section_text]> collected)
      end
  end.

Definition _extract_sections_by_headings (text : string) : gmap string string :=
  let lines := strip <$> splitlines text in
  let filtered := List.filter (fun ln => negb (String.eqb ln "")) lines in
  match filtered with
  | [] => ∅
  | _ =>
      let lower_lines := lower <$> filtered in
      sections_loop SECTION_HEADINGS filtered lower_lines ∅
  end.

(** The class [\w] on one character: the letters and digits of Latin-1 and
    the underscore. *)
Definition is_word (c : ascii) : bool :=
  let n := N_of_ascii c in
  (((48 <=? n) && (n <=? 57)) || ((65 <=? n) && (n <=? 90)) || (n =? 95)
   || ((97 <=? n) && (n <=? 122)) || (n =? 170) || ((178 <=? n) && (n <=? 179))
   || (n =? 181) || ((185 <=? n) && (n <=? 186)) || ((188 <=? n) && (n <=? 190))
   || ((192 <=? n) && (n <=? 214)) || ((216 <=? n) && (n <=? 246))
   || (248 <=? n))%N.

(** The match of [(?:19|20)\d{2}\b] at the start of [s], if any. *)
Definition year_at (s : string) : option string :=
  match s with
  | String a (String b (String c (String d rest))) =>
      if (((N_of_ascii a =? 49) && (N_of_ascii b =? 57))
          || ((N_of_ascii a =? 50) && (N_of_ascii b =? 48)))%N
         && is_digit c && is_digit d
         && match rest with
            | String e _ => negb (is_word e)
            | EmptyString => true
            end
      then Some (String a (String b (String c (String d EmptyString))))
      else None
  | _ => None
  end.

(** [re.findall(r"\b(?:19|20)\d{2}\b", s)]; the next [skip] characters
    belong to the match just found, and [prev_word] tells that the previous
    character is of the class [\w]. *)
Fixpoint find_years (skip : nat) (prev_word : bool) (s : string) : list string :=
  match s with
  | EmptyString => []
  | String c s' =>
      match skip with
      | S k => find_years k (is_word c) s'
      | 0 =>
          match (if prev_word then None else year_at s) with
          | Some y => y :: find_years 3 true s'
          | None => find_years 0 (is_word c) s'
          end
      end
  end.

(** [int(y)] on a string of decimal digits. *)
Definition int_of_digits (s : string) : Z :=
  fold_left (fun acc c => 10 * acc + (Z.of_N (N_of_ascii c) - 48))%Z (chars s) 0%Z.

Definition _infer_year (text : string) : option Z :=
  let nums := find_years 0 false (String.substring 0 6000 text) in
  match nums with
  | [] => None
  | _ =>
      let valid :=
        int_of_digits
          <$> List.filter (fun y => ((1900 <=? int_of_digits y)
                                     && (int_of_digits y <=? 2100))%Z) nums in
      head valid
  end.

(** [re.search(r"\b(and|,)\b", s)]: the word "and" between two
    characters that are not of the class [\w], or a comma between two that
    are; [prev] is the character before [s]. *)
Definition and_or_comma_at (prev : option ascii) (s : string) : bool :=
  let prev_word := match prev with Some p => is_word p | None => false end in
  match s with
  | String c rest =>
      (negb prev_word && startswith "and" s
       && match rest with
          | String _ (String _ (String e _)) => negb (is_word e)
          | _ => true
          end)
      || (prev_word && (N_of_ascii c =? 44)%N
          && match rest with
             | String e _ => is_word e
             | EmptyString => false
             end)
  | EmptyString => false
  end.

Fixpoint search_and_or_comma (prev : option ascii) (s : string) : bool :=
  match s with
  | EmptyString => false
  | String c s' => and_or_comma_at prev s || search_and_or_comma (Some c) s'
  end.

(** [re.split(r",| and ", s)]; [cur] is the piece being read and the next
    [skip] characters belong to the separator just found. *)
Fixpoint split_authors (skip : nat) (cur s : string) : list string :=
  match s with
  | EmptyString => [cur]
  | String c s' =>
      match skip with
      | S k => split_authors k cur s'
      | 0 =>
          if (N_of_ascii c =? 44)%N then cur :: split_authors 0 "" s'
          else if startswith " and " s then cur :: split_authors 4 "" s'
          else split_authors 0 (cur +:+ String c "") s'
      end
  end.

(** The candidates of one line. *)
Definition author_candidates (ln : string) : list string :=
  strip <$> List.filter (fun x => negb (String.eqb (strip x) ""))
              (split_authors 0 "" ln).

(** The loop of [_infer_authors] over [lines[1:8]]. *)
Fixpoint infer_authors_loop (lines : list string) : list string :=
  match lines with
  | [] => []
  | ln :: rest =>
      if contains "@" ln then infer_authors_loop rest
      else if (String.length ln <? 150)%nat && search_and_or_comma None (lower ln)
      then
        let candidates := author_candidates ln in
        if ((1 <=? length candidates) && (length candidates <=? 8))%nat
        then candidates
        else infer_authors_loop rest
      else infer_authors_loop rest
  end.

Definition _infer_authors (text : string) : list string :=
  let lines :=
    strip <$> List.filter (fun ln => negb (String.eqb (strip ln) ""))
                (take 40 (splitlines text)) in
  infer_authors_loop (take 7 (drop 1 lines)).

(** The rest of a match of [\d+\]], read after [seen] digits. *)
Fixpoint digits_and_bracket (seen : bool) (s : string) : option string :=
  match s with
  | EmptyString => None
  | String c s' =>
      if is_digit c then String c <$> digits_and_bracket true s'
      else if seen && (N_of_ascii c =? 93)%N then Some (String c EmptyString)
      else None
  end.

(** The match of [\[\d+\]] at the start of [s], if any. *)
Definition ref_at (s : string) : option string :=
  match s with
  | String c s' =>
      if (N_of_ascii c =? 91)%N then String c <$> digits_and_bracket false s'
      else None
  | EmptyString => None
  end.

(** [re.findall(r"\[\d+\]", s)]. *)
Fixpoint find_refs (skip : nat) (s : string) : list string :=
  match s with
  | EmptyString => []
  | String c s' =>
      match skip with
      | S k => find_refs k s'
      | 0 =>
          match ref_at s with
          | Some r => r :: find_refs (String.length r - 1) s'
          | None => find_refs 0 s'
          end
      end
  end.

(** [len(set(refs))], as the f-string prints it. *)
Definition count_distinct (refs : list string) : string :=
  Pipeline.str_of_int (Z.of_nat (size (list_to_set (C := gset string) refs))).

Definition _extract_citations_section (text : string) (heading_value : option string)
  : string :=
  match heading_value with
  | Some (String c hv) =>
      let refs := find_refs 0 (String c hv) in
      match refs with
      | _ :: _ =>
          "References section detected with at least " +:+ count_distinct refs
          +:+ " indexed citations."
      | [] => "References section detected in uploaded paper."
      end
  | _ =>
      let refs_all := find_refs 0 text in
      match refs_all with
      | _ :: _ =>
          "Detected at least " +:+ count_distinct refs_all
          +:+ " indexed citations in the document."
      | [] => "Citations not clearly identifiable from extracted text."
      end
  end.

(** The entry "citations" of the sections that [analyze_uploaded_paper]
    returns: the value of [_extract_citations_section], normalized by
    [_format_section_output], and then passed to [_pick] together with the
    citation note. *)
Definition upload_citations (compact_text : string) (heading_value : option string)
    (citation_note : string) : string :=
  let merged := _extract_citations_section compact_text heading_value in
  let merged := _normalize_whitespace merged in
  _pick (Some merged) citation_note.

End UploadText.

Module UploadWords.
Import PyStr UploadText.

(** Every white-space character is a space, and none is next to another
    one. *)
Fixpoint collapsed (s : string) : bool :=
  match s with
  | EmptyString => true
  | String c s' =>
      (if isspace c
       then (N_of_ascii c =? 32)%N
            && match s' with
               | String d _ => negb (isspace d)
               | EmptyString => true
               end
       else true)
      && collapsed s'
  end.

(** No NUL character. *)
Definition no_nul (s : string) : bool :=
  forallb (fun c => negb (N_of_ascii c =? 0)%N) (chars s).

(** A text as [_normalize_whitespace] leaves it: without NUL, with single
    spaces as its only white space, and none of them at its ends. *)
Definition compact (s : string) : Prop :=
  no_nul s = true /\ collapsed s = true /\ strip s = s.

(** The first character of a string, if any. *)
Definition first_char (s : string) : option ascii :=
  match s with
  | String c _ => Some c
  | EmptyString => None
  end.

(** Neither end of the string is one of [chars]. *)
Definition trimmed_of (chars s : string) : Prop :=
  (forall c, first_char s = Some c -> char_in c chars = false)
  /\ (forall c, SentenceWords.last_char s = Some c -> char_in c chars = false).

(** No character of the string ends a line. *)
Definition one_line (s : string) : bool :=
  forallb (fun c => negb (is_linebreak c)) (chars s).

End UploadWords.

(* ===================================================================== *)
(** * analyzers/corpus_analyzer.py: the frequent terms *)
(* ===================================================================== *)

Module CorpusTerms.
Import PyStr.

(** The set literal [stop]. *)
Definition STOP : list string :=
  [ "the"; "and"; "for"; "with"; "that"; "this"; "from"; "using"; "into"; "into";
    "their"; "they"; "are"; "was"; "were"; "our"; "can"; "show"; "shows"; "paper";
    "study"; "based"; "new"; "results"; "method"; "approach"; "model"; "models";
    "data"; "task"; "tasks"; "use"; "used"; "via"; "over"; "under"; "than"; "also";
    "more" ].

(** The class [[a-zA-Z]]. *)
Definition is_ascii_letter (c : ascii) : bool :=
  let n := N_of_ascii c in
  (((97 <=? n) && (n <=? 122)) || ((65 <=? n) && (n <=? 90)))%N.

(** [re.findall(r"[a-zA-Z]{4,}", s)]: the maximal runs of letters that have
    four letters or more; [cur] is the run being read. *)
Fixpoint find_words (cur s : string) : list string :=
  match s with
  | EmptyString => if (4 <=? String.length cur)%nat then [cur] else []
  | String c s' =>
      if is_ascii_letter c then find_words (cur +:+ String c "") s'
      else if (4 <=? String.length cur)%nat then cur :: find_words "" s'
      else find_words "" s'
  end.

(** One more occurrence of [w] in a [Counter], whose items are in the order
    of first occurrence. *)
Fixpoint count_word (w : string) (counts : list (string * nat))
  : list (string * nat) :=
  match counts with
  | [] => [(w, 1)]
  | (v, k) :: rest =>
      if String.eqb v w then (v, S k) :: rest else (v, k) :: count_word w rest
  end.

(** [Counter(words)]. *)
Definition counter (words : list string) : list (string * nat) :=
  fold_left (fun counts w => count_word w counts) words [].

(** [counts.most_common(n)]: the [n] items of largest count, items of equal
    count in the order of the counter. *)
Definition most_common (n : nat) (counts : list (string * nat))
  : list (string * nat) :=
  take n (PySort.sort_desc Nat.leb snd counts).

(** [_top_terms], for a count [n] that is not negative. *)
Definition _top_terms (text : string) (n : nat) : list string :=
  let words := find_words "" (lower text) in
  let filtered := List.filter (fun w => negb (bool_decide (w ∈ STOP))) words in
  fst <$> most_common n (counter filtered).

End CorpusTerms.

Module SortWords.

(** [x] may stand before [y] in a list sorted in descending order: the key
    of [y] is not larger than the key of [x]. *)
Definition before {A K : Type} (leb : K -> K -> bool) (key : A -> K) (x y : A)
  : Prop :=
  leb (key y) (key x) = true.

End SortWords.

Module TermWords.
Import PyStr CorpusTerms.

(** The class [[a-z]]. *)
Definition is_az (c : ascii) : bool :=
  let n := N_of_ascii c in ((97 <=? n) && (n <=? 122))%N.

(** The words that [_top_terms] counts: the runs of four letters or more
    of the lower-case text that are no stop word. *)
Definition term_words (text : string) : list string :=
  List.filter (fun w => negb (bool_decide (w ∈ STOP))) (find_words "" (lower text)).

(** How often a word is counted. *)
Definition occurrences (text : string) (w : string) : nat :=
  length (List.filter (String.eqb w) (term_words text)).

(** The count of [v] in a counter. *)
Definition cnt (counts : list (string * nat)) (v : string) : nat :=
  sum_list (snd <$> List.filter (fun p => String.eqb v (fst p)) counts).

End TermWords.

(* ===================================================================== *)
(** * Proofs *)
(* ===================================================================== *)

#[local] Set Warnings "-clear-no-such-hyp".

(* ===================================================================== *)
(** * Facts about [dedupe_by_title] *)
(* ===================================================================== *)

Module TextFacts.
Import PyStr Text.

Section DedupeFacts.
Context {A : Type}.
Variable title_getter : A -> string.

Local Abbreviation key_of := (TextWords.key_of title_getter).

Lemma dedupe_loop_output (items : list A) (seen : gset string) (output : list A) :
  dedupe_loop title_getter items seen output
  = output ++ dedupe_loop title_getter items seen [].
Proof.
  revert seen output.
  induction items as [|x items IH]; intros seen output; simpl.
  - by rewrite app_nil_r.
  - case_decide; [apply IH|].
    rewrite (IH _ (output ++ [x])), (IH _ ([] ++ [x])).
    by rewrite <- app_assoc.
Qed.

Lemma dedupe_loop_cons (x : A) (items : list A) (seen : gset string) :
  dedupe_loop title_getter (x :: items) seen []
  = if decide (key_of x ∈ seen) then dedupe_loop title_getter items seen []
    else x :: dedupe_loop title_getter items ({[key_of x]} ∪ seen) [].
Proof.
  simpl. fold (TextWords.key_of title_getter x). case_decide; [done|].
  by rewrite dedupe_loop_output.
Qed.


Lemma dedupe_loop_sublist (items : list A) (seen : gset string) :
  sublist (dedupe_loop title_getter items seen []) items.
Proof.
  revert seen.
  induction items as [|x items IH]; intros seen.
  - constructor.
  - rewrite dedupe_loop_cons. case_decide.
    + by apply sublist_cons.
    + by apply sublist_skip.
Qed.

Lemma dedupe_loop_fresh (items : list A) (seen : gset string) (x : A) :
  x ∈ dedupe_loop title_getter items seen [] -> key_of x ∉ seen.
Proof.
  revert seen.
  induction items as [|y items IH]; intros seen; [by intros ?%elem_of_nil|].
  rewrite dedupe_loop_cons. case_decide as Hy.
  - apply IH.
  - intros [->|Hin]%elem_of_cons; [done|].
    apply IH in Hin. set_solver.
Qed.

Lemma dedupe_loop_NoDup (items : list A) (seen : gset string) :
  NoDup (key_of <$> dedupe_loop title_getter items seen []).
Proof.
  revert seen.
  induction items as [|x items IH]; intros seen; [constructor|].
  rewrite dedupe_loop_cons. case_decide as Hx; [apply IH|].
  rewrite fmap_cons. constructor; [|apply IH].
  intros (y & Hk & Hy)%list_elem_of_fmap.
  apply dedupe_loop_fresh in Hy. set_solver.
Qed.


(** An item whose key is already known leaves no mark on the loop. *)
Lemma dedupe_loop_seen (items : list A) (seen : gset string) (k : string) :
  k ∈ seen ->
  dedupe_loop title_getter items ({[k]} ∪ seen) []
  = dedupe_loop title_getter items seen [].
Proof.
  intros Hk. f_equal. set_solver.
Qed.

End DedupeFacts.

End TextFacts.

Module NormalizeFacts.
Import PyStr Text TextWords.

Lemma isspace_lower_char (c : ascii) : isspace (lower_char c) = isspace c.
Proof. destruct c as [[] [] [] [] [] [] [] []]; reflexivity. Qed.


Lemma lstrip_lower (s : string) : lstrip (lower s) = lower (lstrip s).
Proof.
  induction s as [|c s IH]; simpl; [done|].
  rewrite isspace_lower_char. by destruct (isspace c).
Qed.

Lemma rstrip_lower (s : string) : rstrip (lower s) = lower (rstrip s).
Proof.
  induction s as [|c s IH]; simpl; [done|].
  rewrite IH, isspace_lower_char.
  destruct (rstrip s); simpl; [by destruct (isspace c)|done].
Qed.

Lemma strip_lower (s : string) : strip (lower s) = lower (strip s).
Proof. unfold strip. by rewrite lstrip_lower, rstrip_lower. Qed.




(** The order of the three steps shows where punctuation stands between
    spaces: the spaces around it are collapsed before it is deleted, and
    both stay. *)
Example normalize_title_inner_punctuation :
  normalize_title "Deep Learning - A Survey" = "deep learning  a survey"
  /\ normalize_title "Deep Learning: A Survey" = "deep learning a survey".
Proof. split; reflexivity. Qed.

End NormalizeFacts.

(* ===================================================================== *)
(** * Further facts: titles, de-duplication, the year filter *)
(* ===================================================================== *)

Module MoreTextFacts.
Import PyStr Text TextWords TextFacts NormalizeFacts.

Lemma lower_char_idem (c : ascii) : lower_char (lower_char c) = lower_char c.
Proof. destruct c as [[] [] [] [] [] [] [] []]; reflexivity. Qed.

Lemma lower_idem (s : string) : lower (lower s) = lower s.
Proof.
  induction s as [|c s IH]; simpl; [done|]. by rewrite lower_char_idem, IH.
Qed.

Lemma lstrip_idem (s : string) : lstrip (lstrip s) = lstrip s.
Proof.
  induction s as [|c s IH]; simpl; [done|].
  destruct (isspace c) eqn:Hc; [done|]. simpl. by rewrite Hc.
Qed.

(** What [rstrip] leaves does not end in whitespace: stripping again changes
    nothing. *)
Lemma rstrip_idem (s : string) : rstrip (rstrip s) = rstrip s.
Proof.
  induction s as [|c s IH]; simpl; [done|].
  destruct (rstrip s) as [|d r] eqn:Hr.
  - destruct (isspace c) eqn:Hc; simpl; [done|]. by rewrite Hc.
  - simpl in *. rewrite IH. done.
Qed.

(** [lstrip] only removes a prefix, so the trailing whitespace is that of
    the whole string. *)
Lemma lstrip_rstrip (s : string) : lstrip (rstrip s) = rstrip (lstrip s).
Proof.
  induction s as [|c s IH]; simpl; [done|].
  destruct (isspace c) eqn:Hc.
  - destruct (rstrip s) as [|d r] eqn:Hr.
    + simpl. rewrite <- IH. done.
    + cbn [lstrip]. rewrite Hc. exact IH.
  - destruct (rstrip s) as [|d r] eqn:Hr; cbn [lstrip rstrip];
      rewrite ?Hc, ?Hr; done.
Qed.

Lemma strip_idem (s : string) : strip (strip s) = strip s.
Proof.
  unfold strip. by rewrite (lstrip_rstrip (lstrip s)), lstrip_idem, rstrip_idem.
Qed.

Lemma sub_delete_other_alphabet (s : string) :
  Forall (fun c => is_az09_space c = true) (chars (sub_delete_other s)).
Proof.
  induction s as [|c s IH]; simpl; [constructor|].
  destruct (is_az09_space c) eqn:Hc; [|done]. by constructor.
Qed.

(** A list whose keys are new and pairwise distinct goes through the loop
    unchanged. *)
Lemma dedupe_loop_distinct {A : Type} (title_getter : A -> string)
    (items : list A) (seen : gset string) :
  NoDup (key_of title_getter <$> items) ->
  (forall x, x ∈ items -> key_of title_getter x ∉ seen) ->
  dedupe_loop title_getter items seen [] = items.
Proof.
  revert seen. induction items as [|x items IH]; intros seen Hnd Hnew; [done|].
  rewrite dedupe_loop_cons. rewrite fmap_cons in Hnd.
  apply NoDup_cons in Hnd as [Hx Hnd].
  rewrite decide_False by (apply Hnew; left).
  f_equal. apply IH; [done|].
  intros y Hy. rewrite elem_of_union, elem_of_singleton. intros [Heq|Hin].
  - apply Hx. rewrite <- Heq. by apply list_elem_of_fmap_2.
  - apply (Hnew y); [by right|done].
Qed.

End MoreTextFacts.


(* ===================================================================== *)
(** * Further facts: the text helpers of the upload analyzer *)
(* ===================================================================== *)

Module MoreStringFacts.
Import PyStr SentenceWords UploadText UploadWords MoreTextFacts.

Lemma collapsed_tail (c : ascii) (s : string) :
  collapsed (String c s) = true -> collapsed s = true.
Proof. simpl. by intros [_ ?]%andb_true_iff. Qed.

(** The output of the white-space substitution is collapsed; read after a
    white-space character, it does not start with one. *)
Lemma sub_ws_run_collapsed (in_run : bool) (s : string) :
  collapsed (sub_ws_run in_run s) = true
  /\ (in_run = true ->
      forall c, first_char (sub_ws_run in_run s) = Some c -> isspace c = false).
Proof.
  revert in_run. induction s as [|c s IH]; intros in_run; [done|].
  cbn [sub_ws_run]. destruct (isspace c) eqn:Hc.
  - destruct in_run.
    + destruct (IH true) as [? Hfirst]. auto.
    + destruct (IH true) as [Hcol Hfirst]. split; [|done].
      cbn [collapsed]. change (isspace " ") with true. cbn iota.
      rewrite Hcol, andb_true_r. simpl.
      destruct (sub_ws_run true s) as [|d r] eqn:Hr; [done|].
      by rewrite (Hfirst eq_refl d eq_refl).
  - destruct (IH false) as [Hcol _]. split.
    + cbn [collapsed]. by rewrite Hc, Hcol.
    + intros _ d [= <-]. done.
Qed.

(** On a collapsed text the substitution changes nothing. *)
Lemma sub_ws_run_fixed (s : string) :
  collapsed s = true -> sub_ws_run false s = s.
Proof.
  induction s as [|c s IH]; [done|]. intros Hcol.
  pose proof (collapsed_tail _ _ Hcol) as Htail.
  cbn [sub_ws_run]. cbn [collapsed] in Hcol.
  destruct (isspace c) eqn:Hc; [|by rewrite IH].
  apply andb_true_iff in Hcol as [Hsp _].
  apply andb_true_iff in Hsp as [Hsp Hnext].
  apply N.eqb_eq in Hsp.
  assert (c = " "%char) as -> by (by rewrite <- (ascii_N_embedding c), Hsp).
  f_equal. destruct s as [|d s]; [done|].
  apply negb_true_iff in Hnext. cbn [sub_ws_run]. rewrite Hnext.
  f_equal. specialize (IH Htail). cbn [sub_ws_run] in IH. rewrite Hnext in IH.
  by injection IH.
Qed.

Lemma collapsed_lstrip (s : string) :
  collapsed s = true -> collapsed (lstrip s) = true.
Proof.
  induction s as [|c s IH]; [done|]. intros Hcol. simpl.
  destruct (isspace c); [|done]. apply IH. by apply collapsed_tail in Hcol.
Qed.

Lemma collapsed_lstrip_chars (set s : string) :
  collapsed s = true -> collapsed (lstrip_chars set s) = true.
Proof.
  induction s as [|c s IH]; [done|]. intros Hcol. simpl.
  destruct (char_in c set); [|done]. apply IH. by apply collapsed_tail in Hcol.
Qed.

(** Cutting a collapsed text at its end leaves a collapsed text. *)
Lemma collapsed_cut (cut : string -> string) (keep : ascii -> bool) (s : string) :
  (forall c s', cut (String c s')
                = match cut s' with
                  | EmptyString => if keep c then String c EmptyString else EmptyString
                  | r => String c r
                  end) ->
  cut "" = "" ->
  collapsed s = true -> collapsed (cut s) = true.
Proof.
  intros Hcut Hnil. induction s as [|c s IH]; [by rewrite Hnil|]. intros Hcol.
  pose proof (collapsed_tail _ _ Hcol) as Htail. specialize (IH Htail).
  rewrite Hcut. cbn [collapsed] in Hcol. apply andb_true_iff in Hcol as [Hc _].
  destruct (cut s) as [|d r] eqn:Hr.
  - destruct (keep c); [|done]. cbn [collapsed]. rewrite andb_true_r.
    destruct (isspace c); [|done]. apply andb_true_iff in Hc as [-> _]. done.
  - cbn [collapsed]. cbn [collapsed] in IH. rewrite IH, andb_true_r.
    destruct (isspace c); [|done]. apply andb_true_iff in Hc as [-> Hnext].
    simpl. destruct s as [|d' s']; [by rewrite Hnil in Hr|].
    rewrite Hcut in Hr.
    destruct (cut s'); [destruct (keep d'); [|done]|]; by injection Hr as <- _.
Qed.

Lemma collapsed_rstrip (s : string) :
  collapsed s = true -> collapsed (rstrip s) = true.
Proof.
  apply (collapsed_cut rstrip (fun c => negb (isspace c))); [|done].
  intros c s'. simpl. destruct (rstrip s'); [|done]. by destruct (isspace c).
Qed.

Lemma collapsed_rstrip_chars (set s : string) :
  collapsed s = true -> collapsed (rstrip_chars set s) = true.
Proof.
  apply (collapsed_cut (rstrip_chars set) (fun c => negb (char_in c set))); [|done].
  intros c s'. simpl. destruct (rstrip_chars set s'); [|done].
  by destruct (char_in c set).
Qed.

Lemma collapsed_strip (s : string) :
  collapsed s = true -> collapsed (strip s) = true.
Proof. intros H. by apply collapsed_rstrip, collapsed_lstrip. Qed.

(** The same for the absence of NUL. *)
Lemma no_nul_cons (c : ascii) (s : string) :
  no_nul (String c s) = negb (N_of_ascii c =? 0)%N && no_nul s.
Proof. reflexivity. Qed.

Lemma no_nul_lstrip (s : string) : no_nul s = true -> no_nul (lstrip s) = true.
Proof.
  induction s as [|c s IH]; [done|]. intros H. simpl.
  destruct (isspace c); [|done]. apply IH.
  rewrite no_nul_cons in H. by apply andb_true_iff in H as [_ ?].
Qed.

Lemma no_nul_rstrip (s : string) : no_nul s = true -> no_nul (rstrip s) = true.
Proof.
  induction s as [|c s IH]; [done|]. intros H.
  rewrite no_nul_cons in H. apply andb_true_iff in H as [Hc Hs].
  specialize (IH Hs). cbn [rstrip]. destruct (rstrip s) as [|d r].
  - destruct (isspace c); [done|]. by rewrite no_nul_cons, Hc.
  - by rewrite no_nul_cons, Hc, IH.
Qed.

Lemma no_nul_sub_ws_run (in_run : bool) (s : string) :
  no_nul s = true -> no_nul (sub_ws_run in_run s) = true.
Proof.
  revert in_run. induction s as [|c s IH]; intros in_run H; [done|].
  rewrite no_nul_cons in H. apply andb_true_iff in H as [Hc Hs].
  cbn [sub_ws_run]. destruct (isspace c).
  - destruct in_run; [by apply IH|]. by rewrite no_nul_cons, (IH true Hs).
  - by rewrite no_nul_cons, Hc, (IH false Hs).
Qed.

Lemma no_nul_replace_nul (s : string) : no_nul (replace_nul s) = true.
Proof.
  induction s as [|c s IH]; [done|].
  cbn [replace_nul]. rewrite no_nul_cons, IH, andb_true_r.
  destruct (N.eqb_spec (N_of_ascii c) 0) as [|Hne]; [done|].
  by apply negb_true_iff, N.eqb_neq.
Qed.

Lemma replace_nul_fixed (s : string) : no_nul s = true -> replace_nul s = s.
Proof.
  induction s as [|c s IH]; [done|]. intros H.
  rewrite no_nul_cons in H. apply andb_true_iff in H as [Hc Hs].
  simpl. apply negb_true_iff in Hc. by rewrite Hc, IH.
Qed.


Lemma first_char_lstrip_chars (set s : string) (c : ascii) :
  first_char (lstrip_chars set s) = Some c -> char_in c set = false.
Proof.
  induction s as [|d s IH]; [done|]. simpl.
  destruct (char_in d set) eqn:Hd; [done|]. by intros [= <-].
Qed.

Lemma last_char_cons (c : ascii) (s : string) :
  last_char (String c s) = match s with EmptyString => Some c | _ => last_char s end.
Proof. by destruct s. Qed.


Lemma last_char_rstrip_chars (set s : string) (c : ascii) :
  last_char (rstrip_chars set s) = Some c -> char_in c set = false.
Proof.
  induction s as [|d s IH]; [done|]. cbn [rstrip_chars].
  destruct (rstrip_chars set s) as [|e r] eqn:Hr.
  - destruct (char_in d set) eqn:Hd; [done|]. by intros [= <-].
  - rewrite last_char_cons. exact IH.
Qed.

(** Cutting at the end keeps the first character of what is left. *)
Lemma first_char_rstrip_chars (set s : string) (c : ascii) :
  first_char (rstrip_chars set s) = Some c -> first_char s = Some c.
Proof.
  destruct s as [|d s]; [done|]. cbn [rstrip_chars].
  destruct (rstrip_chars set s); [destruct (char_in d set)|]; done.
Qed.


(** A text whose ends are not white space is its own [strip]. *)
Lemma lstrip_fixed (s : string) :
  (forall c, first_char s = Some c -> isspace c = false) -> lstrip s = s.
Proof. destruct s as [|c s]; [done|]. intros H. simpl. by rewrite (H c). Qed.

Lemma rstrip_fixed (s : string) :
  (forall c, last_char s = Some c -> isspace c = false) -> rstrip s = s.
Proof.
  induction s as [|c s IH]; [done|]. intros H. rewrite last_char_cons in H.
  cbn [rstrip]. destruct s as [|d s].
  - simpl. by rewrite (H c).
  - rewrite IH by done. done.
Qed.

Lemma strip_fixed (s : string) :
  (forall c, first_char s = Some c -> isspace c = false) ->
  (forall c, last_char s = Some c -> isspace c = false) ->
  strip s = s.
Proof. intros Hf Hl. unfold strip. by rewrite (lstrip_fixed s Hf), rstrip_fixed. Qed.

Lemma lstrip_chars_fixed (set s : string) :
  (forall c, first_char s = Some c -> char_in c set = false) ->
  lstrip_chars set s = s.
Proof. destruct s as [|c s]; [done|]. intros H. simpl. by rewrite (H c). Qed.

Lemma rstrip_chars_fixed (set s : string) :
  (forall c, last_char s = Some c -> char_in c set = false) ->
  rstrip_chars set s = s.
Proof.
  induction s as [|c s IH]; [done|]. intros H. rewrite last_char_cons in H.
  cbn [rstrip_chars]. destruct s as [|d s].
  - simpl. by rewrite (H c).
  - rewrite IH by done. done.
Qed.

(** In a collapsed text, a white-space character is the space. *)
Lemma collapsed_first_space (s : string) (c : ascii) :
  collapsed s = true -> first_char s = Some c -> isspace c = true -> c = " "%char.
Proof.
  destruct s as [|d s]; [done|]. cbn [collapsed first_char].
  intros Hcol [= ->] Hc. rewrite Hc in Hcol.
  apply andb_true_iff in Hcol as [[Hsp _]%andb_true_iff _].
  apply N.eqb_eq in Hsp. by rewrite <- (ascii_N_embedding c), Hsp.
Qed.

Lemma collapsed_last_space (s : string) (c : ascii) :
  collapsed s = true -> last_char s = Some c -> isspace c = true -> c = " "%char.
Proof.
  induction s as [|d s IH]; [done|]. intros Hcol. rewrite last_char_cons.
  destruct s as [|e s].
  - intros [= ->]. by apply (collapsed_first_space (String c "")).
  - apply IH. by apply collapsed_tail in Hcol.
Qed.

Lemma one_line_cons (c : ascii) (s : string) :
  one_line (String c s) = negb (is_linebreak c) && one_line s.
Proof. reflexivity. Qed.

(** A collapsed text has no line break: every line break is white space
    other than the space. *)
Lemma collapsed_one_line (s : string) : collapsed s = true -> one_line s = true.
Proof.
  induction s as [|c s IH]; [done|]. intros Hcol.
  rewrite one_line_cons, (IH (collapsed_tail _ _ Hcol)), andb_true_r.
  cbn [collapsed] in Hcol. apply andb_true_iff in Hcol as [Hc _].
  destruct (isspace c) eqn:Hsp.
  - apply andb_true_iff in Hc as [Hc _]. apply N.eqb_eq in Hc.
    unfold is_linebreak. by rewrite Hc.
  - revert Hsp. unfold isspace, is_linebreak.
    destruct c as [[] [] [] [] [] [] [] []]; simpl; done.
Qed.

Lemma normalize_whitespace_is_compact (text : string) :
  compact (_normalize_whitespace text).
Proof.
  unfold compact, _normalize_whitespace. split; [|split].
  - apply no_nul_rstrip, no_nul_lstrip, no_nul_sub_ws_run, no_nul_replace_nul.
  - apply collapsed_strip, sub_ws_run_collapsed.
  - apply strip_idem.
Qed.

Lemma append_snoc (a : string) (c : ascii) (b : string) :
  (a +:+ String c "") +:+ b = a +:+ String c b.
Proof.
  induction a as [|d a IH]; [done|].
  change (String d ((a +:+ String c "") +:+ b) = String d (a +:+ String c b)).
  by rewrite IH.
Qed.

(** A text without a line break is its only line. *)
Lemma splitlines_from_one_line (after_cr : bool) (cur s : string) :
  one_line s = true ->
  splitlines_from after_cr cur s
  = if decide (cur +:+ s = "") then [] else [cur +:+ s].
Proof.
  revert after_cr cur. induction s as [|c s IH]; intros after_cr cur Hs.
  - simpl. assert (cur +:+ "" = cur) as ->; [|done].
    clear. induction cur as [|d cur IH]; [done|].
    change (String d (cur +:+ "") = String d cur). by rewrite IH.
  - rewrite one_line_cons in Hs. apply andb_true_iff in Hs as [Hc Hs].
    apply negb_true_iff in Hc. cbn [splitlines_from]. rewrite Hc.
    assert (HLF : (N_of_ascii c =? 10)%N = false).
    { revert Hc. unfold is_linebreak.
      destruct (N.eqb_spec (N_of_ascii c) 10) as [->|]; done. }
    rewrite HLF, andb_false_r, (IH false _ Hs), append_snoc. done.
Qed.

Lemma splitlines_one_line (s : string) :
  one_line s = true -> splitlines s = if decide (s = "") then [] else [s].
Proof. intros Hs. unfold splitlines. by rewrite splitlines_from_one_line. Qed.

(** The loop of [_infer_title] returns the first stripped line that passes
    the test. *)
Lemma infer_title_loop_spec (lines : list string) :
  (infer_title_loop lines = ""
   /\ Forall (fun line => title_like (strip line) = false) lines)
  \/ exists i line,
       lines !! i = Some line
       /\ infer_title_loop lines = strip line
       /\ title_like (strip line) = true
       /\ forall j other, j < i -> lines !! j = Some other ->
            title_like (strip other) = false.
Proof.
  induction lines as [|line lines IH]; [left; by split|].
  cbn [infer_title_loop]. destruct (title_like (strip line)) eqn:Hl.
  - right. exists 0, line. repeat split; [done|]. intros j other Hj. lia.
  - destruct IH as [[He Hall]|(i & l & Hi & Hr & Ht & Hfirst)].
    + left. split; [done|]. by constructor.
    + right. exists (S i), l. repeat split; [done..|].
      intros [|j] other Hj Ho; [by injection Ho as <-|].
      apply (Hfirst j); [lia|done].
Qed.

Lemma substring_length_le (n : nat) (s : string) :
  String.length (String.substring 0 n s) <= n.
Proof.
  revert s. induction n as [|n IH]; intros [|c s]; simpl; try lia.
  specialize (IH s). lia.
Qed.

Lemma substring_nonempty (n : nat) (s : string) :
  s <> "" -> String.substring 0 (S n) s <> "".
Proof. by destruct s. Qed.

(** The index that [_find_heading_index] returns is one of a line. *)
Lemma find_heading_from_bound (i : nat) (lines patterns : list string) (idx : nat) :
  find_heading_from i lines patterns = Some idx -> i <= idx < i + length lines.
Proof.
  revert i. induction lines as [|line lines IH]; intros i; [done|].
  cbn [find_heading_from].
  destruct (existsb _ patterns).
  - intros [= <-]. simpl. lia.
  - intros H. apply IH in H. simpl. lia.
Qed.

(** What the loop over the headings adds to [collected]. *)
Lemma sections_loop_inv (Q : string -> string -> Prop)
    (headings : list (string * list string)) (filtered lower_lines : list string)
    (collected : gmap string string) :
  (forall k v, collected !! k = Some v -> Q k v) ->
  (forall k v, k ∈ headings.*1 -> v <> "" -> Q k (String.substring 0 2200 v)) ->
  forall k v,
    sections_loop headings filtered lower_lines collected !! k = Some v -> Q k v.
Proof.
  revert collected. induction headings as [|[key patterns] headings IH];
    intros collected Hc Hnew; [done|].
  cbn [sections_loop].
  assert (Hrest : forall k v, k ∈ headings.*1 -> v <> "" ->
            Q k (String.substring 0 2200 v)).
  { intros k v Hk. apply Hnew. rewrite fmap_cons. by right. }
  destruct (_find_heading_index lower_lines patterns) as [idx|]; [|by apply IH].
  destruct (String.eqb_spec (_collect_until_next_heading filtered (idx + 1)) "")
    as [|Hne]; [by apply IH|].
  apply IH; [|done]. intros k v.
  destruct (decide (k = key)) as [->|Hk].
  - rewrite lookup_insert_eq. intros [= <-]. apply Hnew; [|done].
    rewrite fmap_cons. by left.
  - rewrite lookup_insert_ne by done. apply Hc.
Qed.

(** When no heading is followed by text, the loop adds nothing. *)
Lemma sections_loop_nothing (headings : list (string * list string))
    (filtered lower_lines : list string) (collected : gmap string string) :
  (forall patterns idx,
     _find_heading_index lower_lines patterns = Some idx ->
     _collect_until_next_heading filtered (idx + 1) = "") ->
  sections_loop headings filtered lower_lines collected = collected.
Proof.
  intros Hnone. induction headings as [|[key patterns] headings IH]; [done|].
  cbn [sections_loop].
  destruct (_find_heading_index lower_lines patterns) as [idx|] eqn:Hidx; [|done].
  by rewrite (Hnone _ _ Hidx).
Qed.

End MoreStringFacts.


(* ===================================================================== *)
(** * Facts about the key of a plain title *)
(* ===================================================================== *)

Module KeyFacts.
Import PyStr Text TextWords SentenceWords UploadWords NormalizeFacts MoreTextFacts
  MoreStringFacts.
























End KeyFacts.

Section ClaimsText.
Import PyStr Text TextWords UploadWords TextFacts NormalizeFacts KeyFacts Examples.



(** C3 as stated fails: "Deep Learning - A Survey" and
    "Deep Learning A Survey" are equal under the described normalisation
    (lower-case, stripped to alphanumerics and spaces, white space
    collapsed), yet the code collapses the white space before it deletes the
    hyphen, the keys differ by a space, and both papers are kept. *)
Lemma dedupe_keeps_titles_alike_in_words :
  described_key "Deep Learning - A Survey" = "deep learning a survey"
  /\ described_key "Deep Learning A Survey" = "deep learning a survey"
  /\ normalize_title "Deep Learning - A Survey" = "deep learning  a survey"
  /\ normalize_title "Deep Learning A Survey" = "deep learning a survey"
  /\ dedupe_by_title [ paper_titled "Deep Learning - A Survey";
                       paper_titled "Deep Learning A Survey" ] title
     = [ paper_titled "Deep Learning - A Survey";
         paper_titled "Deep Learning A Survey" ].
Proof. repeat split; reflexivity. Qed.




End ClaimsText.


(* ===================================================================== *)
(** * Facts about the year filter *)
(* ===================================================================== *)

Module PipelineFacts.
Import Pipeline PipelineWords.

Lemma filter_loop_spec (papers : list Paper) (start_year end_year : option Z)
    (filtered : list Paper) :
  filter_loop papers start_year end_year filtered
  = filtered ++ List.filter (in_bounds start_year end_year) papers.
Proof.
  revert filtered.
  induction papers as [|p papers IH]; intros filtered; simpl.
  - by rewrite app_nil_r.
  - unfold in_bounds at 1. destruct (year p) as [y|]; [|apply IH].
    destruct (match start_year with Some s => (y <? s)%Z | None => false end);
      simpl; [apply IH|].
    destruct (match end_year with Some e => (y >? e)%Z | None => false end);
      simpl; [apply IH|].
    rewrite IH. by rewrite <- app_assoc.
Qed.

Lemma in_bounds_both (s e : Z) (p : Paper) :
  in_bounds (Some s) (Some e) p = true
  <-> exists y, year p = Some y /\ (s <= y <= e)%Z.
Proof.
  unfold in_bounds. destruct (year p) as [y|].
  - rewrite andb_true_iff, !negb_true_iff, Z.ltb_ge, Z.gtb_ltb, Z.ltb_ge.
    split.
    + intros [? ?]. exists y. auto.
    + intros (y' & [= <-] & ? & ?). auto.
  - split; [discriminate|]. by intros (y & ? & _).
Qed.

End PipelineFacts.

Section ClaimsPipeline.
Import Pipeline PipelineWords PipelineFacts Examples.

(** C4. With both bounds given, every paper that survives [_filter_by_year]
    has a year, and the year lies in [[s, e]]; with no bound the list comes
    back unchanged; and a paper without a year survives exactly when no
    bound is given. *)
Theorem filter_by_year_bounds (papers : list Paper) :
  (forall s e p,
     p ∈ _filter_by_year papers (Some s) (Some e) ->
     exists y, year p = Some y /\ (s <= y <= e)%Z)
  /\ _filter_by_year papers None None = papers
  /\ (forall start_year end_year p,
        p ∈ papers -> year p = None ->
        (p ∈ _filter_by_year papers start_year end_year
         <-> start_year = None /\ end_year = None)).
Proof.
  split.
  { intros s e p. unfold _filter_by_year. rewrite filter_loop_spec. simpl.
    rewrite list_elem_of_In, filter_In. intros [_ H]. by apply in_bounds_both. }
  split; [done|].
  intros start_year end_year p Hin Hyear. split.
  - unfold _filter_by_year.
    destruct start_year, end_year; try done;
      rewrite filter_loop_spec; simpl;
      rewrite list_elem_of_In, filter_In; unfold in_bounds; rewrite Hyear;
      intros [_ ?]; discriminate.
  - by intros [-> ->].
Qed.

Lemma filter_by_year_bounds_witness :
  (exists y, year paper_2021 = Some y /\ (2020 <= y <= 2022)%Z)
  /\ (paper_undated ∈ _filter_by_year [paper_2015; paper_2021; paper_undated] None None
      <-> @None Z = None /\ @None Z = None).
Proof.
  pose proof (filter_by_year_bounds [paper_2015; paper_2021; paper_undated])
    as (Hin & _ & Hnone).
  split.
  - apply (Hin 2020%Z 2022%Z paper_2021). vm_compute. apply list_elem_of_here.
  - apply (Hnone None None paper_undated); [|reflexivity].
    do 2 apply list_elem_of_further. apply list_elem_of_here.
Defined.

End ClaimsPipeline.


(* ===================================================================== *)
(** * Facts about the stable sort *)
(* ===================================================================== *)

Module SortFacts.
Import PySort ExtractorWords.

Lemma max_score_cons (y : nat * string) (l : list (nat * string)) :
  max_score (y :: l) = Nat.max (fst y) (max_score l).
Proof. reflexivity. Qed.

Lemma pick_first_cons (m : nat) (y : nat * string) (l : list (nat * string)) :
  pick_first m (y :: l)
  = if (fst y =? m)%nat then Some (y, l)
    else match pick_first m l with
         | Some (x, r) => Some (x, y :: r)
         | None => None
         end.
Proof. reflexivity. Qed.

(** A sorted non-empty list starts with the first entry of largest score,
    and goes on with the sorted rest. *)
Lemma sort_desc_pick (l : list (nat * string)) :
  l <> [] ->
  exists x r, pick_first (max_score l) l = Some (x, r)
              /\ sort_desc Nat.leb fst l = x :: sort_desc Nat.leb fst r
              /\ fst x = max_score l.
Proof.
  induction l as [|y l IH]; [done|]. intros _.
  destruct l as [|z l].
  - exists y, []. simpl. unfold max_score. simpl.
    rewrite Nat.max_0_r, Nat.eqb_refl. auto.
  - destruct IH as (x & r & Hpick & Hsort & Hmax); [done|].
    rewrite max_score_cons.
    change (sort_desc Nat.leb fst (y :: z :: l))
      with (insert_desc Nat.leb fst y (sort_desc Nat.leb fst (z :: l))).
    rewrite Hsort. simpl insert_desc.
    destruct (Nat.leb (fst x) (fst y)) eqn:Hle.
    + apply Nat.leb_le in Hle.
      exists y, (z :: l). rewrite Nat.max_l by lia.
      rewrite pick_first_cons, Nat.eqb_refl, Hsort. auto.
    + apply Nat.leb_gt in Hle.
      exists x, (y :: r). rewrite Nat.max_r by lia.
      rewrite pick_first_cons.
      destruct (Nat.eqb_spec (fst y) (max_score (z :: l))) as [Heq|_]; [lia|].
      rewrite Hpick. auto.
Qed.

(** The first K entries of the sorted list are the top K of the words. *)
Lemma take_sort_desc_top (k : nat) (l : list (nat * string)) :
  take k (sort_desc Nat.leb fst l) = top_by_score k l.
Proof.
  revert l. induction k as [|k IH]; intros l; [done|].
  destruct l as [|y l]; [done|].
  destruct (sort_desc_pick (y :: l)) as (x & r & Hpick & Hsort & _); [done|].
  rewrite Hsort. simpl take. cbn [top_by_score]. rewrite Hpick. by rewrite IH.
Qed.

End SortFacts.


(* ===================================================================== *)
(** * Facts about the section extractor *)
(* ===================================================================== *)

Module ExtractorFacts.
Import PyStr PySort SectionExtractor ExtractorWords SortFacts.

(** The five entries of the keyword table. *)
Lemma section_keywords_cases (section : string) (keywords : list string) :
  SECTION_KEYWORDS !! section = Some keywords ->
  (section, keywords) ∈
    [ ("literature_review",
       [ "related work"; "previous work"; "prior work"; "existing methods";
         "state-of-the-art"; "literature"; "baseline"; "compared" ]);
      ("method_used",
       [ "we propose"; "our approach"; "method"; "framework"; "architecture";
         "algorithm"; "model"; "training"; "dataset"; "evaluation";
         "experiment" ]);
      ("contributions",
       [ "contribution"; "we introduce"; "we present"; "novel"; "new";
         "first"; "outperform"; "improve"; "significant" ]);
      ("limitations",
       [ "limitation"; "however"; "challenge"; "constraint"; "drawback";
         "cannot"; "fails"; "costly"; "expensive"; "still difficult" ]);
      ("future_work",
       [ "future work"; "in future"; "further work"; "next step";
         "can be extended"; "promising direction" ]) ].
Proof. apply elem_of_list_to_map_2. Qed.

Lemma section_keywords_NoDup (section : string) (keywords : list string) :
  SECTION_KEYWORDS !! section = Some keywords ->
  NoDup keywords /\ Forall (fun kw => lower kw = kw) keywords.
Proof.
  intros H%section_keywords_cases.
  repeat (apply elem_of_cons in H as [[= -> ->]|H]);
    [..|by apply elem_of_nil in H];
    (split; [apply (bool_decide_unpack _); vm_compute; exact I
            |repeat constructor]).
Qed.

Lemma sum_of_ones {A : Type} (l : list A) :
  sum_list ((fun _ => 1) <$> l) = length l.
Proof.
  induction l as [|x l IH]; [done|].
  rewrite fmap_cons. simpl. by rewrite IH.
Qed.

Lemma keyword_score_length (keywords : list string) (lw : string) :
  keyword_score keywords lw
  = length (List.filter (fun kw => contains kw lw) keywords).
Proof. apply sum_of_ones. Qed.

Lemma NoDup_list_filter {A : Type} (f : A -> bool) (l : list A) :
  NoDup l -> NoDup (List.filter f l).
Proof.
  induction 1 as [|x l Hx Hl IH]; simpl; [constructor|].
  destruct (f x); [|done].
  constructor; [|done].
  rewrite list_elem_of_In, filter_In, <- list_elem_of_In. tauto.
Qed.

(** With a duplicate-free keyword list, the sum of the loop is the number
    of distinct keywords found. *)
Lemma keyword_score_distinct (keywords : list string) (sent : string) :
  NoDup keywords ->
  keyword_score keywords (lower sent) = size (keywords_in keywords sent).
Proof.
  intros Hnd. rewrite keyword_score_length. unfold keywords_in.
  symmetry. apply size_list_to_set. by apply NoDup_list_filter.
Qed.

Lemma score_loop_spec (keywords sentences : list string)
    (scored : list (nat * string)) :
  NoDup keywords ->
  score_loop keywords sentences scored
  = scored ++ scored_sentences keywords sentences.
Proof.
  intros Hnd. revert scored.
  induction sentences as [|sent sentences IH]; intros scored.
  - unfold scored_sentences. simpl. by rewrite app_nil_r.
  - unfold scored_sentences in *. simpl.
    rewrite <- keyword_score_distinct by done.
    destruct (0 <? keyword_score keywords (lower sent))%nat; rewrite IH.
    + by rewrite <- app_assoc.
    + done.
Qed.

(** When some sentence scores, the result is the top K of the words. *)
Lemma extract_section_text_scored (sentences : list string) (section : string)
    (keywords : list string) (top_k : nat) :
  SECTION_KEYWORDS !! section = Some keywords ->
  scored_sentences keywords sentences <> [] ->
  _extract_section_text sentences section top_k
  = Some (join " " (snd <$> top_by_score top_k (scored_sentences keywords sentences))).
Proof.
  intros Hkw Hne. unfold _extract_section_text. rewrite Hkw. simpl.
  rewrite score_loop_spec by by apply (section_keywords_NoDup section).
  simpl. destruct (scored_sentences keywords sentences) as [|p l] eqn:Hs; [done|].
  by rewrite take_sort_desc_top.
Qed.

(** On a text with a sentence, every known section gets a value. *)
Lemma extract_section_text_total (sentences : list string) (section : string)
    (top_k : nat) :
  sentences <> [] -> is_Some (SECTION_KEYWORDS !! section) ->
  is_Some (_extract_section_text sentences section top_k).
Proof.
  intros Hne [keywords Hkw]. unfold _extract_section_text. rewrite Hkw. simpl.
  destruct (score_loop keywords sentences []); [|done].
  repeat case_decide; try done.
  - destruct sentences as [|s l] using rev_ind; [done|].
    rewrite last_snoc. done.
  - destruct sentences; done.
Qed.

End ExtractorFacts.


Module ExtractFacts.
Import PyStr PySort SectionExtractor ExtractorWords ExtractorFacts.

Lemma known_section (section : string) :
  section ∈ [ "literature_review"; "method_used"; "contributions";
              "limitations"; "future_work" ] ->
  is_Some (SECTION_KEYWORDS !! section).
Proof.
  intros H.
  repeat (apply elem_of_cons in H as [->|H]); [..|by apply elem_of_nil in H];
    vm_compute; eauto.
Qed.

(** What [extract] returns on a text without sentence. *)
Lemma extract_without_sentences (abstract : string) :
  _split_sentences abstract = [] ->
  extract abstract
  = Some (list_to_map ((fun k => (k, NOT_ENOUGH_INFORMATION)) <$> sections)).
Proof. intros H. unfold extract. by rewrite H. Qed.

(** What [extract] returns on a text with a sentence: the five sections all
    get a value, and the dict is built from them. *)
Lemma extract_with_sentences (abstract : string) :
  _split_sentences abstract <> [] ->
  let sentences := _split_sentences abstract in
  exists literature_review method_used contributions limitations future_work,
    _extract_section_text sentences "literature_review" 2 = Some literature_review
    /\ _extract_section_text sentences "method_used" 3 = Some method_used
    /\ _extract_section_text sentences "contributions" 2 = Some contributions
    /\ _extract_section_text sentences "limitations" 2 = Some limitations
    /\ _extract_section_text sentences "future_work" 2 = Some future_work
    /\ extract abstract
       = Some (list_to_map
           [ ("insights", _build_insights sentences method_used contributions);
             ("literature_review", literature_review);
             ("method_used", method_used);
             ("contributions", contributions);
             ("limitations", limitations);
             ("future_work",
              if contains "Not explicitly stated" future_work
              then _derive_future_work limitations else future_work);
             ("research_gap",
              _derive_research_gap literature_review limitations
                (if contains "Not explicitly stated" future_work
                 then _derive_future_work limitations else future_work)) ]).
Proof.
  intros Hne sentences.
  destruct (extract_section_text_total sentences "literature_review" 2)
    as [lr Hlr]; [done|by apply known_section; set_solver|].
  destruct (extract_section_text_total sentences "method_used" 3)
    as [mu Hmu]; [done|by apply known_section; set_solver|].
  destruct (extract_section_text_total sentences "contributions" 2)
    as [co Hco]; [done|by apply known_section; set_solver|].
  destruct (extract_section_text_total sentences "limitations" 2)
    as [li Hli]; [done|by apply known_section; set_solver|].
  destruct (extract_section_text_total sentences "future_work" 2)
    as [fw Hfw]; [done|by apply known_section; set_solver|].
  exists lr, mu, co, li, fw. repeat (split; [done|]).
  unfold extract. fold sentences.
  destruct sentences as [|s ss] eqn:Hs; [done|].
  rewrite Hlr, Hmu, Hco, Hli, Hfw. reflexivity.
Qed.

Lemma seven_keys :
  list_to_set (C := gset string) sections
  = {[ "insights"; "literature_review"; "method_used"; "contributions";
       "limitations"; "future_work"; "research_gap" ]}.
Proof. unfold sections. simpl. set_solver. Qed.

(** Whatever the text, [extract] returns a dict, and its keys are the seven
    of [self.sections]. *)
Lemma extract_dom (abstract : string) :
  exists d, extract abstract = Some d
            /\ dom d = list_to_set (C := gset string) sections.
Proof.
  destruct (_split_sentences abstract) as [|s ss] eqn:Hs.
  - eexists. split; [by apply extract_without_sentences|].
    rewrite dom_list_to_map_L. reflexivity.
  - destruct (extract_with_sentences abstract)
      as (lr & mu & co & li & fw & _ & _ & _ & _ & _ & ->); [by rewrite Hs|].
    eexists. split; [done|].
    rewrite dom_list_to_map_L. reflexivity.
Qed.

End ExtractFacts.


Section ClaimsExtractor.
Import PyStr PySort Py SectionExtractor ExtractorWords ExtractorFacts ExtractFacts.

(** C5. For each of the five keyword lists, the keywords are distinct and
    in lower case, and the score the loop gives a sentence is the number of
    distinct keywords found in the lower-cased sentence.  When at least one
    sentence scores, [_extract_section_text] joins with a single space the
    top K scored sentences, a higher score first and the earlier sentence
    first among equal scores; sentences with score 0 take no part.
    [extract] asks for K = 2 for literature_review, contributions,
    limitations and future_work and K = 3 for method_used (future_work is
    then replaced when it holds the "Not explicitly stated" text).  On the
    three-sentence example, method_used is the first sentence,
    literature_review the second and limitations the third. *)
Theorem extract_section_text_top_k :
  (forall section keywords,
     SECTION_KEYWORDS !! section = Some keywords ->
     NoDup keywords
     /\ Forall (fun kw => lower kw = kw) keywords
     /\ forall sent,
          keyword_score keywords (lower sent) = size (keywords_in keywords sent))
  /\ (forall sentences section keywords top_k,
        SECTION_KEYWORDS !! section = Some keywords ->
        scored_sentences keywords sentences <> [] ->
        _extract_section_text sentences section top_k
        = Some (join " "
                  (snd <$> top_by_score top_k (scored_sentences keywords sentences))))
  /\ (forall abstract d,
        _split_sentences abstract <> [] ->
        extract abstract = Some d ->
        let sentences := _split_sentences abstract in
        d !! "literature_review" = _extract_section_text sentences "literature_review" 2
        /\ d !! "method_used" = _extract_section_text sentences "method_used" 3
        /\ d !! "contributions" = _extract_section_text sentences "contributions" 2
        /\ d !! "limitations" = _extract_section_text sentences "limitations" 2
        /\ exists future_work limitations,
             _extract_section_text sentences "future_work" 2 = Some future_work
             /\ d !! "limitations" = Some limitations
             /\ d !! "future_work"
                = Some (if contains "Not explicitly stated" future_work
                        then _derive_future_work limitations else future_work))
  /\ (exists d,
        extract "We propose a new method. Prior work used heuristic rules. However, the approach is costly and limited."
        = Some d
        /\ d !! "method_used" = Some "We propose a new method."
        /\ d !! "literature_review" = Some "Prior work used heuristic rules."
        /\ d !! "limitations" = Some "However, the approach is costly and limited.").
Proof.
  split.
  { intros section keywords Hkw.
    destruct (section_keywords_NoDup section keywords Hkw) as [Hnd Hlow].
    repeat split; [done..|]. intros sent. by apply keyword_score_distinct. }
  split; [apply extract_section_text_scored|].
  split.
  { intros abstract d Hne Hd sentences.
    destruct (extract_with_sentences abstract Hne)
      as (lr & mu & co & li & fw & Hlr & Hmu & Hco & Hli & Hfw & Hex).
    fold sentences in Hlr, Hmu, Hco, Hli, Hfw, Hex.
    rewrite Hex in Hd. injection Hd as <-.
    rewrite Hlr, Hmu, Hco, Hli.
    repeat (split; [reflexivity|]).
    exists fw, li. repeat split; [done|reflexivity..]. }
  eexists. split; [vm_compute; reflexivity|]. repeat split.
Qed.

Lemma extract_section_text_top_k_witness :
  _extract_section_text
    [ "We propose a new method."; "It is a framework and a model."; "Nothing here." ]
    "method_used" 3
  = Some "We propose a new method. It is a framework and a model.".
Proof.
  destruct extract_section_text_top_k as (_ & Htop & _).
  rewrite (Htop _ "method_used"
             [ "we propose"; "our approach"; "method"; "framework"; "architecture";
               "algorithm"; "model"; "training"; "dataset"; "evaluation";
               "experiment" ] 3).
  - vm_compute. reflexivity.
  - reflexivity.
  - vm_compute. discriminate.
Defined.

(** C6. The empty string has no sentence, and on every text without a
    sentence [extract] returns at once the dict that gives each of its keys
    the text "Not enough information in abstract."; no other value occurs
    in it. *)
Theorem extract_without_sentences_marker :
  _split_sentences "" = []
  /\ forall abstract,
       _split_sentences abstract = [] ->
       exists d,
         extract abstract = Some d
         /\ d = list_to_map ((fun k => (k, NOT_ENOUGH_INFORMATION)) <$> sections)
         /\ (forall k, k ∈ sections -> d !! k = Some NOT_ENOUGH_INFORMATION)
         /\ (forall k v, d !! k = Some v -> v = NOT_ENOUGH_INFORMATION).
Proof.
  split; [reflexivity|].
  intros abstract Hs. eexists. split; [by apply extract_without_sentences|].
  split; [reflexivity|]. split.
  - intros k Hk.
    apply elem_of_list_to_map_1.
    + rewrite <- list_fmap_compose. apply (bool_decide_unpack _). vm_compute. exact I.
    + apply list_elem_of_fmap. eauto.
  - intros k v Hkv. apply elem_of_list_to_map_2 in Hkv.
    apply list_elem_of_fmap in Hkv as (k' & [= _ ->] & _). done.
Qed.

Lemma extract_without_sentences_marker_witness :
  exists d, extract "   " = Some d
            /\ d !! "insights" = Some NOT_ENOUGH_INFORMATION
            /\ d !! "research_gap" = Some NOT_ENOUGH_INFORMATION.
Proof.
  destruct extract_without_sentences_marker as [_ H].
  destruct (H "   ") as (d & Hd & _ & Hall & _); [reflexivity|].
  exists d. split; [exact Hd|].
  split; apply Hall; apply (bool_decide_unpack _); vm_compute; exact I.
Defined.

(** C9. For every text, [extract] returns a dict whose keys are exactly
    insights, literature_review, method_used, contributions, limitations,
    future_work and research_gap; "citations" is not among them.  The values
    are strings.  The pipeline fills the citations field of a
    [PaperAnalysis] itself, from the citation count of the paper. *)
Theorem extract_seven_keys (text : string) :
  (exists d : gmap string string,
     extract text = Some d
     /\ dom d = {[ "insights"; "literature_review"; "method_used";
                   "contributions"; "limitations"; "future_work";
                   "research_gap" ]}
     /\ "citations" ∉ dom d)
  /\ (forall p : Paper,
        exists a, Pipeline.analyze_paper p = Ok a
                  /\ paper a = p
                  /\ pa_citations a
                     = match citations p with
                       | Some n => "Cited by approximately "
                                   +:+ Pipeline.str_of_int n
                                   +:+ " papers (source metadata)."
                       | None => "Citation count unavailable in source metadata."
                       end).
Proof.
  split.
  - destruct (extract_dom text) as (d & Hd & Hdom).
    exists d. rewrite Hdom, seven_keys. split; [done|]. split; [done|].
    apply (bool_decide_unpack _). vm_compute. exact I.
  - intros p. unfold Pipeline.analyze_paper.
    destruct (extract_dom (abstract p)) as (d & -> & Hdom).
    assert (Hkey : forall k, k ∈ sections -> exists v, d !! k = Some v).
    { intros k Hk. apply (elem_of_dom (D := gset string)).
      rewrite Hdom. by apply elem_of_list_to_set. }
    simpl.
    destruct (Hkey "insights") as [v1 H1]; [set_solver|].
    destruct (Hkey "literature_review") as [v2 H2]; [set_solver|].
    destruct (Hkey "method_used") as [v3 H3]; [set_solver|].
    destruct (Hkey "contributions") as [v4 H4]; [set_solver|].
    destruct (Hkey "limitations") as [v5 H5]; [set_solver|].
    destruct (Hkey "future_work") as [v6 H6]; [set_solver|].
    destruct (Hkey "research_gap") as [v7 H7]; [set_solver|].
    unfold Pipeline.getitem. rewrite H1, H2, H3, H4, H5, H6, H7. simpl.
    eexists. repeat split.
Qed.

End ClaimsExtractor.


(* ===================================================================== *)
(** * Facts about the retrying helper and the lookups *)
(* ===================================================================== *)

Module RetryFacts.
Import PyStr Py Net UploadAnalyzer NetWords.

Lemma retry_event_get (req : request) : retry_event req (EvGet req).
Proof. by left. Qed.

Lemma retry_event_sleep (req : request) (seconds : Q) :
  retry_event req (EvSleep seconds).
Proof. right. eauto. Qed.

(** Closes a goal [Forall (retry_event req) [ev; ...]] on explicit events. *)
Ltac retry_events :=
  repeat (apply Forall_cons_2 || apply Forall_nil_2);
  auto using retry_event_get, retry_event_sleep.

Section WithWorld.
Variable w : world.

Lemma backoff_cases (attempts attempt : nat) (tr : trace) :
  (exists seconds,
     backoff_or_give_up attempts attempt tr
     = (Ok Continue, tr ++ [EvSleep seconds]))
  \/ backoff_or_give_up attempts attempt tr = (Ok (Return JNull), tr).
Proof.
  unfold backoff_or_give_up.
  destruct (Z.of_nat attempt <? Z.of_nat attempts - 1)%Z; [left|right; done].
  eexists. reflexivity.
Qed.

(** A turn whose request raises inside the [requests] hierarchy ends in
    the back-off. *)
Lemma failing_turn (url : string) (params : list (string * param))
    (attempts : nat) (timeout : Z) (attempt : nat) (tr : trace) (e : exn) :
  http w tr (mkRequest url params timeout USER_AGENT) = Raise e ->
  is_request_exception e = true ->
  try_except (attempt_body w url params attempts timeout attempt)
    (fun e => is_timeout e || is_request_exception e)
    (attempt_handler attempts attempt) tr
  = backoff_or_give_up attempts attempt
      (tr ++ [EvGet (mkRequest url params timeout USER_AGENT)]).
Proof.
  intros Hhttp Hreq.
  unfold try_except, attempt_body, mbind, io_bind, requests_get.
  rewrite Hhttp, Hreq, orb_true_r.
  unfold attempt_handler. by destruct (is_timeout e).
Qed.

(** Every turn extends the trace by its GET and at most one sleep. *)
Lemma turn_trace (url : string) (params : list (string * param))
    (attempts : nat) (timeout : Z) (attempt : nat) (tr tr' : trace)
    (res : result step) :
  try_except (attempt_body w url params attempts timeout attempt)
    (fun e => is_timeout e || is_request_exception e)
    (attempt_handler attempts attempt) tr = (res, tr') ->
  exists new, tr' = tr ++ new
              /\ Forall (retry_event (mkRequest url params timeout USER_AGENT)) new.
Proof.
  set (req := mkRequest url params timeout USER_AGENT).
  assert (Hback : forall res' tr0 tr1,
            backoff_or_give_up attempts attempt (tr ++ [EvGet req]) = (res', tr1) ->
            tr0 = tr1 ->
            exists new, tr0 = tr ++ new /\ Forall (retry_event req) new).
  { intros res' tr0 tr1 Hb <-.
    destruct (backoff_cases attempts attempt (tr ++ [EvGet req]))
      as [[s Hs]|Hs]; rewrite Hs in Hb; injection Hb as <- <-.
    - exists [EvGet req; EvSleep s]. rewrite <- app_assoc. split; [done|].
      retry_events.
    - exists [EvGet req]. split; [done|]. retry_events. }
  unfold try_except, attempt_body, mbind, io_bind, requests_get. fold req.
  destruct (http w tr req) as [response|e].
  - destruct (bool_decide (status_code response ∈ RETRY_STATUSES)).
    + destruct (backoff_or_give_up attempts attempt (tr ++ [EvGet req]))
        as [[s|e] tr1] eqn:Hb.
      * intros [= <- <-]. by eapply Hback.
      * destruct (is_timeout e || is_request_exception e).
        -- unfold attempt_handler.
           destruct (backoff_cases attempts attempt (tr ++ [EvGet req]))
             as [[s Hs]|Hs]; rewrite Hs in Hb; discriminate.
        -- intros [= <- <-]. by eapply Hback.
    + unfold lift. destruct (raise_for_status response) as [[]|e].
      * destruct (json_body response) as [v|e].
        -- intros [= <- <-]. exists [EvGet req]. split; [done|]. retry_events.
        -- destruct (is_timeout e || is_request_exception e).
           ++ unfold attempt_handler.
              destruct (is_timeout e); intros H; by eapply Hback.
           ++ intros [= <- <-]. exists [EvGet req]. split; [done|]. retry_events.
      * destruct (is_timeout e || is_request_exception e).
        -- unfold attempt_handler.
           destruct (is_timeout e); intros H; by eapply Hback.
        -- intros [= <- <-]. exists [EvGet req]. split; [done|]. retry_events.
  - destruct (is_timeout e || is_request_exception e).
    + unfold attempt_handler.
      destruct (is_timeout e); intros H; by eapply Hback.
    + intros [= <- <-]. exists [EvGet req]. split; [done|]. retry_events.
Qed.

Lemma retry_loop_trace (url : string) (params : list (string * param))
    (attempts : nat) (timeout : Z) (todo : list nat) (tr tr' : trace)
    (res : result json) :
  retry_loop w url params attempts timeout todo tr = (res, tr') ->
  exists new, tr' = tr ++ new
              /\ Forall (retry_event (mkRequest url params timeout USER_AGENT)) new.
Proof.
  revert tr. induction todo as [|attempt todo IH]; intros tr.
  - intros [= <- <-]. exists []. by rewrite app_nil_r.
  - cbn [retry_loop]. unfold mbind at 1, io_bind at 1.
    destruct (try_except _ _ _ tr) as [[s|e] tr1] eqn:Hturn;
      apply turn_trace in Hturn as (new1 & -> & Hnew1).
    + destruct s as [v|].
      * intros [= <- <-]. eauto.
      * intros (new2 & -> & Hnew2)%IH.
        exists (new1 ++ new2). rewrite app_assoc. split; [done|].
        by apply Forall_app.
    + intros [= <- <-]. eauto.
Qed.

End WithWorld.

End RetryFacts.


Module LookupFacts.
Import PyStr Py Net UploadAnalyzer NetWords RetryFacts.

Section WithWorld.
Variable w : world.

(** With a transport that never answers, the loop uses up its range: one
    GET per turn, and no value at the end. *)
Lemma retry_loop_always_failing (url : string) (params : list (string * param))
    (attempts : nat) (timeout : Z) (todo : list nat) (tr : trace) :
  always_failing w ->
  exists tr',
    retry_loop w url params attempts timeout todo tr = (Ok JNull, tr')
    /\ exists new, tr' = tr ++ new
       /\ length (gets new) <= length todo
       /\ (Forall (fun attempt => attempt < attempts - 1) (removelast todo) ->
           gets new = replicate (length todo)
                        (mkRequest url params timeout USER_AGENT)).
Proof.
  intros Hfail. revert tr.
  induction todo as [|attempt todo IH]; intros tr.
  - exists tr. split; [done|]. exists []. by rewrite app_nil_r.
  - cbn [retry_loop]. unfold mbind at 1, io_bind at 1.
    destruct (Hfail tr (mkRequest url params timeout USER_AGENT))
      as (e & Hhttp & He).
    rewrite (failing_turn w _ _ _ _ _ _ e Hhttp He).
    unfold backoff_or_give_up.
    destruct (Z.ltb_spec (Z.of_nat attempt) (Z.of_nat attempts - 1)) as [Hlt|Hge].
    + unfold sleep, mbind, io_bind, mret, io_ret.
      destruct (IH ((tr ++ [EvGet (mkRequest url params timeout USER_AGENT)])
                      ++ [EvSleep ((6 # 10) * inject_Z (Z.of_nat attempt + 1))]))
        as (tr' & Hloop & new & -> & Hlen & Hall).
      eexists. split; [exact Hloop|].
      eexists. split; [by rewrite <- !app_assoc|].
      split; [simpl; lia|].
      intros Hrange. simpl. f_equal. apply Hall.
      destruct todo as [|a todo']; [constructor|].
      by apply Forall_cons_1 in Hrange as [_ ?].
    + unfold mret, io_ret. eexists. split; [done|].
      exists [EvGet (mkRequest url params timeout USER_AGENT)].
      split; [done|]. split; [simpl; lia|].
      intros Hrange. destruct todo as [|a todo']; [done|].
      apply Forall_cons_1 in Hrange as [? _]. lia.
Qed.

(** The DOI lookup talks to the paper endpoint only. *)
Lemma lookup_by_doi_trace (doi : string) (tr tr' : trace)
    (res : result (option enrichment)) :
  _lookup_semantic_scholar_by_doi w doi tr = (res, tr') ->
  exists new, tr' = tr ++ new
              /\ Forall (fun r => exists d, req_url r = DOI_URL_PREFIX +:+ d)
                   (gets new).
Proof.
  unfold _lookup_semantic_scholar_by_doi, try_except.
  set (d := rstrip_chars ").,;" (lower (strip doi))).
  destruct (decide (d = "")) as [Hd|Hd].
  { intros [= <- <-]. exists []. by rewrite app_nil_r. }
  unfold mbind, io_bind, _request_json_with_retries.
  set (params := [("fields", PStr _)]).
  destruct (retry_loop w (DOI_URL_PREFIX +:+ d) params 3 14 (seq 0 3) tr)
    as [r tr1] eqn:Hloop.
  apply retry_loop_trace in Hloop as (new & -> & Hnew).
  assert (Hgets : Forall (fun r => exists d, req_url r = DOI_URL_PREFIX +:+ d)
                    (gets new)).
  { clear -Hnew. induction Hnew as [|ev new Hev _ IH]; [constructor|].
    destruct Hev as [->|[s ->]]; simpl; [|done].
    constructor; [|done]. simpl. eauto. }
  assert (Hdone : forall res0 : result (option enrichment),
            (res0, tr ++ new) = (res, tr') ->
            exists new0, tr' = tr ++ new0
              /\ Forall (fun r => exists d, req_url r = DOI_URL_PREFIX +:+ d)
                   (gets new0)).
  { intros res0 [= <- <-]. eauto. }
  destruct r as [item|e]; [|apply Hdone].
  destruct (truthy item); simpl; [|apply Hdone].
  unfold lift. destruct (enrichment_of_item item); apply Hdone.
Qed.

End WithWorld.

(** A request to the paper endpoint is not a title search. *)
Lemma doi_url_not_search (d : string) : DOI_URL_PREFIX +:+ d <> SEARCH_URL.
Proof. unfold DOI_URL_PREFIX, SEARCH_URL. simpl. discriminate. Qed.

End LookupFacts.

Section ClaimsNet.
Import PyStr Py Net UploadAnalyzer NetWords RetryFacts LookupFacts Examples.

(** C2. When every request times out or fails at transport level, a call
  of [_request_json_with_retries] with three attempts sends the request
  three times, sleeping 0.6 s and 1.2 s in between, and then returns
  [None]; it raises nothing. *)
Theorem request_json_with_retries_exhausted (w : world) (url : string)
  (params : list (string * param)) (timeout : Z) (tr : trace) :
always_failing w ->
let req := mkRequest url params timeout USER_AGENT in
let tr' :=
  tr ++ [EvGet req; EvSleep (6 # 10); EvGet req; EvSleep (12 # 10); EvGet req] in
_request_json_with_retries w url params 3 timeout tr = (Ok JNull, tr')
/\ gets tr' = gets tr ++ [req; req; req].
Proof.
intros Hfail req tr'. split; [|by unfold tr', gets; rewrite omap_app].
revert Hfail req tr'.
intros Hfail req.
unfold _request_json_with_retries. simpl seq. cbn [retry_loop].
assert (Hturn : forall attempt t,
          try_except (attempt_body w url params 3 timeout attempt)
            (fun e => is_timeout e || is_request_exception e)
            (attempt_handler 3 attempt) t
          = backoff_or_give_up 3 attempt (t ++ [EvGet req])).
{ intros attempt t. destruct (Hfail t req) as (e & Hhttp & He).
  by apply (failing_turn w _ _ _ _ _ _ e). }
unfold mbind, io_bind. rewrite !Hturn.
unfold backoff_or_give_up, sleep, mbind, io_bind, mret, io_ret. simpl.
rewrite !Hturn. simpl. rewrite !Hturn. simpl.
rewrite <- !app_assoc. reflexivity.
Qed.

Lemma request_json_with_retries_exhausted_witness :
_request_json_with_retries world_timing_out "https://example.org/x" [] 3 12 []
= (Ok JNull,
   [ EvGet (mkRequest "https://example.org/x" [] 12 USER_AGENT);
     EvSleep (6 # 10);
     EvGet (mkRequest "https://example.org/x" [] 12 USER_AGENT);
     EvSleep (12 # 10);
     EvGet (mkRequest "https://example.org/x" [] 12 USER_AGENT) ]).
Proof.
apply (request_json_with_retries_exhausted world_timing_out
         "https://example.org/x" [] 12 []).
intros tr r. exists RequestsTimeout. split; reflexivity.
Defined.

(** C7. When the DOI is not empty and the lookup by DOI returns a record,
  [_lookup_semantic_scholar] returns this record in the same state: all
  requests sent go to the paper endpoint of the DOI, none to the title
  search. *)
Theorem lookup_doi_success_skips_title_search (w : world) (doi : string)
  (title : option string) (tr tr' : trace) (e : enrichment) :
doi <> "" ->
_lookup_semantic_scholar_by_doi w doi tr = (Ok (Some e), tr') ->
_lookup_semantic_scholar w (Some doi) title tr = (Ok (Some e), tr')
/\ exists new, tr' = tr ++ new
     /\ Forall (fun r => ~ is_title_search r) (gets new).
Proof.
intros Hdoi Hlookup. split.
- unfold _lookup_semantic_scholar.
  destruct doi as [|c d]; [done|].
  unfold mbind, io_bind. by rewrite Hlookup.
- destruct (lookup_by_doi_trace w doi tr tr' _ Hlookup) as (new & -> & Hnew).
  exists new. split; [done|].
  eapply Forall_impl; [exact Hnew|].
  intros r [d Hr]. unfold is_title_search. rewrite Hr.
  apply doi_url_not_search.
Qed.

Lemma lookup_doi_success_skips_title_search_witness :
exists e tr',
  _lookup_semantic_scholar world_with_record (Some "10.1000/XYZ123.")
    (Some "Attention") []
  = (Ok (Some e), tr')
  /\ en_title e = JStr "Attention Is All You Need"
  /\ gets tr'
     = [ mkRequest (DOI_URL_PREFIX +:+ "10.1000/xyz123")
           [("fields", PStr "title,year,authors,venue,url,openAccessPdf,citationCount")]
           14 USER_AGENT ].
Proof.
pose proof (lookup_doi_success_skips_title_search world_with_record
              "10.1000/XYZ123." (Some "Attention") []) as H.
eexists. eexists. split; [|split].
- apply H; [discriminate|]. vm_compute. reflexivity.
- reflexivity.
- reflexivity.
Defined.

End ClaimsNet.


Section ClaimsSearch.
Import PyStr Py Net PaperSearch Examples.

(** C8. When the combined search raises an exception of the [requests]
    hierarchy, [safe_search] goes on as [_search_arxiv] alone with the full
    [max_results]: when arXiv answers, its papers are returned and nothing
    is raised, with one arXiv query and no further GET; [safe_search]
    raises only when this arXiv query raises. *)
Theorem safe_search_falls_back_to_arxiv (w : world) (query : string)
    (max_results : Z) (tr tr1 : trace) (e : exn) :
  search w query max_results tr = (Raise e, tr1) ->
  is_request_exception e = true ->
  let page_size := Z.min max_results 100 in
  safe_search w query max_results tr = _search_arxiv w query max_results tr1
  /\ (forall results,
        arxiv w tr1 query max_results page_size = Ok results ->
        safe_search w query max_results tr
        = (Ok (paper_of_arxiv <$> results),
           tr1 ++ [EvArxiv query max_results page_size]))
  /\ (forall e' tr2,
        safe_search w query max_results tr = (Raise e', tr2) ->
        arxiv w tr1 query max_results page_size = Raise e').
Proof.
  intros Hsearch He page_size.
  assert (Hsafe : safe_search w query max_results tr
                  = _search_arxiv w query max_results tr1).
  { unfold safe_search, try_except. by rewrite Hsearch, He. }
  split; [exact Hsafe|]. rewrite Hsafe.
  unfold _search_arxiv, mbind, io_bind, arxiv_client_results. fold page_size.
  split.
  - intros results ->. reflexivity.
  - intros e' tr2.
    destruct (arxiv w tr1 query max_results page_size); [discriminate|].
    by intros [= -> _].
Qed.

Lemma safe_search_falls_back_to_arxiv_witness :
  safe_search world_arxiv_only "graphs" 10 []
  = (Ok [ mkPaper "Graph Networks" "We study graphs." ["A. Author"] (Some 2020%Z)
            "arXiv" "http://arxiv.org/abs/1" "http://arxiv.org/abs/1" "arXiv" None ],
     [ EvArxiv "graphs" 6 6;
       EvGet (mkRequest PaperSearch.SEARCH_URL
                [ ("query", PStr "graphs"); ("limit", PInt 10);
                  ("fields", PStr "title,abstract,year,authors,venue,url,openAccessPdf,citationCount") ]
                20 []);
       EvArxiv "graphs" 10 10 ]).
Proof.
  pose proof (safe_search_falls_back_to_arxiv world_arxiv_only "graphs" 10 []
                [ EvArxiv "graphs" 6 6;
                  EvGet (mkRequest PaperSearch.SEARCH_URL
                           [ ("query", PStr "graphs"); ("limit", PInt 10);
                             ("fields", PStr "title,abstract,year,authors,venue,url,openAccessPdf,citationCount") ]
                           20 []) ]
                RequestsConnectionError) as H.
  destruct H as (_ & Hok & _); [reflexivity|reflexivity|].
  apply (Hok [ mkArxivResult " Graph Networks " (Some "We study graphs.")
                 ["A. Author"] (Some 2020%Z) "http://arxiv.org/abs/1" None ]).
  reflexivity.
Defined.

End ClaimsSearch.


(* ===================================================================== *)
(** * Facts about the similarity graph *)
(* ===================================================================== *)

Module GraphFacts.
Import CorpusAnalyzer.



Section Build.
Variable sim : nat -> nat -> Q.





End Build.




End GraphFacts.


Section ClaimsGraph.
Import CorpusAnalyzer GraphFacts Examples.




End ClaimsGraph.

Section ExtraText.
Import PyStr Text TextWords TextFacts NormalizeFacts MoreTextFacts.

(** X1. De-duplicating twice is de-duplicating once; the result is never
    longer than the input; and a list whose normalised titles are pairwise
    distinct comes back unchanged. *)
Theorem dedupe_by_title_idempotent {A : Type} (title_getter : A -> string)
    (items : list A) :
  dedupe_by_title (dedupe_by_title items title_getter) title_getter
  = dedupe_by_title items title_getter
  /\ length (dedupe_by_title items title_getter) <= length items
  /\ (NoDup ((fun x => normalize_title (title_getter x)) <$> items) ->
      dedupe_by_title items title_getter = items).
Proof.
  unfold dedupe_by_title. split; [|split].
  - apply dedupe_loop_distinct; [apply dedupe_loop_NoDup|].
    intros x _. apply not_elem_of_empty.
  - apply sublist_length, dedupe_loop_sublist.
  - intros Hnd. apply dedupe_loop_distinct; [exact Hnd|].
    intros x _. apply not_elem_of_empty.
Qed.

Lemma dedupe_by_title_idempotent_witness :
  dedupe_by_title ["Graphs"; "Trees"; "Sets"] id = ["Graphs"; "Trees"; "Sets"].
Proof.
  apply (dedupe_by_title_idempotent id ["Graphs"; "Trees"; "Sets"]).
  apply (bool_decide_unpack _). vm_compute. exact I.
Defined.

(** X2. A normalised title consists of the characters a-z, 0-9 and space
    only, and it does not depend on the case of the title nor on the
    whitespace around it. *)
Theorem normalize_title_alphabet (t : string) :
  Forall (fun c => is_az09_space c = true) (chars (normalize_title t))
  /\ normalize_title (lower t) = normalize_title t
  /\ normalize_title (strip t) = normalize_title t.
Proof.
  unfold normalize_title. split; [apply sub_delete_other_alphabet|]. split.
  - by rewrite lower_idem.
  - by rewrite <- strip_lower, strip_idem.
Qed.

End ExtraText.

(* ===================================================================== *)
(** * Further facts: the query pipeline *)
(* ===================================================================== *)

Module MorePipelineFacts.
Import Py Net Pipeline PipelineWords PipelineFacts.

Lemma in_bounds_spec (start_year end_year : option Z) (p : Paper) :
  in_bounds start_year end_year p = true
  <-> exists y, year p = Some y
                /\ (forall s, start_year = Some s -> (s <= y)%Z)
                /\ (forall e, end_year = Some e -> (y <= e)%Z).
Proof.
  unfold in_bounds. destruct (year p) as [y|].
  - rewrite andb_true_iff, !negb_true_iff. split.
    + intros [Hs He]. exists y. split; [done|]. split.
      * intros s ->. by apply Z.ltb_ge.
      * intros e ->. rewrite Z.gtb_ltb in He. by apply Z.ltb_ge.
    + intros (y' & [= <-] & Hs & He). split.
      * destruct start_year as [s|]; [|done]. apply Z.ltb_ge. by apply Hs.
      * destruct end_year as [e|]; [|done].
        rewrite Z.gtb_ltb. apply Z.ltb_ge. by apply He.
  - split; [discriminate|]. by intros (y & ? & _).
Qed.

(** With a bound given, the loop is the filter by [in_bounds]. *)
Lemma filter_by_year_filter (papers : list Paper) (start_year end_year : option Z) :
  start_year <> None \/ end_year <> None ->
  _filter_by_year papers start_year end_year
  = List.filter (in_bounds start_year end_year) papers.
Proof.
  intros Hb. unfold _filter_by_year.
  destruct start_year, end_year; try apply filter_loop_spec.
  destruct Hb; done.
Qed.

Lemma list_filter_sublist {A : Type} (f : A -> bool) (l : list A) :
  sublist (List.filter f l) l.
Proof.
  induction l as [|x l IH]; simpl; [constructor|].
  destruct (f x); [by apply sublist_skip|by apply sublist_cons].
Qed.

Lemma list_filter_idem {A : Type} (f : A -> bool) (l : list A) :
  List.filter f (List.filter f l) = List.filter f l.
Proof.
  induction l as [|x l IH]; simpl; [done|].
  destruct (f x) eqn:Hx; simpl; [|done]. by rewrite Hx, IH.
Qed.

(** What the filter keeps. *)
Lemma filter_by_year_kept (papers : list Paper) (start_year end_year : option Z) :
  sublist (_filter_by_year papers start_year end_year) papers
  /\ (forall p,
        p ∈ _filter_by_year papers start_year end_year
        <-> p ∈ papers
            /\ (start_year = None /\ end_year = None
                \/ exists y, year p = Some y
                     /\ (forall s, start_year = Some s -> (s <= y)%Z)
                     /\ (forall e, end_year = Some e -> (y <= e)%Z))).
Proof.
  destruct (decide (start_year = None /\ end_year = None)) as [[-> ->]|Hb].
  - simpl. split; [done|]. intros p. split; [auto|tauto].
  - assert (Hsome : start_year <> None \/ end_year <> None).
    { destruct start_year, end_year; auto; tauto. }
    rewrite !filter_by_year_filter by done.
    split; [apply list_filter_sublist|].
    intros p. rewrite list_elem_of_In, filter_In, <- list_elem_of_In, in_bounds_spec.
    split; [intros [? ?]; auto|]. intros [? [?|?]]; [tauto|auto].
Qed.



End MorePipelineFacts.

Section ExtraPipeline.
Import PyStr Text Py Net Pipeline PipelineWords PipelineFacts MorePipelineFacts
  TextFacts Examples MoreExamples SearchWords.

(** X3. [_filter_by_year] only drops papers and keeps the order; a paper is
    in the result exactly when it is in the input and either no bound is
    given or it has a year that respects every bound given; filtering twice
    is filtering once. *)
Theorem filter_by_year_members (papers : list Paper) (start_year end_year : option Z) :
  sublist (_filter_by_year papers start_year end_year) papers
  /\ (forall p,
        p ∈ _filter_by_year papers start_year end_year
        <-> p ∈ papers
            /\ (start_year = None /\ end_year = None
                \/ exists y, year p = Some y
                     /\ (forall s, start_year = Some s -> (s <= y)%Z)
                     /\ (forall e, end_year = Some e -> (y <= e)%Z)))
  /\ _filter_by_year (_filter_by_year papers start_year end_year) start_year end_year
     = _filter_by_year papers start_year end_year.
Proof.
  destruct (filter_by_year_kept papers start_year end_year) as [Hsub Hin].
  split; [exact Hsub|]. split; [exact Hin|].
  destruct (decide (start_year = None /\ end_year = None)) as [[-> ->]|Hb]; [done|].
  assert (Hsome : start_year <> None \/ end_year <> None).
  { destruct start_year, end_year; auto; tauto. }
  rewrite !filter_by_year_filter by done. apply list_filter_idem.
Qed.



End ExtraPipeline.

(* ===================================================================== *)
(** * Further facts: sentences *)
(* ===================================================================== *)

Module SentenceFacts.
Import PyStr SectionExtractor SentenceWords.

Lemma chars_app (a b : string) : chars (a +:+ b) = chars a ++ chars b.
Proof. induction a as [|c a IH]; simpl; [done|]. by rewrite IH. Qed.

Lemma nonspace_app (a b : string) : nonspace (a +:+ b) = nonspace a ++ nonspace b.
Proof. unfold nonspace. by rewrite chars_app, List.filter_app. Qed.

Lemma nonspace_cons (c : ascii) (s : string) :
  nonspace (String c s) = if isspace c then nonspace s else c :: nonspace s.
Proof. unfold nonspace. simpl. by destruct (isspace c). Qed.

Lemma nonspace_lstrip (s : string) : nonspace (lstrip s) = nonspace s.
Proof.
  induction s as [|c s IH]; simpl; [done|].
  destruct (isspace c) eqn:Hc; [|done]. by rewrite nonspace_cons, Hc.
Qed.

Lemma nonspace_rstrip (s : string) : nonspace (rstrip s) = nonspace s.
Proof.
  induction s as [|c s IH]; [done|].
  cbn [rstrip]. rewrite (nonspace_cons c s), <- IH.
  destruct (rstrip s) as [|d r].
  - destruct (isspace c) eqn:Hc; [done|]. by rewrite nonspace_cons, Hc.
  - by rewrite nonspace_cons.
Qed.

Lemma nonspace_strip (s : string) : nonspace (strip s) = nonspace s.
Proof. unfold strip. by rewrite nonspace_rstrip, nonspace_lstrip. Qed.

(** A string without a visible character is stripped to nothing, and the
    other way round. *)
Lemma strip_empty (s : string) : strip s = "" <-> nonspace s = [].
Proof.
  split.
  - intros H. by rewrite <- nonspace_strip, H.
  - intros H. unfold strip.
    assert (Hl : lstrip s = "").
    { induction s as [|c s IH]; [done|]. simpl.
      rewrite nonspace_cons in H. destruct (isspace c); [auto|done]. }
    by rewrite Hl.
Qed.

Lemma nonspace_concat_cons (x : string) (l : list string) :
  nonspace (String.concat "" (x :: l)) = nonspace x ++ nonspace (String.concat "" l).
Proof.
  destruct l as [|y l]; simpl.
  - unfold nonspace at 3. simpl. by rewrite app_nil_r.
  - by rewrite nonspace_app.
Qed.

(** The splitter keeps every visible character, in order. *)
Lemma split_nonspace (in_sep after_end : bool) (cur s : string) :
  nonspace (String.concat "" (re_split_sentence_ends in_sep after_end cur s))
  = nonspace cur ++ nonspace s.
Proof.
  revert in_sep after_end cur.
  induction s as [|c s IH]; intros in_sep after_end cur.
  - simpl. unfold nonspace at 3. simpl. by rewrite app_nil_r.
  - cbn [re_split_sentence_ends]. rewrite (nonspace_cons c s).
    destruct (isspace c) eqn:Hc.
    + destruct in_sep; [apply IH|].
      destruct after_end.
      * rewrite nonspace_concat_cons, IH. done.
      * rewrite IH, nonspace_app, nonspace_cons, Hc.
        unfold nonspace at 2. simpl. by rewrite app_nil_r.
    + rewrite IH, nonspace_app, nonspace_cons, Hc.
      unfold nonspace at 2. simpl. by rewrite <- app_assoc.
Qed.

(** Dropping the blank chunks and trimming the others loses no visible
    character. *)
Lemma trimmed_chunks_nonspace (chunks : list string) :
  nonspace (String.concat ""
              (strip <$> List.filter (fun c => negb (String.eqb (strip c) "")) chunks))
  = nonspace (String.concat "" chunks).
Proof.
  induction chunks as [|x chunks IH]; [done|].
  rewrite nonspace_concat_cons. cbn [List.filter].
  destruct (String.eqb_spec (strip x) "") as [Hx|Hx]; cbn [negb].
  - apply strip_empty in Hx. by rewrite Hx, IH.
  - rewrite fmap_cons, nonspace_concat_cons, nonspace_strip. by rewrite IH.
Qed.

Lemma last_char_snoc (s : string) (c : ascii) :
  last_char (s +:+ String c "") = Some c.
Proof.
  induction s as [|d s IH]; [done|].
  simpl. rewrite IH. by destruct (s +:+ String c "") eqn:E; [destruct s|].
Qed.

Lemma boundary_inside_snoc (s : string) (c : ascii) :
  boundary_inside (s +:+ String c "")
  = boundary_inside s || (ends_sentence s && isspace c).
Proof.
  induction s as [|d s IH]; [done|].
  destruct s as [|d' s].
  - simpl. unfold ends_sentence. simpl. by rewrite !orb_false_r.
  - change ((String d (String d' s)) +:+ String c "")
      with (String d (String d' s +:+ String c "")).
    cbn [boundary_inside]. change (String d' s +:+ String c "")
      with (String d' (s +:+ String c "")) at 1.
    cbn iota. rewrite IH.
    unfold ends_sentence. cbn [last_char]. by rewrite orb_assoc.
Qed.

End SentenceFacts.

Module SplitFacts.
Import PyStr SectionExtractor SentenceWords SentenceFacts MoreTextFacts.

Lemma space_is_no_sentence_end (c : ascii) :
  isspace c = true -> is_sentence_end c = false.
Proof. destruct c as [[] [] [] [] [] [] [] []]; simpl; done. Qed.

Lemma all_but_last_cons {A : Type} (P : A -> Prop) (x : A) (l : list A) :
  P x -> all_but_last P l -> all_but_last P (x :: l).
Proof. intros Hx Hl. destruct l; simpl; auto. Qed.

Lemma all_but_last_tail {A : Type} (P : A -> Prop) (x : A) (l : list A) :
  all_but_last P (x :: l) -> all_but_last P l.
Proof. destruct l; simpl; tauto. Qed.

Lemma all_but_last_head {A : Type} (P : A -> Prop) (x y : A) (l : list A) :
  all_but_last P (x :: y :: l) -> P x.
Proof. simpl. tauto. Qed.

Lemma all_but_last_filter_fmap {A B : Type} (P : A -> Prop) (Q : B -> Prop)
    (f : A -> B) (g : A -> bool) (l : list A) :
  (forall x, P x -> Q (f x)) ->
  all_but_last P l -> all_but_last Q (f <$> List.filter g l).
Proof.
  intros HPQ. induction l as [|x l IH]; intros Hl; [done|].
  cbn [List.filter]. specialize (IH (all_but_last_tail _ _ _ Hl)).
  destruct (g x); [|done].
  rewrite fmap_cons. destruct l as [|y l]; [done|].
  apply all_but_last_cons; [|done].
  apply HPQ. by apply all_but_last_head in Hl.
Qed.

(** The chunks of the splitter: none has a boundary inside, and all but the
    last end with a sentence end. *)
Lemma split_chunks_shape (in_sep after_end : bool) (cur s : string) :
  boundary_inside cur = false ->
  after_end = ends_sentence cur ->
  (in_sep = true -> after_end = false) ->
  Forall (fun c => boundary_inside c = false)
    (re_split_sentence_ends in_sep after_end cur s)
  /\ all_but_last (fun c => ends_sentence c = true)
       (re_split_sentence_ends in_sep after_end cur s).
Proof.
  revert in_sep after_end cur.
  induction s as [|c s IH]; intros in_sep after_end cur Hcur Hend Hsep.
  - simpl. split; [by constructor|done].
  - cbn [re_split_sentence_ends].
    assert (Hsnoc : isspace c = false \/ after_end = false ->
              boundary_inside (cur +:+ String c "") = false).
    { intros Hc. rewrite boundary_inside_snoc, Hcur, <- Hend.
      destruct Hc as [-> | ->]; [by rewrite andb_false_r|done]. }
    destruct (isspace c) eqn:Hc.
    + destruct in_sep.
      * apply IH; [done| |done]. rewrite <- Hend. symmetry. by apply Hsep.
      * destruct after_end eqn:Ha.
        -- destruct (IH true false "" eq_refl eq_refl (fun _ => eq_refl)) as [H1 H2].
           split; [by constructor|]. by apply all_but_last_cons.
        -- apply IH; [auto| |done].
           unfold ends_sentence. rewrite last_char_snoc.
           symmetry. by apply space_is_no_sentence_end.
    + apply IH; [auto| |done]. unfold ends_sentence. by rewrite last_char_snoc.
Qed.

End SplitFacts.

Module TrimFacts.
Import PyStr SectionExtractor SentenceWords SentenceFacts SplitFacts.

Lemma boundary_inside_tail (c : ascii) (s : string) :
  boundary_inside (String c s) = false -> boundary_inside s = false.
Proof.
  destruct s as [|d s]; [done|]. cbn [boundary_inside].
  by intros [_ ?]%orb_false_elim.
Qed.

Lemma boundary_inside_lstrip (s : string) :
  boundary_inside s = false -> boundary_inside (lstrip s) = false.
Proof.
  induction s as [|c s IH]; [done|]. intros H. simpl.
  destruct (isspace c); [|done]. apply IH. by apply boundary_inside_tail in H.
Qed.

(** What [rstrip] leaves starts like the string itself. *)
Lemma rstrip_head (s r : string) (d : ascii) :
  rstrip s = String d r -> exists s', s = String d s'.
Proof.
  destruct s as [|c s]; [done|]. simpl.
  destruct (rstrip s); [destruct (isspace c)|]; intros [= <- _]; eauto.
Qed.

Lemma boundary_inside_rstrip (s : string) :
  boundary_inside s = false -> boundary_inside (rstrip s) = false.
Proof.
  induction s as [|c s IH]; [done|]. intros H.
  cbn [rstrip]. destruct (rstrip s) as [|d r] eqn:Hr.
  - by destruct (isspace c).
  - destruct (rstrip_head s r d Hr) as [s' ->].
    cbn [boundary_inside] in H |- *.
    apply orb_false_elim in H as [H1 H2].
    rewrite H1. simpl. apply IH. exact H2.
Qed.

Lemma boundary_inside_strip (s : string) :
  boundary_inside s = false -> boundary_inside (strip s) = false.
Proof.
  intros H. unfold strip. by apply boundary_inside_rstrip, boundary_inside_lstrip.
Qed.

Lemma ends_sentence_cons (c d : ascii) (s : string) :
  ends_sentence (String c (String d s)) = ends_sentence (String d s).
Proof. reflexivity. Qed.

Lemma ends_sentence_lstrip (s : string) :
  ends_sentence s = true -> ends_sentence (lstrip s) = true.
Proof.
  induction s as [|c s IH]; [done|]. intros H. simpl.
  destruct (isspace c) eqn:Hc; [|done].
  destruct s as [|d s].
  - unfold ends_sentence in H. simpl in H.
    by rewrite (space_is_no_sentence_end c Hc) in H.
  - apply IH. by rewrite ends_sentence_cons in H.
Qed.

Lemma ends_sentence_rstrip (s : string) :
  ends_sentence s = true -> rstrip s = s.
Proof.
  induction s as [|c s IH]; [done|]. intros H.
  cbn [rstrip]. destruct s as [|d s].
  - simpl. unfold ends_sentence in H. simpl in H.
    destruct (isspace c) eqn:Hc; [|done].
    by rewrite (space_is_no_sentence_end c Hc) in H.
  - rewrite ends_sentence_cons in H. by rewrite (IH H).
Qed.

Lemma ends_sentence_strip (s : string) :
  ends_sentence s = true -> ends_sentence (strip s) = true.
Proof.
  intros H. unfold strip. apply ends_sentence_lstrip in H.
  by rewrite (ends_sentence_rstrip _ H).
Qed.

(** Every sentence of [_split_sentences] is non-empty. *)
Lemma split_sentences_nonempty (text : string) :
  Forall (fun s => s <> "") (_split_sentences text).
Proof.
  unfold _split_sentences. case_decide; [constructor|].
  apply Forall_fmap, Forall_forall. intros c Hc.
  apply list_elem_of_In, filter_In in Hc as [_ Hne]. simpl.
  by destruct (String.eqb_spec (strip c) "").
Qed.

End TrimFacts.

Section ExtraSentences.
Import PyStr SectionExtractor SentenceWords SentenceFacts SplitFacts TrimFacts
  MoreTextFacts.

(** X5. Every sentence that [_split_sentences] returns is non-empty, has no
    whitespace at either end and no sentence end followed by whitespace
    inside; every sentence but the last ends with one of [. ! ?]; there is no
    sentence exactly when the text is blank; and the visible characters of
    the sentences, in order, are those of the text. *)
Theorem split_sentences_shape (text : string) :
  Forall (fun s => s <> "" /\ strip s = s /\ boundary_inside s = false)
    (_split_sentences text)
  /\ all_but_last (fun s => ends_sentence s = true) (_split_sentences text)
  /\ (_split_sentences text = [] <-> strip text = "")
  /\ nonspace (String.concat "" (_split_sentences text)) = nonspace text.
Proof.
  assert (Hvisible :
            nonspace (String.concat "" (_split_sentences text)) = nonspace text).
  { unfold _split_sentences. case_decide as Hblank.
    - apply strip_empty in Hblank. by rewrite Hblank.
    - rewrite trimmed_chunks_nonspace, split_nonspace, nonspace_strip. done. }
  unfold _split_sentences in *. case_decide as Hblank.
  { repeat split; auto. }
  destruct (split_chunks_shape false false "" (strip text) eq_refl eq_refl
              (fun H => eq_refl)) as [Hinner Hends].
  split; [|split; [|split]].
  - apply Forall_fmap, Forall_forall. intros c Hc.
    apply list_elem_of_In, filter_In in Hc as [Hc Hne]. simpl.
    split; [|split].
    + by destruct (String.eqb_spec (strip c) "").
    + apply strip_idem.
    + apply boundary_inside_strip.
      rewrite Forall_forall in Hinner. by apply Hinner, list_elem_of_In.
  - apply (all_but_last_filter_fmap (fun c => ends_sentence c = true)); [|done].
    apply ends_sentence_strip.
  - split; [|done]. intros Hnone. rewrite Hnone in Hvisible.
    apply strip_empty. by rewrite <- Hvisible.
  - exact Hvisible.
Qed.

End ExtraSentences.

(* ===================================================================== *)
(** * Further facts: section extraction *)
(* ===================================================================== *)

Module MoreExtractorFacts.
Import PyStr PySort SectionExtractor ExtractorWords SortFacts ExtractorFacts
  ExtractFacts SentenceWords.

Lemma append_nonempty (a b : string) : a <> "" -> a +:+ b <> "".
Proof. by destruct a. Qed.

Lemma join_nonempty (sep x : string) (l : list string) :
  x <> "" -> join sep (x :: l) <> "".
Proof.
  intros Hx. unfold join. simpl. destruct l; [done|]. by apply append_nonempty.
Qed.

Lemma pick_first_elem (m : nat) (l r : list (nat * string)) (x : nat * string) :
  pick_first m l = Some (x, r) -> x ∈ l.
Proof.
  revert r. induction l as [|y l IH]; intros r; [done|].
  rewrite pick_first_cons. destruct (fst y =? m)%nat.
  - intros [= -> _]. apply list_elem_of_here.
  - destruct (pick_first m l) as [[x' r']|]; [|done].
    intros [= -> _]. apply list_elem_of_further. by eapply IH.
Qed.

Lemma scored_sentences_elem (keywords sentences : list string) (p : nat * string) :
  p ∈ scored_sentences keywords sentences -> snd p ∈ sentences /\ 0 < fst p.
Proof.
  unfold scored_sentences.
  rewrite list_elem_of_In, filter_In, <- list_elem_of_In.
  intros [(sent & -> & Hin)%list_elem_of_fmap Hpos]. simpl in *.
  split; [done|]. by apply Nat.ltb_lt.
Qed.

(** Without a scoring sentence, the result depends on the section alone. *)
Lemma extract_section_text_unscored (sentences : list string) (section : string)
    (keywords : list string) (top_k : nat) :
  SECTION_KEYWORDS !! section = Some keywords ->
  scored_sentences keywords sentences = [] ->
  _extract_section_text sentences section top_k
  = if decide (section = "method_used") then Some (join " " (take 2 sentences))
    else if decide (section = "contributions") then last sentences
    else if decide (section = "limitations")
    then Some "Not explicitly stated in the abstract; practical constraints and edge-case behavior require deeper full-text review."
    else if decide (section = "future_work")
    then Some "Not explicitly stated in abstract."
    else head sentences.
Proof.
  intros Hkw Hnone. unfold _extract_section_text. rewrite Hkw. simpl.
  rewrite score_loop_spec by by apply (section_keywords_NoDup section).
  rewrite Hnone. simpl. case_decide; [|done].
  do 2 f_equal. destruct sentences as [|a [|b l]]; done.
Qed.

(** On non-empty sentences, a value for a section is never empty. *)
Lemma extract_section_text_nonempty (sentences : list string) (section : string)
    (top_k : nat) (v : string) :
  sentences <> [] -> Forall (fun s => s <> "") sentences -> 0 < top_k ->
  _extract_section_text sentences section top_k = Some v -> v <> "".
Proof.
  intros Hne Hall Hk.
  destruct (SECTION_KEYWORDS !! section) as [keywords|] eqn:Hkw;
    [|unfold _extract_section_text; by rewrite Hkw].
  rewrite Forall_forall in Hall.
  destruct (scored_sentences keywords sentences) as [|p scored] eqn:Hs.
  - rewrite (extract_section_text_unscored _ _ keywords) by done.
    destruct sentences as [|s l]; [done|].
    repeat case_decide.
    + intros [= <-]. destruct l; apply join_nonempty, Hall; left.
    + intros Hlast. apply Hall. rewrite list_elem_of_In.
      apply last_Some_elem_of in Hlast. by apply list_elem_of_In.
    + by intros [= <-].
    + by intros [= <-].
    + intros [= <-]. apply Hall. left.
  - rewrite (extract_section_text_scored _ _ keywords) by (by rewrite ?Hs).
    rewrite Hs. destruct top_k as [|k]; [lia|].
    destruct (sort_desc_pick (p :: scored)) as (x & r & Hpick & _); [done|].
    cbn [top_by_score]. rewrite Hpick. rewrite fmap_cons.
    intros [= <-]. apply join_nonempty, Hall.
    apply pick_first_elem in Hpick. rewrite <- Hs in Hpick.
    by apply scored_sentences_elem in Hpick as [? _].
Qed.

End MoreExtractorFacts.

Section ExtraExtractor.
Import PyStr PySort SectionExtractor ExtractorWords SortFacts ExtractorFacts
  ExtractFacts SentenceWords MoreExtractorFacts.

(** X6. When no sentence contains a keyword of the section, the result is
    the fallback of the section: the first two sentences for method_used,
    the last sentence for contributions, a fixed text for limitations and
    for future_work, and the first sentence for literature_review. *)
Theorem extract_section_text_fallbacks (sentences : list string)
    (section : string) (keywords : list string) (top_k : nat) :
  SECTION_KEYWORDS !! section = Some keywords ->
  scored_sentences keywords sentences = [] ->
  _extract_section_text sentences section top_k
  = if decide (section = "method_used") then Some (join " " (take 2 sentences))
    else if decide (section = "contributions") then last sentences
    else if decide (section = "limitations")
    then Some "Not explicitly stated in the abstract; practical constraints and edge-case behavior require deeper full-text review."
    else if decide (section = "future_work")
    then Some "Not explicitly stated in abstract."
    else head sentences.
Proof. apply extract_section_text_unscored. Qed.

Lemma extract_section_text_fallbacks_witness :
  _extract_section_text ["Cats sleep."; "Dogs bark."; "Birds sing."]
    "contributions" 2
  = Some "Birds sing.".
Proof.
  rewrite (extract_section_text_fallbacks _ "contributions"
             [ "contribution"; "we introduce"; "we present"; "novel"; "new";
               "first"; "outperform"; "improve"; "significant" ] 2);
    reflexivity.
Defined.

(** X7. [_extract_section_text] raises exactly in two cases: the section is
    not one of the five names of the keyword table ([KeyError]), or there
    is no sentence and the section is contributions or literature_review
    ([IndexError]). *)
Theorem extract_section_text_raises (sentences : list string) (section : string)
    (top_k : nat) :
  _extract_section_text sentences section top_k = None
  <-> section ∉ [ "literature_review"; "method_used"; "contributions";
                  "limitations"; "future_work" ]
      \/ sentences = []
         /\ (section = "contributions" \/ section = "literature_review").
Proof.
  assert (Hdom : dom SECTION_KEYWORDS
                 = list_to_set (C := gset string)
                     [ "literature_review"; "method_used"; "contributions";
                       "limitations"; "future_work" ]).
  { unfold SECTION_KEYWORDS. rewrite dom_list_to_map_L. reflexivity. }
  assert (Hknown : forall s,
            s ∈ [ "literature_review"; "method_used"; "contributions";
                  "limitations"; "future_work" ]
            <-> is_Some (SECTION_KEYWORDS !! s)).
  { intros s. rewrite <- (elem_of_dom (D := gset string)), Hdom.
    by rewrite elem_of_list_to_set. }
  split.
  - intros Hnone.
    destruct (decide (section ∈ [ "literature_review"; "method_used";
                                   "contributions"; "limitations"; "future_work" ]))
      as [Hin|Hout]; [|by left].
    right. destruct sentences as [|s l].
    + split; [done|].
      repeat (apply elem_of_cons in Hin as [->|Hin]); auto;
        try (by apply elem_of_nil in Hin); vm_compute in Hnone; discriminate.
    + destruct (extract_section_text_total (s :: l) section top_k) as [v Hv];
        [done|by apply Hknown|congruence].
  - intros [Hout|[-> [-> | ->]]]; [|reflexivity..].
    unfold _extract_section_text.
    destruct (SECTION_KEYWORDS !! section) eqn:Hkw; [|done].
    exfalso. apply Hout, Hknown. eauto.
Qed.

(** X8. No value of the dict that [extract] returns is empty, and its
    future_work is never the bare placeholder "Not explicitly stated in
    abstract.".  When the text has a sentence, insights is built from the
    method_used and contributions of the same dict, and research_gap from
    its literature_review, limitations and future_work, the replaced
    future_work included. *)
Theorem extract_fields_consistent (text : string) (d : gmap string string) :
  extract text = Some d ->
  (forall k v, d !! k = Some v -> v <> "")
  /\ d !! "future_work" <> Some "Not explicitly stated in abstract."
  /\ (_split_sentences text <> [] ->
      exists literature_review method_used contributions limitations future_work,
        d !! "literature_review" = Some literature_review
        /\ d !! "method_used" = Some method_used
        /\ d !! "contributions" = Some contributions
        /\ d !! "limitations" = Some limitations
        /\ d !! "future_work" = Some future_work
        /\ d !! "insights"
           = Some (_build_insights (_split_sentences text) method_used contributions)
        /\ d !! "research_gap"
           = Some (_derive_research_gap literature_review limitations future_work)).
Proof.
  intros Hd.
  destruct (_split_sentences text) as [|s l] eqn:Hs.
  - assert (Hd' : d = list_to_map
                         ((fun k => (k, NOT_ENOUGH_INFORMATION)) <$> sections))
      by (rewrite (extract_without_sentences text Hs) in Hd; congruence).
    clear Hd. subst d.
    split; [|split; [|done]].
    + intros k v Hkv. apply elem_of_list_to_map_2 in Hkv.
      apply list_elem_of_fmap in Hkv as (k' & [= _ ->] & _). done.
    + vm_compute. discriminate.
  - destruct (extract_with_sentences text)
      as (lr & mu & co & li & fw & Hlr & Hmu & Hco & Hli & Hfw & Hex);
      [by rewrite Hs|].
    rewrite Hs in Hlr, Hmu, Hco, Hli, Hfw, Hex.
    assert (Hd' : Some d = Some (list_to_map
        [ ("insights", _build_insights (s :: l) mu co);
          ("literature_review", lr); ("method_used", mu); ("contributions", co);
          ("limitations", li);
          ("future_work",
           if contains "Not explicitly stated" fw then _derive_future_work li else fw);
          ("research_gap",
           _derive_research_gap lr li
             (if contains "Not explicitly stated" fw
              then _derive_future_work li else fw)) ]))
      by (by rewrite <- Hd, Hex).
    clear Hd Hex. apply (inj Some) in Hd'. subst d.
    assert (Hall : Forall (fun s => s <> "") (s :: l)).
    { rewrite <- Hs. apply TrimFacts.split_sentences_nonempty. }
    assert (Hv : forall section k v, 0 < k ->
              _extract_section_text (s :: l) section k = Some v -> v <> "").
    { intros section k v Hk. by apply extract_section_text_nonempty. }
    set (fw' := if contains "Not explicitly stated" fw
                then _derive_future_work li else fw).
    assert (Hfw' : fw' <> "" /\ fw' <> "Not explicitly stated in abstract.").
    { unfold fw'. destruct (contains "Not explicitly stated" fw) eqn:Hc.
      - split; discriminate.
      - split; [by apply (Hv "future_work" 2); [lia|]|].
        intros ->. vm_compute in Hc. discriminate. }
    split; [|split].
    + intros k v Hkv. apply elem_of_list_to_map_2 in Hkv.
      repeat (apply elem_of_cons in Hkv as [[= -> ->]|Hkv]);
        [..|by apply elem_of_nil in Hkv].
      * discriminate.
      * by apply (Hv "literature_review" 2); [lia|].
      * by apply (Hv "method_used" 3); [lia|].
      * by apply (Hv "contributions" 2); [lia|].
      * by apply (Hv "limitations" 2); [lia|].
      * apply Hfw'.
      * discriminate.
    + intros H. assert (Hlookup : Some fw' = Some "Not explicitly stated in abstract.")
        by (rewrite <- H; reflexivity).
      injection Hlookup as Heq. by apply Hfw'.
    + intros _. exists lr, mu, co, li, fw'. repeat split; reflexivity.
Qed.

Lemma extract_fields_consistent_witness :
  exists d,
    extract "We present a new parser. It is fast." = Some d
    /\ (forall k v, d !! k = Some v -> v <> "")
    /\ d !! "future_work" <> Some "Not explicitly stated in abstract.".
Proof.
  destruct (extract "We present a new parser. It is fast.") as [d|] eqn:Hd.
  - exists d. split; [reflexivity|].
    destruct (extract_fields_consistent
                "We present a new parser. It is fast." d Hd) as (Hne & Hfw & _).
    split; [exact Hne|exact Hfw].
  - vm_compute in Hd. discriminate Hd.
Defined.

End ExtraExtractor.

(* ===================================================================== *)
(** * Further facts: the retrying helper *)
(* ===================================================================== *)

Module MoreRetryFacts.
Import PyStr Py Net UploadAnalyzer NetWords RetryWords RetryFacts.

Lemma backoff_eq (attempts attempt : nat) (tr : trace) :
  backoff_or_give_up attempts attempt tr
  = if (Z.of_nat attempt <? Z.of_nat attempts - 1)%Z
    then (Ok Continue, tr ++ [EvSleep (backoff_seconds attempt)])
    else (Ok (Return JNull), tr).
Proof.
  unfold backoff_or_give_up.
  by destruct (Z.of_nat attempt <? Z.of_nat attempts - 1)%Z.
Qed.

Lemma successful_not_unsuccessful (o : result response) (v : json) :
  successful o v -> unsuccessful o = false.
Proof.
  intros (r & -> & Hretry & Hstatus & Hbody). unfold unsuccessful.
  rewrite Hbody, bool_decide_eq_false_2 by done. simpl.
  rewrite orb_false_r. apply andb_false_iff.
  destruct Hstatus; [left; by apply Z.leb_gt|right; by apply Z.ltb_ge].
Qed.

Lemma successful_value (o : result response) (v v' : json) :
  successful o v -> successful o v' -> v = v'.
Proof.
  intros (r & -> & _ & _ & Hv) (r' & [= <-] & _ & _ & Hv'). congruence.
Qed.

Lemma timeout_is_request_exception (e : exn) :
  is_timeout e || is_request_exception e = is_request_exception e.
Proof. by destruct e. Qed.

Section WithWorld.
Variable w : world.

(** The three ways in which a turn of the loop ends. *)
Lemma turn_cases (url : string) (params : list (string * param))
    (attempts : nat) (timeout : Z) (attempt : nat) (tr : trace) :
  let req := mkRequest url params timeout USER_AGENT in
  let turn :=
    try_except (attempt_body w url params attempts timeout attempt)
      (fun e => is_timeout e || is_request_exception e)
      (attempt_handler attempts attempt) tr in
  (unsuccessful (http w tr req) = true
   /\ turn = backoff_or_give_up attempts attempt (tr ++ [EvGet req]))
  \/ (exists v, successful (http w tr req) v
                /\ turn = (Ok (Return v), tr ++ [EvGet req]))
  \/ (exists e, is_request_exception e = false
                /\ unsuccessful (http w tr req) = false
                /\ (forall v, ~ successful (http w tr req) v)
                /\ turn = (Raise e, tr ++ [EvGet req])).
Proof.
  intros req turn. subst turn.
  unfold try_except, attempt_body, mbind, io_bind, requests_get. fold req.
  unfold unsuccessful, successful.
  destruct (http w tr req) as [r|e].
  - destruct (bool_decide (status_code r ∈ RETRY_STATUSES)) eqn:Hretry.
    + left. split; [done|]. rewrite backoff_eq.
      by destruct (Z.of_nat attempt <? Z.of_nat attempts - 1)%Z.
    + apply bool_decide_eq_false in Hretry.
      unfold lift, raise_for_status.
      destruct ((400 <=? status_code r) && (status_code r <? 600))%Z eqn:Hst.
      * left. split; [done|]. simpl. unfold attempt_handler. done.
      * simpl. destruct (json_body r) as [v|e] eqn:Hbody.
        -- right. left. exists v. split; [|done]. exists r.
           repeat split; [done| |done].
           apply andb_false_iff in Hst as [H|H];
             [left; by apply Z.leb_gt|right; by apply Z.ltb_ge].
        -- rewrite timeout_is_request_exception.
           destruct (is_request_exception e) eqn:He.
           ++ left. split; [done|]. unfold attempt_handler.
              by destruct (is_timeout e).
           ++ right. right. exists e. split; [done|]. split.
              ** done.
              ** split; [|done]. intros v (r' & [= <-] & _ & _ & Hv). congruence.
  - rewrite timeout_is_request_exception.
    destruct (is_request_exception e) eqn:He.
    + left. split; [done|]. unfold attempt_handler. by destruct (is_timeout e).
    + right. right. exists e. split; [done|]. split; [done|].
      split; [|done]. by intros v (r' & [=] & _).
Qed.

Lemma turn_unsuccessful (url : string) (params : list (string * param))
    (attempts : nat) (timeout : Z) (attempt : nat) (tr : trace) :
  unsuccessful (http w tr (mkRequest url params timeout USER_AGENT)) = true ->
  try_except (attempt_body w url params attempts timeout attempt)
    (fun e => is_timeout e || is_request_exception e)
    (attempt_handler attempts attempt) tr
  = backoff_or_give_up attempts attempt
      (tr ++ [EvGet (mkRequest url params timeout USER_AGENT)]).
Proof.
  intros Hun.
  destruct (turn_cases url params attempts timeout attempt tr)
    as [[_ H]|[(v & Hs & _)|(e & _ & Hno & _)]]; [done| |congruence].
  apply successful_not_unsuccessful in Hs. congruence.
Qed.

Lemma turn_successful (url : string) (params : list (string * param))
    (attempts : nat) (timeout : Z) (attempt : nat) (tr : trace) (v : json) :
  successful (http w tr (mkRequest url params timeout USER_AGENT)) v ->
  try_except (attempt_body w url params attempts timeout attempt)
    (fun e => is_timeout e || is_request_exception e)
    (attempt_handler attempts attempt) tr
  = (Ok (Return v), tr ++ [EvGet (mkRequest url params timeout USER_AGENT)]).
Proof.
  intros Hs.
  destruct (turn_cases url params attempts timeout attempt tr)
    as [[Hun _]|[(v' & Hs' & H)|(e & _ & _ & Hno & _)]].
  - apply successful_not_unsuccessful in Hs. congruence.
  - by rewrite (successful_value _ _ _ Hs Hs').
  - by destruct (Hno v).
Qed.

Lemma retry_loop_cons (url : string) (params : list (string * param))
    (attempts : nat) (timeout : Z) (attempt : nat) (rest : list nat) (tr : trace) :
  retry_loop w url params attempts timeout (attempt :: rest) tr
  = match try_except (attempt_body w url params attempts timeout attempt)
            (fun e => is_timeout e || is_request_exception e)
            (attempt_handler attempts attempt) tr with
    | (Ok (Return v), tr') => (Ok v, tr')
    | (Ok Continue, tr') => retry_loop w url params attempts timeout rest tr'
    | (Raise e, tr') => (Raise e, tr')
    end.
Proof.
  cbn [retry_loop]. unfold mbind, io_bind.
  destruct (try_except _ _ _ tr) as [[[v|]|e] tr']; reflexivity.
Qed.

(** A loop over a non-empty rest of the range ends with a GET, after some
    turns that ended in a retry. *)
Lemma retry_loop_shape (url : string) (params : list (string * param))
    (attempts : nat) (timeout : Z) (m a : nat) (tr tr' : trace)
    (res : result json) :
  a + m = attempts -> 0 < m ->
  retry_loop w url params attempts timeout (seq a m) tr = (res, tr') ->
  exists k,
    k < m
    /\ tr' = tr ++ failed_turns (mkRequest url params timeout USER_AGENT) a k
               ++ [EvGet (mkRequest url params timeout USER_AGENT)]
    /\ (forall e, res = Raise e -> is_request_exception e = false).
Proof.
  set (req := mkRequest url params timeout USER_AGENT).
  revert a tr. induction m as [|m IH]; intros a tr Ham Hm; [lia|].
  cbn [seq retry_loop]. unfold mbind at 1, io_bind at 1.
  destruct (turn_cases url params attempts timeout a tr)
    as [[_ ->]|[(v & _ & ->)|(e & He & _ & _ & ->)]]; fold req.
  - rewrite backoff_eq.
    destruct (Z.ltb_spec (Z.of_nat a) (Z.of_nat attempts - 1)) as [Hlt|Hge].
    + intros Hloop. apply IH in Hloop as (k & Hk & -> & Hres); [|lia..].
      exists (S k). split; [lia|]. split; [|done].
      simpl. by rewrite <- !app_assoc.
    + intros [= <- <-]. exists 0. split; [lia|]. split; [done|]. done.
  - intros [= <- <-]. exists 0. split; [lia|]. split; [done|]. done.
  - intros [= <- <-]. exists 0. split; [lia|]. split; [done|].
    by intros e' [= <-].
Qed.

(** After [k] unsuccessful turns, a successful one ends the loop with its
    value. *)
Lemma retry_loop_success (url : string) (params : list (string * param))
    (attempts : nat) (timeout : Z) (m a k : nat) (tr : trace) (v : json) :
  a + m = attempts -> k < m ->
  (forall i, i < k ->
     unsuccessful
       (http w (tr ++ failed_turns (mkRequest url params timeout USER_AGENT) a i)
          (mkRequest url params timeout USER_AGENT)) = true) ->
  successful
    (http w (tr ++ failed_turns (mkRequest url params timeout USER_AGENT) a k)
       (mkRequest url params timeout USER_AGENT)) v ->
  retry_loop w url params attempts timeout (seq a m) tr
  = (Ok v, tr ++ failed_turns (mkRequest url params timeout USER_AGENT) a k
              ++ [EvGet (mkRequest url params timeout USER_AGENT)]).
Proof.
  set (req := mkRequest url params timeout USER_AGENT).
  revert a m tr. induction k as [|k IH]; intros a m tr Ham Hk Hfail Hok.
  - destruct m as [|m]; [lia|]. simpl in Hok. rewrite app_nil_r in Hok.
    cbn [seq retry_loop]. unfold mbind at 1, io_bind at 1.
    by rewrite (turn_successful _ _ _ _ _ _ v Hok).
  - destruct m as [|m]; [lia|].
    cbn [seq retry_loop]. unfold mbind at 1, io_bind at 1.
    rewrite turn_unsuccessful.
    2:{ specialize (Hfail 0 ltac:(lia)). simpl in Hfail.
        by rewrite app_nil_r in Hfail. }
    fold req. rewrite backoff_eq.
    destruct (Z.ltb_spec (Z.of_nat a) (Z.of_nat attempts - 1)) as [_|Hge]; [|lia].
    rewrite (IH (S a) m); [|lia|lia| |].
    + simpl. by rewrite <- !app_assoc.
    + intros i Hi. specialize (Hfail (S i) ltac:(lia)).
      simpl in Hfail. by rewrite <- !app_assoc.
    + simpl in Hok. by rewrite <- !app_assoc.
Qed.

(** When every turn is unsuccessful, the loop uses up the range. *)
Lemma retry_loop_exhausted (url : string) (params : list (string * param))
    (attempts : nat) (timeout : Z) (m a : nat) (tr : trace) :
  a + S m = attempts ->
  (forall i, i <= m ->
     unsuccessful
       (http w (tr ++ failed_turns (mkRequest url params timeout USER_AGENT) a i)
          (mkRequest url params timeout USER_AGENT)) = true) ->
  retry_loop w url params attempts timeout (seq a (S m)) tr
  = (Ok JNull, tr ++ failed_turns (mkRequest url params timeout USER_AGENT) a m
                  ++ [EvGet (mkRequest url params timeout USER_AGENT)]).
Proof.
  set (req := mkRequest url params timeout USER_AGENT).
  revert a tr. induction m as [|m IH]; intros a tr Ham Hfail.
  - cbn [seq retry_loop]. unfold mbind at 1, io_bind at 1.
    rewrite turn_unsuccessful.
    2:{ specialize (Hfail 0 ltac:(lia)). simpl in Hfail.
        by rewrite app_nil_r in Hfail. }
    fold req. rewrite backoff_eq.
    destruct (Z.ltb_spec (Z.of_nat a) (Z.of_nat attempts - 1)) as [Hlt|_]; [lia|].
    done.
  - change (seq a (S (S m))) with (a :: seq (S a) (S m)).
    rewrite retry_loop_cons, turn_unsuccessful.
    2:{ specialize (Hfail 0 ltac:(lia)). simpl in Hfail.
        by rewrite app_nil_r in Hfail. }
    fold req. rewrite backoff_eq.
    destruct (Z.ltb_spec (Z.of_nat a) (Z.of_nat attempts - 1)) as [_|Hge]; [|lia].
    rewrite (IH (S a)); [|lia|].
    + simpl. by rewrite <- !app_assoc.
    + intros i Hi. specialize (Hfail (S i) ltac:(lia)).
      simpl in Hfail. by rewrite <- !app_assoc.
Qed.

End WithWorld.

Lemma gets_failed_turns (req : request) (a k : nat) :
  gets (failed_turns req a k) = replicate k req.
Proof.
  revert a. induction k as [|k IH]; intros a; [done|].
  simpl. f_equal. apply IH.
Qed.




End MoreRetryFacts.

Section ExtraRetry.
Import PyStr Py Net UploadAnalyzer NetWords RetryWords RetryFacts MoreRetryFacts
  Examples MoreExamples.



(** X10. If the first [k] requests are unsuccessful (an exception of the
    [requests] hierarchy, a status of the retry list, another 4xx or 5xx
    status, or an undecodable body) and request [k+1] is answered with
    another status and a JSON body, with [k < attempts], the helper returns
    that body after exactly [k+1] GETs. *)
Theorem request_json_with_retries_first_success (w : world) (url : string)
    (params : list (string * param)) (attempts : nat) (timeout : Z)
    (k : nat) (tr : trace) (v : json) :
  let req := mkRequest url params timeout USER_AGENT in
  k < attempts ->
  (forall i, i < k ->
     unsuccessful (http w (tr ++ failed_turns req 0 i) req) = true) ->
  successful (http w (tr ++ failed_turns req 0 k) req) v ->
  _request_json_with_retries w url params attempts timeout tr
  = (Ok v, tr ++ failed_turns req 0 k ++ [EvGet req]).
Proof.
  intros req Hk Hfail Hok. unfold _request_json_with_retries.
  by apply (retry_loop_success w url params attempts timeout attempts 0 k).
Qed.

Lemma request_json_with_retries_first_success_witness :
  _request_json_with_retries world_second_try "https://example.org/x" [] 3 12 []
  = (Ok (JStr "ok"),
     [ EvGet (mkRequest "https://example.org/x" [] 12 USER_AGENT);
       EvSleep (6 # 10);
       EvGet (mkRequest "https://example.org/x" [] 12 USER_AGENT) ]).
Proof.
  apply (request_json_with_retries_first_success world_second_try
           "https://example.org/x" [] 3 12 1 [] (JStr "ok")).
  - lia.
  - intros i Hi. assert (i = 0) as -> by lia. reflexivity.
  - eexists. split; [reflexivity|]. simpl.
    split; [|split; [left; lia|reflexivity]].
    apply (bool_decide_unpack _). vm_compute. exact I.
Defined.

(** X11. If every one of the [attempts >= 1] requests is unsuccessful in
    that sense (a plain 404 included), the helper returns [None] after
    exactly [attempts] GETs and [attempts - 1] pauses. *)
Theorem request_json_with_retries_gives_up (w : world) (url : string)
    (params : list (string * param)) (attempts : nat) (timeout : Z)
    (tr : trace) :
  let req := mkRequest url params timeout USER_AGENT in
  0 < attempts ->
  (forall i, i < attempts ->
     unsuccessful (http w (tr ++ failed_turns req 0 i) req) = true) ->
  _request_json_with_retries w url params attempts timeout tr
  = (Ok JNull, tr ++ failed_turns req 0 (attempts - 1) ++ [EvGet req]).
Proof.
  intros req Hn Hfail. unfold _request_json_with_retries.
  destruct attempts as [|n]; [lia|].
  replace (S n - 1) with n by lia.
  apply (retry_loop_exhausted w url params (S n) timeout n 0); [lia|].
  intros i Hi. apply Hfail. lia.
Qed.

Lemma request_json_with_retries_gives_up_witness :
  _request_json_with_retries world_not_found "https://example.org/x" [] 2 12 []
  = (Ok JNull,
     [ EvGet (mkRequest "https://example.org/x" [] 12 USER_AGENT);
       EvSleep (6 # 10);
       EvGet (mkRequest "https://example.org/x" [] 12 USER_AGENT) ]).
Proof.
  apply (request_json_with_retries_gives_up world_not_found
           "https://example.org/x" [] 2 12 []).
  - lia.
  - intros i Hi. reflexivity.
Defined.

End ExtraRetry.

(* ===================================================================== *)
(** * Further facts: the metadata lookups *)
(* ===================================================================== *)

Module MoreLookupFacts.
Import PyStr Py Net UploadAnalyzer NetWords RetryWords RetryFacts MoreRetryFacts.

(** A [try] whose [except Exception] returns [None] never raises; it leaves
    the trace of its body. *)
Lemma try_all_ok {A : Type} (body : io (option A)) (tr : trace) :
  exists r,
    try_except body (fun _ => true) (fun _ => mret None) tr = (Ok r, snd (body tr)).
Proof.
  unfold try_except. destruct (body tr) as [[r|e] tr']; simpl; eauto.
Qed.

Section WithWorld.
Variable w : world.

(** The GETs of one call of the retrying helper: at most [attempts], all of
    the same request. *)
Lemma retry_gets (url : string) (params : list (string * param))
    (attempts : nat) (timeout : Z) (tr : trace) :
  exists new,
    snd (_request_json_with_retries w url params attempts timeout tr) = tr ++ new
    /\ length (gets new) <= attempts
    /\ Forall (fun q => q = mkRequest url params timeout USER_AGENT) (gets new).
Proof.
  destruct (_request_json_with_retries w url params attempts timeout tr)
    as [res tr'] eqn:Hrun. simpl.
  unfold _request_json_with_retries in Hrun.
  destruct attempts as [|n].
  - injection Hrun as _ <-. exists []. rewrite app_nil_r. by repeat split.
  - apply (retry_loop_shape w url params (S n) timeout (S n) 0) in Hrun
      as (k & Hk & -> & _); [|lia..].
    eexists. split; [done|].
    unfold gets. rewrite omap_app.
    fold (gets (failed_turns (mkRequest url params timeout USER_AGENT) 0 k)).
    rewrite gets_failed_turns. simpl. rewrite length_app, length_replicate. simpl.
    split; [lia|]. apply Forall_app. split; [|by repeat constructor].
    apply Forall_forall. by intros q [-> _]%elem_of_replicate.
Qed.

(** The DOI lookup never raises and sends at most three GETs, all to the
    paper endpoint. *)
Lemma lookup_by_doi_result (doi : string) (tr : trace) :
  exists r new,
    _lookup_semantic_scholar_by_doi w doi tr = (Ok r, tr ++ new)
    /\ length (gets new) <= 3
    /\ Forall (fun q => exists d, req_url q = DOI_URL_PREFIX +:+ d) (gets new).
Proof.
  unfold _lookup_semantic_scholar_by_doi.
  set (d := rstrip_chars ").,;" (lower (strip doi))).
  match goal with |- context [try_except ?b _ _ tr] => set (body := b) end.
  destruct (try_all_ok body tr) as [r Hr]. exists r. rewrite Hr.
  assert (Hbody : exists new,
            snd (body tr) = tr ++ new /\ length (gets new) <= 3
            /\ Forall (fun q => exists d, req_url q = DOI_URL_PREFIX +:+ d) (gets new)).
  { subst body. cbv beta. destruct (decide (d = "")).
    { exists []. rewrite app_nil_r. by repeat split; [simpl; lia|]. }
    set (params := [("fields", PStr _)]).
    destruct (retry_gets (DOI_URL_PREFIX +:+ d) params 3 14 tr)
      as (new & Hnew & Hlen & Hall).
    exists new. split.
    - unfold mbind, io_bind.
      destruct (_request_json_with_retries w (DOI_URL_PREFIX +:+ d) params 3 14 tr)
        as [[item|e] tr1]; simpl in Hnew; subst tr1; [|done].
      destruct (truthy item); simpl; [|done].
      unfold lift. by destruct (enrichment_of_item item).
    - split; [done|]. eapply Forall_impl; [exact Hall|].
      intros q ->. simpl. eauto. }
  destruct Hbody as (new & -> & Hlen & Hall). eauto.
Qed.

(** The title search never raises and sends at most three GETs, all to the
    search endpoint; without a title it sends none. *)
Lemma title_search_result (title : option string) (tr : trace) :
  exists r new,
    title_search w title tr = (Ok r, tr ++ new)
    /\ length (gets new) <= 3
    /\ Forall (fun q => req_url q = SEARCH_URL) (gets new)
    /\ (title = None \/ title = Some "" -> r = None /\ new = []).
Proof.
  unfold title_search.
  destruct title as [t|].
  2:{ exists None, []. rewrite app_nil_r. repeat split; simpl; auto; lia. }
  destruct (decide (t = "")) as [->|Ht].
  { exists None, []. rewrite app_nil_r. repeat split; simpl; auto; lia. }
  match goal with |- context [try_except ?b _ _ tr] => set (body := b) end.
  destruct (try_all_ok body tr) as [r Hr]. exists r. rewrite Hr.
  assert (Hbody : exists new,
            snd (body tr) = tr ++ new /\ length (gets new) <= 3
            /\ Forall (fun q => req_url q = SEARCH_URL) (gets new)).
  { subst body. cbv beta.
    set (params := [("query", PStr t); _; _]).
    destruct (retry_gets SEARCH_URL params 3 14 tr) as (new & Hnew & Hlen & Hall).
    exists new. split.
    - unfold mbind, io_bind.
      destruct (_request_json_with_retries w SEARCH_URL params 3 14 tr)
        as [[data|e] tr1]; simpl in Hnew; subst tr1; [|done].
      destruct (truthy data); simpl; [|done].
      unfold lift. destruct (py_get data "data" (JArr [])) as [items|e]; [|done].
      destruct (truthy items); simpl; [|done].
      destruct (_best_title_match t items) as [item|e]; [|done].
      by destruct (enrichment_of_item item).
    - split; [done|]. eapply Forall_impl; [exact Hall|]. by intros q ->. }
  destruct Hbody as (new & -> & Hlen & Hall).
  exists new. split; [done|]. split; [done|]. split; [done|].
  intros [?|[= ?]]; done.
Qed.

End WithWorld.

End MoreLookupFacts.

Section ExtraLookup.
Import PyStr Py Net UploadAnalyzer NetWords RetryWords RetryFacts MoreRetryFacts
  MoreLookupFacts.

(** X12. [_lookup_semantic_scholar] never raises, whatever the network
    does.  It sends at most six GETs, each to the paper endpoint of a DOI
    or to the title search; without a DOI at most three, all to the title
    search; and with neither DOI nor title it returns [None] and sends
    nothing. *)
Theorem lookup_semantic_scholar_never_raises (w : world)
    (doi title : option string) (tr : trace) :
  exists r new,
    _lookup_semantic_scholar w doi title tr = (Ok r, tr ++ new)
    /\ length (gets new) <= 6
    /\ Forall (fun q => req_url q = SEARCH_URL
                        \/ exists d, req_url q = DOI_URL_PREFIX +:+ d) (gets new)
    /\ (doi = None \/ doi = Some "" ->
        length (gets new) <= 3
        /\ Forall (fun q => req_url q = SEARCH_URL) (gets new)
        /\ (title = None \/ title = Some "" -> r = None /\ new = [])).
Proof.
  assert (Hnodoi : forall tr0,
            exists r new,
              title_search w title tr0 = (Ok r, tr0 ++ new)
              /\ length (gets new) <= 6
              /\ Forall (fun q => req_url q = SEARCH_URL
                                  \/ exists d, req_url q = DOI_URL_PREFIX +:+ d)
                   (gets new)
              /\ (length (gets new) <= 3
                  /\ Forall (fun q => req_url q = SEARCH_URL) (gets new)
                  /\ (title = None \/ title = Some "" -> r = None /\ new = []))).
  { intros tr0.
    destruct (title_search_result w title tr0) as (r & new & Hrun & Hlen & Hall & Hno).
    exists r, new. split; [done|]. split; [lia|].
    split; [eapply Forall_impl; [exact Hall|]; auto|].
    split; [done|]. split; [done|]. exact Hno. }
  unfold _lookup_semantic_scholar.
  destruct doi as [[|c d]|].
  - destruct (Hnodoi tr) as (r & new & ? & ? & ? & ?). exists r, new. auto.
  - destruct (lookup_by_doi_result w (String c d) tr)
      as (exact & new1 & Hrun1 & Hlen1 & Hall1).
    unfold mbind, io_bind. rewrite Hrun1.
    assert (Hdoi : Forall (fun q => req_url q = SEARCH_URL
                                    \/ exists d, req_url q = DOI_URL_PREFIX +:+ d)
                     (gets new1)).
    { eapply Forall_impl; [exact Hall1|]. auto. }
    destruct exact as [e|].
    + exists (Some e), new1. split; [done|]. split; [lia|]. split; [done|].
      by intros [?|?].
    + destruct (title_search_result w title (tr ++ new1))
        as (r & new2 & Hrun2 & Hlen2 & Hall2 & _).
      exists r, (new1 ++ new2). rewrite Hrun2, app_assoc.
      split; [done|]. unfold gets. rewrite omap_app, length_app.
      fold (gets new1) (gets new2). split; [lia|]. split.
      * apply Forall_app. split; [done|].
        eapply Forall_impl; [exact Hall2|]. auto.
      * by intros [?|?].
  - destruct (Hnodoi tr) as (r & new & ? & ? & ? & ?). exists r, new. auto.
Qed.

End ExtraLookup.

(* ===================================================================== *)
(** * Further facts: the combined search *)
(* ===================================================================== *)

Module MoreSearchFacts.
Import PyStr Py Net PaperSearch SearchWords MoreTextFacts.

Lemma strip_nonempty_eqb (s : string) : String.eqb s "" = false -> s <> "".
Proof. intros H ->. discriminate. Qed.

(** The loop appends to [papers]; it appends at most one paper per item,
    each with a title and an abstract. *)
Lemma papers_loop_spec (data : list json) (papers out : list Paper) :
  papers_loop data papers = Ok out ->
  exists new,
    out = papers ++ new /\ length new <= length data
    /\ Forall from_semantic_scholar new.
Proof.
  revert papers. induction data as [|item data IH]; intros papers Hrun.
  { injection Hrun as <-. exists []. rewrite app_nil_r. by repeat split. }
  cbn [papers_loop] in Hrun. unfold mbind, result_bind in Hrun.
  destruct (py_get item "title" JNull) as [tv|]; [|done].
  destruct (py_or_empty_strip tv) as [t|] eqn:Ht; [|done].
  destruct (py_get item "abstract" JNull) as [av|]; [|done].
  destruct (py_or_empty_strip av) as [a|] eqn:Ha; [|done].
  destruct (String.eqb t "" || String.eqb a "") eqn:Hempty.
  { apply IH in Hrun as (new & -> & Hlen & Hall).
    exists new. split; [done|]. split; [simpl; lia|done]. }
  apply orb_false_iff in Hempty as [Hte Hae].
  destruct (py_get item "authors" (JArr [])) as [auv|]; [|done].
  destruct (py_iter auv) as [aui|]; [|done].
  destruct (author_names aui) as [au|]; [|done].
  destruct (py_get item "url" JNull) as [uv|]; [|done].
  destruct (py_get item "openAccessPdf" JNull) as [oa|]; [|done].
  destruct (py_get (py_or oa (JObj [])) "url" JNull) as [pv|]; [|done].
  destruct (py_get item "year" JNull) as [y|]; [|done].
  destruct (py_get item "venue" JNull) as [vv|]; [|done].
  destruct (py_get item "citationCount" JNull) as [cc|]; [|done].
  apply IH in Hrun as (new & -> & Hlen & Hall).
  eexists (_ :: new). rewrite <- app_assoc. split; [done|].
  split; [simpl; lia|]. constructor; [|done].
  assert (Hstripped : forall v s, py_or_empty_strip v = Ok s -> strip s = s).
  { intros v s. unfold py_or_empty_strip.
    destruct (py_or v (JStr "")); try done. intros [= <-]. apply strip_idem. }
  repeat split; simpl; eauto using strip_nonempty_eqb.
Qed.

Section WithWorld.
Variable w : world.

(** [_search_semantic_scholar] sends one GET, whatever the outcome. *)
Lemma search_semantic_scholar_trace (query : string) (max_results : Z) (tr : trace) :
  snd (_search_semantic_scholar w query max_results tr)
  = tr ++ [EvGet (search_request query max_results)].
Proof.
  unfold _search_semantic_scholar, mbind, io_bind, requests_get, lift.
  fold (search_request query max_results).
  destruct (http w tr (search_request query max_results)) as [r|]; [|done].
  destruct (raise_for_status r); [|done].
  destruct (json_body r) as [payload|]; [|done].
  destruct (py_get payload "data" (JArr [])) as [data|]; [|done].
  by destruct (py_iter data).
Qed.

(** What [_search_semantic_scholar] returns was read off a response with a
    status outside 400..599. *)
Lemma search_semantic_scholar_ok (query : string) (max_results : Z)
    (tr tr' : trace) (papers : list Paper) :
  _search_semantic_scholar w query max_results tr = (Ok papers, tr') ->
  exists r payload data items,
    http w tr (search_request query max_results) = Ok r
    /\ raise_for_status r = Ok tt
    /\ json_body r = Ok payload
    /\ py_get payload "data" (JArr []) = Ok data
    /\ py_iter data = Ok items
    /\ papers_loop items [] = Ok papers.
Proof.
  unfold _search_semantic_scholar, mbind, io_bind, requests_get, lift.
  fold (search_request query max_results).
  destruct (http w tr (search_request query max_results)) as [r|]; [|done].
  destruct (raise_for_status r) as [[]|] eqn:Hst; [|done].
  destruct (json_body r) as [payload|] eqn:Hp; [|done].
  destruct (py_get payload "data" (JArr [])) as [data|] eqn:Hd; [|done].
  destruct (py_iter data) as [items|] eqn:Hi; [|done].
  intros [= Hloop _]. exists r, payload, data, items. by repeat split.
Qed.




End WithWorld.







End MoreSearchFacts.

Section ExtraSearch.
Import PyStr Py Net PaperSearch SearchWords MoreTextFacts MoreSearchFacts
  Examples MoreExamples.

(** X13. [_search_semantic_scholar] sends exactly one GET, with the limit
    [min(max_results, 100)] and the timeout of the service, whatever the
    outcome.  A response with a 4xx or 5xx status raises [HTTPError].  When
    it returns, every paper has a non-empty title and abstract without
    surrounding whitespace and the source "Semantic Scholar", and there are
    at most as many papers as records in the payload. *)
Theorem search_semantic_scholar_papers (w : world) (query : string)
    (max_results : Z) (tr tr' : trace) (res : result (list Paper)) :
  _search_semantic_scholar w query max_results tr = (res, tr') ->
  tr' = tr ++ [EvGet (search_request query max_results)]
  /\ (forall r,
        http w tr (search_request query max_results) = Ok r ->
        (400 <= status_code r < 600)%Z ->
        res = Raise RequestsHTTPError)
  /\ (forall papers,
        res = Ok papers ->
        Forall from_semantic_scholar papers
        /\ exists r payload data items,
             http w tr (search_request query max_results) = Ok r
             /\ json_body r = Ok payload
             /\ py_get payload "data" (JArr []) = Ok data
             /\ py_iter data = Ok items
             /\ length papers <= length items).
Proof.
  intros Hrun. split; [|split].
  - pose proof (search_semantic_scholar_trace w query max_results tr) as Htr.
    by rewrite Hrun in Htr.
  - intros r Hr Hst. revert Hrun.
    unfold _search_semantic_scholar, mbind, io_bind, requests_get, lift.
    fold (search_request query max_results). rewrite Hr.
    unfold raise_for_status.
    assert (Hb : ((400 <=? status_code r) && (status_code r <? 600))%Z = true)
      by (apply andb_true_iff; split; [apply Z.leb_le|apply Z.ltb_lt]; lia).
    rewrite Hb. congruence.
  - intros papers ->.
    apply search_semantic_scholar_ok in Hrun
      as (r & payload & data & items & Hr & _ & Hp & Hd & Hi & Hloop).
    apply papers_loop_spec in Hloop as (new & -> & Hlen & Hall).
    split; [done|]. exists r, payload, data, items. by repeat split.
Qed.

Lemma search_semantic_scholar_papers_witness :
  Forall from_semantic_scholar
    [ mkPaper "Deep Nets" "We train nets." [] (Some 2021%Z) "Semantic Scholar"
        "" "" "" None ].
Proof.
  pose proof (search_semantic_scholar_papers world_both_answer "nets" 12 []
                [EvGet (search_request "nets" 12)]
                (Ok [ mkPaper "Deep Nets" "We train nets." [] (Some 2021%Z)
                        "Semantic Scholar" "" "" "" None ])
                eq_refl) as (_ & _ & H).
  destruct (H _ eq_refl) as [Hall _]. exact Hall.
Defined.





End ExtraSearch.

(* ===================================================================== *)
(** * Further facts: title tokens and the best match *)
(* ===================================================================== *)

Module MoreTitleFacts.
Import PyStr PySort Py UploadAnalyzer TitleWords MoreTextFacts SentenceFacts.

(** Every word that [split] returns is non-empty and made of the
    characters of the text that are not whitespace. *)
Lemma split_ws_from_Forall (Q : ascii -> Prop) (cur s : string) :
  Forall Q (chars cur) ->
  Forall (fun c => isspace c = false -> Q c) (chars s) ->
  Forall (fun t => t <> "" /\ Forall Q (chars t)) (split_ws_from cur s).
Proof.
  revert cur. induction s as [|c s IH]; intros cur Hcur Hs; simpl.
  - destruct (decide (cur = "")); constructor; [done|constructor].
  - apply Forall_cons in Hs as [Hc Hs].
    destruct (isspace c) eqn:Hsp.
    + assert (Hrest : Forall (fun t => t <> "" /\ Forall Q (chars t))
                        (split_ws_from "" s))
        by (apply IH; [constructor|done]).
      destruct (decide (cur = "")); [done|]. by constructor.
    + apply IH; [|done]. rewrite chars_app. apply Forall_app. split; [done|].
      simpl. constructor; [auto|constructor].
Qed.

Lemma sub_other_with_space_chars (s : string) :
  Forall (fun c => isspace c = false -> is_az09 c = true)
    (chars (sub_other_with_space s)).
Proof.
  induction s as [|c s IH]; simpl; [constructor|]. constructor; [|done].
  destruct (is_az09_space c) eqn:Hc; [|done].
  revert Hc. unfold is_az09_space, is_az09, isspace.
  destruct c as [[] [] [] [] [] [] [] []]; simpl; done.
Qed.

Lemma sub_other_with_space_lower (s : string) :
  sub_other_with_space (lower (lower s)) = sub_other_with_space (lower s).
Proof. by rewrite lower_idem. Qed.

Lemma list_filter_Forall {A : Type} (f : A -> bool) (P : A -> Prop) (l : list A) :
  Forall P l -> Forall (fun x => P x /\ f x = true) (List.filter f l).
Proof.
  induction 1 as [|x l Hx Hl IH]; simpl; [constructor|].
  destruct (f x) eqn:Hf; [by constructor|done].
Qed.

(** A string always tokenizes; its tokens are those of its lower-case
    form. *)
Lemma tokenize_title_str (s : string) :
  _tokenize_title (JStr s)
  = Ok (List.filter (fun t => negb (bool_decide (t ∈ TITLE_STOP)))
          (List.filter (fun t => (2 <? String.length t)%nat)
             (split_ws (sub_other_with_space (lower s))))).
Proof.
  unfold _tokenize_title, py_or_empty_lower, py_or. simpl.
  by destruct (String.eqb_spec s "") as [->|].
Qed.

Lemma tokenize_title_Forall (text : json) (tokens : list string) :
  _tokenize_title text = Ok tokens -> Forall title_token tokens.
Proof.
  unfold _tokenize_title. destruct (py_or_empty_lower text) as [s|]; [|done].
  simpl. intros [= <-].
  pose proof (split_ws_from_Forall (fun c => is_az09 c = true) ""
                (sub_other_with_space s) (Forall_nil_2 _)
                (sub_other_with_space_chars s)) as Hsplit.
  apply (list_filter_Forall (fun t => (2 <? String.length t)%nat)) in Hsplit.
  apply (list_filter_Forall (fun t => negb (bool_decide (t ∈ TITLE_STOP))))
    in Hsplit.
  eapply Forall_impl; [exact Hsplit|].
  intros t [[[_ Hchars] Hlen] Hstop]. split; [|split; [done|]].
  - by apply Nat.ltb_lt in Hlen.
  - apply negb_true_iff in Hstop. by apply bool_decide_eq_false in Hstop.
Qed.

(** [mapM] over the [result] monad returns when every call returns. *)
Lemma mapM_result_Forall2 {A B : Type} (f : A -> result B) (l : list A)
    (k : list B) :
  mapM f l = Ok k -> Forall2 (fun x y => f x = Ok y) l k.
Proof.
  revert k. induction l as [|x l IH]; intros k; simpl.
  - intros [= <-]. constructor.
  - destruct (f x) as [y|] eqn:Hy; [|done]. simpl.
    destruct (mapM f l) as [k'|]; [|done]. simpl.
    intros [= <-]. constructor; [done|]. by apply IH.
Qed.

Section Head.
Context {A K : Type}.
Variable leb : K -> K -> bool.
Variable key : A -> K.
Hypothesis leb_total : forall a b, leb a b = false -> leb b a = true.
Hypothesis leb_trans :
  forall a b c, leb a b = true -> leb b c = true -> leb a c = true.

(** The sorted list starts with the first element of largest key. *)
Lemma sort_desc_head (l : list A) :
  l <> [] ->
  exists i x,
    l !! i = Some x /\ head (sort_desc leb key l) = Some x
    /\ forall j y, l !! j = Some y ->
         leb (key y) (key x) = true /\ (j < i -> leb (key x) (key y) = false).
Proof.
  assert (leb_refl : forall a, leb a a = true).
  { intros a. pose proof (leb_total a a) as H. destruct (leb a a); [done|]. by apply H. }
  induction l as [|y l IH]; [done|]. intros _.
  destruct l as [|z l].
  { exists 0, y. split; [done|]. split; [done|].
    intros [|j] y' Hj; [|done]. injection Hj as <-. split; [done|lia]. }
  destruct IH as (i & x & Hi & Hhead & Hmax); [done|].
  change (sort_desc leb key (y :: z :: l))
    with (insert_desc leb key y (sort_desc leb key (z :: l))).
  destruct (sort_desc leb key (z :: l)) as [|x' r]; [done|].
  injection Hhead as ->. cbn [insert_desc].
  destruct (leb (key x) (key y)) eqn:Hle.
  - exists 0, y. split; [done|]. split; [done|].
    intros [|j] y' Hj.
    + injection Hj as <-. split; [done|lia].
    + split; [|lia]. apply (leb_trans _ (key x)); [|done]. by apply (Hmax j).
  - exists (S i), x. split; [done|]. split; [done|].
    intros [|j] y' Hj.
    + injection Hj as <-. split; [by apply leb_total|done].
    + destruct (Hmax j y' Hj) as [? Hlt]. split; [done|]. intros ?. apply Hlt. lia.
Qed.

End Head.

Lemma Qle_bool_total (a b : Q) : Qle_bool a b = false -> Qle_bool b a = true.
Proof.
  intros H. apply Qle_bool_iff. apply Qlt_le_weak, Qnot_le_lt.
  intros Hle. apply Qle_bool_iff in Hle. congruence.
Qed.

Lemma Qle_bool_trans (a b c : Q) :
  Qle_bool a b = true -> Qle_bool b c = true -> Qle_bool a c = true.
Proof. rewrite !Qle_bool_iff. apply Qle_trans. Qed.

(** A ratio of two counts, the first at most the second. *)
Lemma ratio_bounds (a b : nat) :
  a <= b -> 0 < b ->
  let q := (inject_Z (Z.of_nat a) / inject_Z (Z.of_nat b))%Q in
  (0 <= q)%Q /\ (q <= 1)%Q /\ ((q == 1)%Q <-> a = b) /\ ((q == 0)%Q <-> a = 0).
Proof.
  intros Hab Hb q. subst q.
  destruct b as [|b]; [lia|].
  unfold Qdiv, Qinv, Qmult, Qle, Qeq, inject_Z.
  rewrite Nat2Z.inj_succ. cbn [Qnum Qden].
  destruct (Z.succ (Z.of_nat b)) as [|p|p] eqn:Hp; [lia| |lia].
  cbn [Qnum Qden]. rewrite !Pos2Z.inj_mul. lia.
Qed.

End MoreTitleFacts.

Section ExtraTitles.
Import PyStr PySort Py UploadAnalyzer TitleWords MoreTextFacts MoreTitleFacts.

(** X16. Every token that [_tokenize_title] returns has more than two
    characters, all of them lower-case ASCII letters or digits, and is none
    of the ten stop words.  A string always tokenizes, and to the same
    tokens as its lower-case form; [None] and the empty string give no
    token. *)
Theorem tokenize_title_tokens (text : json) :
  (forall tokens, _tokenize_title text = Ok tokens -> Forall title_token tokens)
  /\ (forall s, exists tokens,
        _tokenize_title (JStr s) = Ok tokens
        /\ _tokenize_title (JStr (lower s)) = Ok tokens)
  /\ (truthy text = false -> _tokenize_title text = Ok []).
Proof.
  split; [apply tokenize_title_Forall|]. split.
  - intros s. eexists. split; [apply tokenize_title_str|].
    by rewrite tokenize_title_str, lower_idem.
  - intros Hf. unfold _tokenize_title, py_or_empty_lower, py_or. by rewrite Hf.
Qed.

(** X17. [_best_title_match] on a list of records.  When the query title
    has no token, it returns the first record.  Otherwise every record has
    a score, and it returns the first record of largest score: no record
    scores higher, and every record before it scores lower. *)
Theorem best_title_match_first_maximal (query_title : string)
    (query : list string) (elems : list json) (item : json) :
  _tokenize_title (JStr query_title) = Ok query ->
  _best_title_match query_title (JArr elems) = Ok item ->
  (query = [] -> head elems = Some item)
  /\ (query <> [] ->
      exists i best,
        elems !! i = Some item
        /\ score (list_to_set query) item = Ok best
        /\ forall j other, elems !! j = Some other ->
             exists s, score (list_to_set query) other = Ok s
                       /\ (s <= best)%Q /\ (j < i -> (s < best)%Q)).
Proof.
  intros Hq. unfold _best_title_match. rewrite Hq. simpl.
  destruct (decide (list_to_set query = (∅ : gset string))) as [He|Hne].
  - intros Hfirst. split.
    + intros _. destruct elems as [|x elems]; simpl in Hfirst; [done|].
      by injection Hfirst as <-.
    + intros Hquery. destruct query as [|t query]; [done|]. set_solver.
  - destruct (mapM (score (list_to_set query)) elems) as [keys|] eqn:Hkeys; [|done].
    simpl. apply mapM_result_Forall2 in Hkeys.
    intros Hranked. split; [by intros ->|]. intros _.
    destruct elems as [|x elems].
    { apply Forall2_nil_inv_l in Hkeys as ->. done. }
    destruct (sort_desc_head Qle_bool fst Qle_bool_total Qle_bool_trans
                (zip keys (x :: elems))) as (i & [best it] & Hi & Hhead & Hmax).
    { apply Forall2_cons_inv_l in Hkeys as (k & keys' & _ & _ & ->). done. }
    destruct (sort_desc Qle_bool fst (zip keys (x :: elems))) as [|[k0 it0] r];
      [done|].
    injection Hhead as -> ->. injection Hranked as ->.
    apply lookup_zip_Some in Hi as [Hki Hei].
    exists i, best. split; [done|]. split.
    { by apply (Forall2_lookup_lr _ _ _ i item best Hkeys). }
    intros j other Hj.
    destruct (Forall2_lookup_l _ _ _ j other Hkeys Hj) as (s & Hkj & Hs).
    exists s. split; [done|].
    destruct (Hmax j (s, other)) as [Hle Hlt].
    { apply lookup_zip_Some. by split. }
    simpl in Hle, Hlt. apply Qle_bool_iff in Hle. split; [done|].
    intros Hji. apply Qnot_le_lt. intros Hbs. apply Qle_bool_iff in Hbs.
    rewrite Hlt in Hbs; [done|lia].
Qed.

Lemma best_title_match_first_maximal_witness :
  exists i best,
    [ JObj [("title", JStr "Protein folding dynamics")];
      JObj [("title", JStr "A survey of graph neural networks")];
      JObj [("title", JStr "Graph Neural Networks")] ] !! i
    = Some (JObj [("title", JStr "Graph Neural Networks")])
    /\ score (list_to_set ["graph"; "neural"; "networks"])
         (JObj [("title", JStr "Graph Neural Networks")]) = Ok best.
Proof.
  assert (Hq : _tokenize_title (JStr "Graph neural networks")
               = Ok ["graph"; "neural"; "networks"])
    by (vm_compute; reflexivity).
  assert (Hm : _best_title_match "Graph neural networks"
                 (JArr [ JObj [("title", JStr "Protein folding dynamics")];
                         JObj [("title", JStr "A survey of graph neural networks")];
                         JObj [("title", JStr "Graph Neural Networks")] ])
               = Ok (JObj [("title", JStr "Graph Neural Networks")]))
    by (vm_compute; reflexivity).
  destruct (best_title_match_first_maximal _ _ _ _ Hq Hm) as [_ H].
  destruct H as (i & best & Hi & Hs & _); [discriminate|].
  exists i, best. split; [exact Hi|exact Hs].
Defined.

(** X18. The score of a record is the Jaccard index of the token sets of
    the query and of the record's title: 0 when the title has no token, and
    otherwise the number of tokens the two sets share divided by the number
    of tokens of their union, which is positive (the code returns the
    float nearest to this quotient).  It is a number between 0 and 1, equal
    to 1 exactly when the title has a token and both sets coincide, and to
    0 exactly when the sets share no token. *)
Theorem score_is_jaccard_index (query_tokens : gset string) (item : json) (s : Q) :
  score query_tokens item = Ok s ->
  exists title_value cand,
    py_get item "title" (JStr "") = Ok title_value
    /\ _tokenize_title title_value = Ok cand
    /\ s = (if decide (list_to_set (C := gset string) cand = ∅) then 0
            else inject_Z (Z.of_nat (size (query_tokens ∩ list_to_set cand)))
                 / inject_Z (Z.of_nat (size (query_tokens ∪ list_to_set cand))))%Q
    /\ (cand <> [] -> 0 < size (query_tokens ∪ list_to_set cand))
    /\ (0 <= s)%Q /\ (s <= 1)%Q
    /\ ((s == 1)%Q <-> cand <> [] /\ query_tokens = list_to_set cand)
    /\ ((s == 0)%Q <-> query_tokens ## list_to_set (C := gset string) cand).
Proof.
  unfold score. destruct (py_get item "title" (JStr "")) as [tv|]; [|done].
  simpl. destruct (_tokenize_title tv) as [cand|] eqn:Hcand; [|done]. simpl.
  set (cand_tokens := list_to_set (C := gset string) cand).
  intros Hs. exists tv, cand. split; [done|]. split; [done|].
  destruct (decide (cand_tokens = ∅)) as [He|Hne].
  { injection Hs as <-. split; [by rewrite decide_True|]. split.
    { intros Hc. destruct cand; [done|]. unfold cand_tokens in He. set_solver. }
    split; [done|]. split; [done|]. split.
    - split; [done|]. intros [Hc _]. destruct cand; [done|]. set_solver.
    - split; [|done]. intros _. unfold cand_tokens in He. set_solver. }
  assert (Hsub : size (query_tokens ∩ cand_tokens)
                 <= size (query_tokens ∪ cand_tokens))
    by (apply subseteq_size; set_solver).
  assert (Hpos : 0 < size (query_tokens ∪ cand_tokens)).
  { assert (size (query_tokens ∪ cand_tokens) <> 0); [|lia].
    intros H0. apply size_empty_inv in H0. apply Hne. set_solver. }
  destruct (Nat.eqb_spec (size (query_tokens ∪ cand_tokens)) 0) as [|_]; [lia|].
  injection Hs as <-. split; [by rewrite decide_False|]. split; [done|].
  destruct (ratio_bounds _ _ Hsub Hpos) as (H0 & H1 & Hone & Hzero).
  split; [done|]. split; [done|]. split.
  - rewrite Hone. split.
    + intros Heq. split; [intros ->; by apply Hne|].
      assert (Hsame : query_tokens ∪ cand_tokens ≡ query_tokens ∩ cand_tokens).
      { symmetry. apply set_subseteq_size_equiv; [set_solver|lia]. }
      apply leibniz_equiv. set_solver.
    + intros [_ ->]. fold cand_tokens. f_equal. set_solver.
  - rewrite Hzero. split.
    + intros H. apply size_empty_inv in H. set_solver.
    + intros H. apply size_empty_iff. set_solver.
Qed.

Lemma score_is_jaccard_index_witness :
  exists cand,
    _tokenize_title (JStr "A survey of graph neural networks") = Ok cand
    /\ (inject_Z 3 / inject_Z 4)%Q
       = (inject_Z (Z.of_nat (size (list_to_set (C := gset string)
                                      ["graph"; "neural"; "networks"]
                                    ∩ list_to_set cand)))
          / inject_Z (Z.of_nat (size (list_to_set (C := gset string)
                                        ["graph"; "neural"; "networks"]
                                      ∪ list_to_set cand))))%Q
    /\ (0 <= inject_Z 3 / inject_Z 4)%Q /\ (inject_Z 3 / inject_Z 4 <= 1)%Q.
Proof.
  assert (Hs : score (list_to_set ["graph"; "neural"; "networks"])
                 (JObj [("title", JStr "A survey of graph neural networks")])
               = Ok (inject_Z 3 / inject_Z 4)%Q)
    by (vm_compute; reflexivity).
  destruct (score_is_jaccard_index _ _ _ Hs)
    as (tv & cand & Htv & Hcand & Heq & _ & Hge & Hle & _).
  injection Htv as <-. exists cand. split; [exact Hcand|].
  split; [|split; [exact Hge|exact Hle]].
  assert (Hc : cand = ["survey"; "graph"; "neural"; "networks"]).
  { assert (Ht : _tokenize_title (JStr "A survey of graph neural networks")
                 = Ok ["survey"; "graph"; "neural"; "networks"])
      by (vm_compute; reflexivity).
    congruence. }
  rewrite Heq, Hc. vm_compute. reflexivity.
Defined.

End ExtraTitles.

(* ===================================================================== *)
(** * Further facts: the similarity graph as a simple graph *)
(* ===================================================================== *)

Module MoreGraphFacts.
Import CorpusAnalyzer GraphFacts.







Section Build.
Variable sim : nat -> nat -> Q.


End Build.

End MoreGraphFacts.

Section ExtraGraph.
Import CorpusAnalyzer GraphFacts MoreGraphFacts Examples.



End ExtraGraph.

Section ExtraUploadText.
Import PyStr SentenceWords UploadText UploadWords MoreTextFacts MoreStringFacts.

(** X20. What [_normalize_whitespace] returns is compact: it has no NUL,
    its only white space is single spaces, and it neither starts nor ends
    with one; in particular it has no line break.  The compact texts are
    exactly the texts that the function leaves unchanged, so normalizing
    twice is normalizing once. *)
Theorem normalize_whitespace_compact (text : string) :
  compact (_normalize_whitespace text)
  /\ one_line (_normalize_whitespace text) = true
  /\ (compact text <-> _normalize_whitespace text = text)
  /\ _normalize_whitespace (_normalize_whitespace text) = _normalize_whitespace text.
Proof.
  pose proof normalize_whitespace_is_compact as Hc.
  assert (Hfix : forall t, compact t -> _normalize_whitespace t = t).
  { intros t (Hn & Hcol & Hs). unfold _normalize_whitespace.
    rewrite (replace_nul_fixed t Hn). unfold sub_ws_with_space.
    by rewrite (sub_ws_run_fixed t Hcol). }
  split; [apply Hc|]. split; [|split; [split|]].
  - apply collapsed_one_line, (Hc text).
  - apply Hfix.
  - intros <-. apply Hc.
  - apply Hfix, Hc.
Qed.

(** X21. What [_normalize_query_title] returns neither starts nor ends
    with white space or with one of [. , : ; ( ) [ ] { }], and its white
    space is single spaces; the function leaves it unchanged when applied
    again.  A missing title gives the empty string. *)
Theorem normalize_query_title_trimmed (text : option string) :
  let result := _normalize_query_title text in
  trimmed_of TITLE_TRIM result
  /\ strip result = result
  /\ collapsed result = true
  /\ _normalize_query_title (Some result) = result
  /\ (text = None \/ text = Some "" -> result = "").
Proof.
  intros result.
  assert (Htrim : trimmed_of TITLE_TRIM result).
  { split.
    - intros c Hc. apply first_char_rstrip_chars in Hc.
      by apply first_char_lstrip_chars in Hc.
    - intros c. apply last_char_rstrip_chars. }
  assert (Hcol : collapsed result = true).
  { apply collapsed_rstrip_chars, collapsed_lstrip_chars, sub_ws_run_collapsed. }
  assert (Hends : forall c, isspace c = true -> c = " "%char ->
            char_in c TITLE_TRIM = false -> False).
  { intros c _ ->. done. }
  assert (Hstrip : strip result = result).
  { destruct Htrim as [Hf Hl]. apply strip_fixed.
    - intros c Hc. destruct (isspace c) eqn:Hsp; [|done]. exfalso.
      apply (Hends c Hsp); [by apply (collapsed_first_space result)|by apply Hf].
    - intros c Hc. destruct (isspace c) eqn:Hsp; [|done]. exfalso.
      apply (Hends c Hsp); [by apply (collapsed_last_space result)|by apply Hl]. }
  split; [done|]. split; [done|]. split; [done|]. split.
  - change (_normalize_query_title (Some result))
      with (strip_chars TITLE_TRIM (sub_ws_with_space (strip result))).
    rewrite Hstrip.
    unfold sub_ws_with_space. rewrite (sub_ws_run_fixed result Hcol).
    destruct Htrim as [Hf Hl]. unfold strip_chars.
    by rewrite (lstrip_chars_fixed _ _ Hf), (rstrip_chars_fixed _ _ Hl).
  - intros [-> | ->]; reflexivity.
Qed.

(** X22. When [_infer_title] returns a title, it is the first of the first
    twenty lines that, stripped, has 15 to 180 characters and does not start
    with "abstract" or "introduction" in any case; otherwise no such line
    exists.  On a compact text, which is one line, the answer is the whole
    text or nothing; this is the case of the text that
    [analyze_uploaded_paper] passes. *)
Theorem infer_title_first_line (text : string) :
  let result := _infer_title text in
  (result <> "" ->
   exists i line,
     i < 20 /\ splitlines text !! i = Some line /\ result = strip line
     /\ 15 <= String.length result <= 180
     /\ startswith "abstract" (lower result) = false
     /\ startswith "introduction" (lower result) = false
     /\ forall j other, j < i -> splitlines text !! j = Some other ->
          title_like (strip other) = false)
  /\ (result = "" ->
      forall i line, i < 20 -> splitlines text !! i = Some line ->
        title_like (strip line) = false)
  /\ (compact text -> result = if title_like text then text else "")
  /\ _infer_title (_normalize_whitespace text)
     = if title_like (_normalize_whitespace text)
       then _normalize_whitespace text else "".
Proof.
  intros result.
  assert (Hlike : forall s, title_like s = true ->
            15 <= String.length s <= 180
            /\ startswith "abstract" (lower s) = false
            /\ startswith "introduction" (lower s) = false /\ s <> "").
  { intros s. unfold title_like. rewrite !andb_true_iff, negb_true_iff, orb_false_iff.
    intros [[H1 H2] [H3 H4]]. apply Nat.leb_le in H1, H2.
    repeat split; [done..|]. intros ->. simpl in H1. lia. }
  assert (Hcompact : forall t, compact t ->
            _infer_title t = if title_like t then t else "").
  { intros t (_ & Hcol & Hstrip). unfold _infer_title.
    rewrite (splitlines_one_line t (collapsed_one_line t Hcol)).
    destruct (decide (t = "")) as [->|_]; [done|].
    simpl. by rewrite Hstrip. }
  split; [|split; [|split]].
  - intros Hres.
    destruct (infer_title_loop_spec (take 20 (splitlines text)))
      as [[He _]|(i & line & Hi & Hr & Ht & Hfirst)]; [done|].
    apply lookup_take_Some in Hi as [Hi Hlt].
    exists i, line. change (result = strip line) in Hr. rewrite <- Hr in Ht.
    destruct (Hlike result Ht) as (Hlen & Ha & Hb & _).
    split; [lia|]. split; [exact Hi|]. split; [exact Hr|]. split; [exact Hlen|].
    split; [exact Ha|]. split; [exact Hb|].
    intros j other Hj Ho. apply (Hfirst j); [done|].
    apply lookup_take_Some. split; [done|lia].
  - intros Hres i line Hi Hl.
    destruct (infer_title_loop_spec (take 20 (splitlines text)))
      as [[_ Hall]|(i' & line' & _ & Hr & Ht & _)].
    + rewrite Forall_forall in Hall. apply Hall.
      apply (list_elem_of_lookup_2 _ i). apply lookup_take_Some. by split.
    + change (result = strip line') in Hr. rewrite <- Hr, Hres in Ht. done.
  - apply Hcompact.
  - apply Hcompact, normalize_whitespace_is_compact.
Qed.

(** X23. [_extract_sections_by_headings] only has keys of the heading
    table, and every section it collects is non-empty and at most 2200
    characters long.  On a text without line break it collects nothing,
    because no line follows a heading: for the text that
    [analyze_uploaded_paper] passes, which went through
    [_normalize_whitespace], the result is always the empty dict, and
    [_pick] keeps every section of the sentence extractor. *)
Theorem extract_sections_by_headings_needs_lines (text : string) :
  (forall key v,
     _extract_sections_by_headings text !! key = Some v ->
     key ∈ [ "literature_review"; "method_used"; "contributions"; "limitations";
             "future_work"; "citations" ]
     /\ v <> "" /\ String.length v <= 2200)
  /\ (one_line text = true -> _extract_sections_by_headings text = ∅)
  /\ _extract_sections_by_headings (_normalize_whitespace text) = ∅
  /\ (forall key fallback,
        _pick (_extract_sections_by_headings (_normalize_whitespace text) !! key)
          fallback
        = fallback).
Proof.
  assert (Hone : forall t, one_line t = true -> _extract_sections_by_headings t = ∅).
  { intros t Ht. unfold _extract_sections_by_headings.
    rewrite (splitlines_one_line t Ht).
    destruct (decide (t = "")) as [->|_]; [done|].
    rewrite fmap_cons, fmap_nil. cbn [List.filter].
    destruct (negb (String.eqb (strip t) "")); [|done].
    apply sections_loop_nothing. intros patterns idx Hidx.
    apply find_heading_from_bound in Hidx. simpl in Hidx.
    assert (idx = 0) as -> by lia. reflexivity. }
  assert (Hnorm : _extract_sections_by_headings (_normalize_whitespace text) = ∅)
    by apply Hone, collapsed_one_line, normalize_whitespace_is_compact.
  split; [|split; [apply Hone|split; [exact Hnorm|]]].
  2:{ intros key fallback. by rewrite Hnorm, lookup_empty. }
  intros key v. unfold _extract_sections_by_headings.
  destruct (List.filter _ (strip <$> splitlines text)) as [|ln filtered];
    [done|].
  apply (sections_loop_inv
           (fun k v => k ∈ [ "literature_review"; "method_used"; "contributions";
                             "limitations"; "future_work"; "citations" ]
                       /\ v <> "" /\ String.length v <= 2200)); [done|].
  intros k s Hk Hs. split; [exact Hk|]. split.
  - by apply (substring_nonempty 2199).
  - apply substring_length_le.
Qed.

End ExtraUploadText.

(* ===================================================================== *)
(** * Further facts: the year of an uploaded text *)
(* ===================================================================== *)

Module MoreYearFacts.
Import PyStr UploadText.

Lemma is_digit_bounds (c : ascii) :
  is_digit c = true -> (48 <= Z.of_N (N_of_ascii c) <= 57)%Z.
Proof.
  unfold is_digit. intros [H1 H2]%andb_true_iff.
  apply N.leb_le in H1, H2. lia.
Qed.

(** A match is a number from 1900 to 2099. *)
Lemma year_at_range (s y : string) :
  year_at s = Some y -> (1900 <= int_of_digits y <= 2099)%Z.
Proof.
  destruct s as [|a [|b [|c [|d rest]]]]; try done. unfold year_at.
  destruct (_ && is_digit c && is_digit d && _) eqn:Hm; [|done].
  intros [= <-].
  apply andb_true_iff in Hm as [Hm _].
  apply andb_true_iff in Hm as [Hm Hd].
  apply andb_true_iff in Hm as [Hab Hc].
  apply is_digit_bounds in Hc, Hd.
  unfold int_of_digits. cbn [chars list_ascii_of_string fold_left].
  apply orb_true_iff in Hab as [Hab|Hab];
    apply andb_true_iff in Hab as [Ha Hb];
    apply N.eqb_eq in Ha, Hb; rewrite Ha, Hb; lia.
Qed.

Lemma find_years_range (skip : nat) (prev_word : bool) (s : string) :
  Forall (fun y => (1900 <= int_of_digits y <= 2099)%Z)
    (find_years skip prev_word s).
Proof.
  revert skip prev_word. induction s as [|c s IH]; intros skip prev_word;
    [constructor|].
  cbn [find_years]. destruct skip as [|k]; [|apply IH].
  destruct prev_word; [apply IH|].
  destruct (year_at (String c s)) as [y|] eqn:Hy; [|apply IH].
  constructor; [by apply year_at_range in Hy|apply IH].
Qed.

Lemma list_filter_all {A : Type} (f : A -> bool) (l : list A) :
  Forall (fun x => f x = true) l -> List.filter f l = l.
Proof.
  induction 1 as [|x l Hx _ IH]; simpl; [done|]. by rewrite Hx, IH.
Qed.

Lemma substring_idem (n : nat) (s : string) :
  String.substring 0 n (String.substring 0 n s) = String.substring 0 n s.
Proof.
  revert s. induction n as [|n IH]; intros [|c s]; simpl; try done.
  by rewrite IH.
Qed.

End MoreYearFacts.

Section ExtraYear.
Import PyStr UploadText MoreYearFacts.

(** X24. A year that [_infer_year] returns lies between 1900 and 2099.
    The test [1900 <= int(y) <= 2100] never rejects a match, so the result
    is the first match of the pattern, if any; and only the first 6000
    characters of the text count. *)
Theorem infer_year_first_match (text : string) :
  (forall y, _infer_year text = Some y -> (1900 <= y <= 2099)%Z)
  /\ _infer_year text
     = int_of_digits <$> head (find_years 0 false (String.substring 0 6000 text))
  /\ _infer_year (String.substring 0 6000 text) = _infer_year text.
Proof.
  assert (Hfirst : forall t,
            _infer_year t
            = int_of_digits
                <$> head (find_years 0 false (String.substring 0 6000 t))).
  { intros t. unfold _infer_year.
    pose proof (find_years_range 0 false (String.substring 0 6000 t)) as Hall.
    destruct (find_years 0 false (String.substring 0 6000 t)) as [|y nums] eqn:Hn;
      [done|].
    rewrite list_filter_all; [done|].
    eapply Forall_impl; [exact Hall|]. intros y' [H1 H2]. simpl.
    apply andb_true_iff. split; apply Z.leb_le; lia. }
  split; [|split; [apply Hfirst|]].
  - intros y. rewrite Hfirst.
    pose proof (find_years_range 0 false (String.substring 0 6000 text)) as Hall.
    destruct (find_years 0 false (String.substring 0 6000 text)) as [|y0 nums];
      [done|].
    intros [= <-]. by apply Forall_cons in Hall as [? _].
  - by rewrite !Hfirst, substring_idem.
Qed.

End ExtraYear.

(* ===================================================================== *)
(** * Further facts: the stable sort and the frequent terms *)
(* ===================================================================== *)

Module MoreSortFacts.
Import PySort SortWords.

Section Sorting.
Context {A K : Type}.
Variable leb : K -> K -> bool.
Variable key : A -> K.
Hypothesis leb_total : forall a b, leb a b = false -> leb b a = true.
Hypothesis leb_trans :
  forall a b c, leb a b = true -> leb b c = true -> leb a c = true.

Lemma insert_desc_perm (x : A) (l : list A) : insert_desc leb key x l ≡ₚ x :: l.
Proof.
  induction l as [|y l IH]; simpl; [done|].
  destruct (leb (key y) (key x)); [done|].
  rewrite IH. apply Permutation_swap.
Qed.

Lemma sort_desc_perm (l : list A) : sort_desc leb key l ≡ₚ l.
Proof.
  induction l as [|x l IH]; [done|].
  change (sort_desc leb key (x :: l))
    with (insert_desc leb key x (sort_desc leb key l)).
  by rewrite insert_desc_perm, IH.
Qed.

Lemma insert_desc_sorted (x : A) (l : list A) :
  StronglySorted (before leb key) l ->
  StronglySorted (before leb key) (insert_desc leb key x l).
Proof.
  induction 1 as [|y l Hl IH Hy]; simpl; [repeat constructor|].
  destruct (leb (key y) (key x)) eqn:Hle.
  - constructor; [by constructor|]. constructor; [done|].
    eapply Forall_impl; [exact Hy|]. intros z Hz. unfold before in *.
    by apply (leb_trans _ (key y)).
  - constructor; [done|].
    rewrite insert_desc_perm. constructor; [|done].
    unfold before. by apply leb_total.
Qed.

Lemma sort_desc_sorted (l : list A) :
  StronglySorted (before leb key) (sort_desc leb key l).
Proof.
  induction l as [|x l IH]; [constructor|]. by apply insert_desc_sorted.
Qed.

(** In a sorted list an earlier element is not behind a later one. *)
Lemma sorted_lookup (l : list A) (i j : nat) (x y : A) :
  StronglySorted (before leb key) l ->
  i < j -> l !! i = Some x -> l !! j = Some y ->
  before leb key x y.
Proof.
  intros Hl. revert i j. induction Hl as [|z l Hl IH Hz]; intros i j Hij; [done|].
  destruct i as [|i], j as [|j]; try lia; simpl.
  - intros [= <-] Hy. rewrite Forall_forall in Hz.
    by apply Hz, (list_elem_of_lookup_2 _ j).
  - apply IH. lia.
Qed.

End Sorting.

End MoreSortFacts.

Module MoreTermFacts.
Import PyStr PySort CorpusTerms TermWords MoreSortFacts MoreTextFacts SentenceFacts.

(** The words that [findall] returns have four characters or more, all of
    them letters of the text. *)
Lemma find_words_Forall (Q : ascii -> Prop) (cur s : string) :
  Forall Q (chars cur) ->
  Forall (fun c => is_ascii_letter c = true -> Q c) (chars s) ->
  Forall (fun w => 4 <= String.length w /\ Forall Q (chars w)) (find_words cur s).
Proof.
  revert cur. induction s as [|c s IH]; intros cur Hcur Hs; cbn [find_words].
  - destruct (Nat.leb_spec 4 (String.length cur)); repeat constructor; done.
  - apply Forall_cons in Hs as [Hc Hs].
    destruct (is_ascii_letter c) eqn:Hl.
    + apply IH; [|done]. rewrite chars_app. apply Forall_app. split; [done|].
      simpl. constructor; [auto|constructor].
    + assert (Hrest : Forall (fun w => 4 <= String.length w /\ Forall Q (chars w))
                        (find_words "" s))
        by (apply IH; [constructor|done]).
      destruct (Nat.leb_spec 4 (String.length cur)); [|done]. by constructor.
Qed.

Lemma lower_letters (s : string) :
  Forall (fun c => is_ascii_letter c = true -> is_az c = true) (chars (lower s)).
Proof.
  induction s as [|c s IH]; simpl; [constructor|]. constructor; [|done].
  unfold is_ascii_letter, is_az, lower_char.
  destruct c as [[] [] [] [] [] [] [] []]; simpl; done.
Qed.

Lemma cnt_cons (p : string * nat) (counts : list (string * nat)) (v : string) :
  cnt (p :: counts) v = (if String.eqb v (fst p) then snd p else 0) + cnt counts v.
Proof. unfold cnt. simpl. by destruct (String.eqb v (fst p)). Qed.

Lemma count_word_cnt (w : string) (counts : list (string * nat)) (v : string) :
  cnt (count_word w counts) v = (if String.eqb v w then 1 else 0) + cnt counts v.
Proof.
  induction counts as [|[u k] counts IH]; simpl.
  - rewrite cnt_cons. simpl. unfold cnt. simpl. lia.
  - destruct (String.eqb_spec u w) as [->|Huw].
    + rewrite !cnt_cons. simpl. destruct (String.eqb v w); lia.
    + rewrite !cnt_cons, IH. simpl. lia.
Qed.

Lemma count_word_keys (w : string) (counts : list (string * nat)) (v : string) :
  v ∈ (count_word w counts).*1 <-> v = w \/ v ∈ counts.*1.
Proof.
  induction counts as [|[u k] counts IH]; simpl.
  - rewrite list_elem_of_singleton. set_solver.
  - destruct (String.eqb_spec u w) as [->|Huw]; csimpl.
    + rewrite !elem_of_cons. tauto.
    + rewrite !elem_of_cons, IH. tauto.
Qed.

Lemma count_word_NoDup (w : string) (counts : list (string * nat)) :
  NoDup counts.*1 -> NoDup (count_word w counts).*1.
Proof.
  induction counts as [|[u k] counts IH]; simpl.
  - intros _. apply NoDup_singleton.
  - csimpl. intros [Hu Hnd]%NoDup_cons.
    destruct (String.eqb_spec u w) as [->|Huw]; csimpl.
    + by apply NoDup_cons.
    + apply NoDup_cons. split; [|by apply IH].
      rewrite count_word_keys. intros [?|?]; done.
Qed.

(** The counter after a list of words. *)
Lemma counter_from (words : list string) (counts : list (string * nat)) :
  NoDup counts.*1 ->
  let result := fold_left (fun counts w => count_word w counts) words counts in
  NoDup result.*1
  /\ (forall v, v ∈ result.*1 <-> v ∈ words \/ v ∈ counts.*1)
  /\ (forall v, cnt result v
                = length (List.filter (String.eqb v) words) + cnt counts v).
Proof.
  revert counts. induction words as [|w words IH]; intros counts Hnd; simpl.
  - split; [done|]. split; [|done]. intros v. rewrite elem_of_nil. tauto.
  - destruct (IH (count_word w counts) (count_word_NoDup w counts Hnd))
      as (Hnd' & Hkeys & Hcnt).
    split; [done|]. split.
    + intros v. rewrite Hkeys, count_word_keys, elem_of_cons. tauto.
    + intros v. rewrite Hcnt, count_word_cnt.
      destruct (String.eqb v w); simpl; lia.
Qed.

(** With distinct keys, the count of a key is the number of its entry. *)
Lemma cnt_entry (counts : list (string * nat)) (v : string) (k : nat) :
  NoDup counts.*1 -> (v, k) ∈ counts -> cnt counts v = k.
Proof.
  induction counts as [|[u j] counts IH]; [by intros _ ?%elem_of_nil|].
  csimpl. intros [Hu Hnd]%NoDup_cons Hin. rewrite cnt_cons. simpl.
  apply elem_of_cons in Hin as [[= -> ->]|Hin].
  - rewrite String.eqb_refl.
    assert (cnt counts u = 0) as ->; [|lia].
    clear IH Hnd. induction counts as [|[u' j'] counts IH]; [done|].
    rewrite cnt_cons. simpl.
    destruct (String.eqb_spec u u') as [->|_].
    + exfalso. apply Hu. csimpl. left.
    + apply IH. intros H. apply Hu. csimpl. by right.
  - destruct (String.eqb_spec v u) as [->|_].
    + exfalso. apply Hu. by apply (list_elem_of_fmap_2' fst _ (u, k)).
    + by apply IH.
Qed.

End MoreTermFacts.

Section ExtraTerms.
Import PyStr PySort SortWords CorpusTerms TermWords MoreSortFacts MoreTermFacts.

(** X25. [_top_terms] returns at most [n] terms, no term twice.  Every
    term is a run of four or more lower-case ASCII letters of the text that
    is no stop word.  The terms are ranked: a term never occurs less often
    than a later one, and a counted word that is left out never occurs
    more often than a term that is returned. *)
Theorem top_terms_ranked (text : string) (n : nat) :
  let terms := _top_terms text n in
  length terms <= n
  /\ NoDup terms
  /\ Forall (fun w => 4 <= String.length w
                      /\ Forall (fun c => is_az c = true) (chars w)
                      /\ (w ∉ STOP)
                      /\ 0 < occurrences text w) terms
  /\ (forall i j wi wj,
        i < j -> terms !! i = Some wi -> terms !! j = Some wj ->
        occurrences text wj <= occurrences text wi)
  /\ (forall w wi,
        w ∈ term_words text -> w ∉ terms -> wi ∈ terms ->
        occurrences text w <= occurrences text wi).
Proof.
  intros terms.
  set (counts := counter (term_words text)).
  set (sorted := sort_desc Nat.leb snd counts).
  assert (Hterms : terms = (take n sorted).*1) by reflexivity.
  destruct (counter_from (term_words text) [] (NoDup_nil_2 (A := string)))
    as (Hnd & Hkeys & Hcnt).
  fold (counter (term_words text)) in Hnd, Hkeys, Hcnt. fold counts in Hnd, Hkeys, Hcnt.
  assert (Hperm : sorted ≡ₚ counts) by apply sort_desc_perm.
  assert (Hsorted : StronglySorted (before Nat.leb snd) sorted).
  { apply (sort_desc_sorted Nat.leb snd).
    - intros a b H. apply Nat.leb_gt in H. apply Nat.leb_le. lia.
    - intros a b c H1 H2. apply Nat.leb_le in H1, H2. apply Nat.leb_le. lia. }
  assert (Hocc : forall w k, (w, k) ∈ sorted -> occurrences text w = k).
  { intros w k Hin. rewrite Hperm in Hin.
    pose proof (cnt_entry counts w k Hnd Hin) as Hk.
    rewrite Hcnt in Hk. unfold occurrences. unfold cnt in Hk. simpl in Hk. lia. }
  assert (Hword : forall w, w ∈ term_words text ->
            4 <= String.length w /\ Forall (fun c => is_az c = true) (chars w)
            /\ (w ∉ STOP) /\ 0 < occurrences text w).
  { intros w Hw.
    assert (Hpos : 0 < occurrences text w).
    { unfold occurrences.
      assert (Hin : w ∈ List.filter (String.eqb w) (term_words text)).
      { apply list_elem_of_In, filter_In. split; [by apply list_elem_of_In|].
        apply String.eqb_refl. }
      destruct (List.filter (String.eqb w) (term_words text));
        [by apply elem_of_nil in Hin|simpl; lia]. }
    unfold term_words in Hw. apply list_elem_of_In, filter_In in Hw as [Hw Hstop].
    apply list_elem_of_In in Hw.
    pose proof (find_words_Forall (fun c => is_az c = true) "" (lower text)
                  (Forall_nil_2 _) (lower_letters text)) as Hall.
    rewrite Forall_forall in Hall. destruct (Hall w Hw) as [Hlen Hchars].
    apply negb_true_iff, bool_decide_eq_false in Hstop. done. }
  split; [|split; [|split; [|split]]].
  - rewrite Hterms, length_fmap, length_take. lia.
  - rewrite Hterms. apply (sublist_NoDup _ sorted.*1).
    + by rewrite Hperm.
    + apply fmap_sublist, sublist_take.
  - apply Forall_forall. intros w Hw. apply Hword.
    rewrite Hterms in Hw. apply list_elem_of_fmap in Hw as ([w' k] & -> & Hin).
    assert (Hk : w' ∈ counts.*1).
    { rewrite <- Hperm. apply (list_elem_of_fmap_2' fst _ (w', k)); [|done].
      eapply elem_of_sublist; [exact Hin|apply sublist_take]. }
    apply Hkeys in Hk as [Hk|Hk]; [done|by apply elem_of_nil in Hk].
  - intros i j wi wj Hij Hi Hj. rewrite Hterms in Hi, Hj.
    rewrite list_lookup_fmap in Hi, Hj.
    destruct (take n sorted !! i) as [[wi' ki]|] eqn:Hti; [|done].
    destruct (take n sorted !! j) as [[wj' kj]|] eqn:Htj; [|done].
    injection Hi as ->. injection Hj as ->.
    apply lookup_take_Some in Hti as [Hti _]. apply lookup_take_Some in Htj as [Htj _].
    pose proof (sorted_lookup Nat.leb snd sorted i j _ _ Hsorted Hij Hti Htj) as Hle.
    unfold before in Hle. simpl in Hle. apply Nat.leb_le in Hle.
    rewrite (Hocc wi ki) by (by apply (list_elem_of_lookup_2 _ i)).
    rewrite (Hocc wj kj) by (by apply (list_elem_of_lookup_2 _ j)). done.
  - intros w wi Hw Hout Hin.
    assert (Hk : w ∈ counts.*1) by (apply Hkeys; by left).
    rewrite <- Hperm in Hk. apply list_elem_of_fmap in Hk as ([w' k] & -> & Hwk).
    apply list_elem_of_lookup_1 in Hwk as [j Hj].
    rewrite Hterms in Hin. apply list_elem_of_fmap in Hin as ([wi' ki] & -> & Hik).
    apply list_elem_of_lookup_1 in Hik as [i Hi].
    apply lookup_take_Some in Hi as [Hi Hin].
    assert (Hnj : n <= j).
    { destruct (decide (j < n)) as [Hlt|]; [|lia]. exfalso. apply Hout.
      rewrite Hterms. apply (list_elem_of_fmap_2' fst _ (w', k)); [|done].
      apply (list_elem_of_lookup_2 _ j). apply lookup_take_Some. by split. }
    pose proof (sorted_lookup Nat.leb snd sorted i j _ _ Hsorted ltac:(lia) Hi Hj)
      as Hle.
    unfold before in Hle. simpl in Hle. apply Nat.leb_le in Hle. simpl.
    rewrite (Hocc wi' ki) by (by apply (list_elem_of_lookup_2 _ i)).
    rewrite (Hocc w' k) by (by apply (list_elem_of_lookup_2 _ j)). done.
Qed.

End ExtraTerms.

(* ===================================================================== *)
(** * Further facts: authors and citations of an uploaded text *)
(* ===================================================================== *)

Module MoreUploadFacts.
Import PyStr SentenceWords UploadText UploadWords MoreTextFacts MoreStringFacts.

(** The loop of [_infer_authors] returns nothing or the candidates of one
    of its lines. *)
Lemma infer_authors_loop_spec (lines : list string) :
  infer_authors_loop lines = []
  \/ exists line,
       line ∈ lines
       /\ contains "@" line = false
       /\ String.length line < 150
       /\ search_and_or_comma None (lower line) = true
       /\ infer_authors_loop lines = author_candidates line
       /\ 1 <= length (author_candidates line) <= 8.
Proof.
  induction lines as [|ln lines IH]; [by left|].
  assert (Hrest : infer_authors_loop lines = []
                  \/ exists line,
                       line ∈ ln :: lines
                       /\ contains "@" line = false
                       /\ String.length line < 150
                       /\ search_and_or_comma None (lower line) = true
                       /\ infer_authors_loop lines = author_candidates line
                       /\ 1 <= length (author_candidates line) <= 8).
  { destruct IH as [?|(line & Hin & ?)]; [by left|].
    right. exists line. split; [by right|done]. }
  cbn [infer_authors_loop].
  destruct (contains "@" ln) eqn:Hat; [exact Hrest|].
  destruct ((String.length ln <? 150)%nat && search_and_or_comma None (lower ln))
    eqn:Hline; [|exact Hrest].
  apply andb_true_iff in Hline as [Hlen Hsearch]. apply Nat.ltb_lt in Hlen.
  destruct ((1 <=? length (author_candidates ln))%nat
            && (length (author_candidates ln) <=? 8)%nat) eqn:Hcount;
    [|exact Hrest].
  apply andb_true_iff in Hcount as [H1 H8]. apply Nat.leb_le in H1, H8.
  right. exists ln. split; [by left|]. by repeat split.
Qed.

(** Every candidate is a non-empty piece of the line without white space
    at its ends. *)
Lemma author_candidates_Forall (ln : string) :
  Forall (fun a => a <> "" /\ strip a = a) (author_candidates ln).
Proof.
  unfold author_candidates. apply Forall_fmap, Forall_forall. intros x Hx.
  apply list_elem_of_In, filter_In in Hx as [_ Hx]. simpl. split.
  - intros H. by rewrite H in Hx.
  - apply strip_idem.
Qed.

(** A text that starts with a visible character is not normalized to
    nothing. *)
Lemma normalize_whitespace_visible (c : ascii) (s : string) :
  isspace c = false -> (N_of_ascii c =? 0)%N = false ->
  _normalize_whitespace (String c s) <> "".
Proof.
  intros Hc H0. unfold _normalize_whitespace. cbv zeta.
  cbn [replace_nul]. rewrite H0.
  unfold sub_ws_with_space. cbn [sub_ws_run]. rewrite Hc.
  unfold strip. cbn [lstrip]. rewrite Hc. cbn [rstrip].
  destruct (rstrip (sub_ws_run false (replace_nul s))); [by rewrite Hc|done].
Qed.

(** [_pick] keeps a text that is not blank. *)
Lemma pick_kept (m fallback : string) : m <> "" -> strip m = m -> _pick (Some m) fallback = m.
Proof.
  intros Hm Hs. unfold _pick. rewrite Hs.
  destruct (String.eqb_spec m "") as [|_]; done.
Qed.

End MoreUploadFacts.

Section ExtraUpload.
Import PyStr SentenceWords UploadText UploadWords MoreTextFacts MoreStringFacts
  MoreUploadFacts.

(** X26. When [_infer_authors] returns authors, they are the candidates of
    one of the lines 2 to 8 among the first forty lines that are not blank:
    a line without "@", shorter than 150 characters, with the word "and" or
    a comma between word characters; there are one to eight of them, each
    non-empty and without white space at its ends.  A text without line
    break has no second line, so for the text that [analyze_uploaded_paper]
    passes, which went through [_normalize_whitespace], no author is ever
    inferred. *)
Theorem infer_authors_needs_lines (text : string) :
  let authors := _infer_authors text in
  let lines :=
    strip <$> List.filter (fun ln => negb (String.eqb (strip ln) ""))
                (take 40 (splitlines text)) in
  (authors <> [] ->
   1 <= length authors <= 8
   /\ Forall (fun a => a <> "" /\ strip a = a) authors
   /\ exists i line,
        1 <= i < 8 /\ lines !! i = Some line
        /\ contains "@" line = false
        /\ String.length line < 150
        /\ search_and_or_comma None (lower line) = true
        /\ authors = author_candidates line)
  /\ (one_line text = true -> authors = [])
  /\ _infer_authors (_normalize_whitespace text) = [].
Proof.
  intros authors lines.
  assert (Hone : forall t, one_line t = true -> _infer_authors t = []).
  { intros t Ht. unfold _infer_authors. rewrite (splitlines_one_line t Ht).
    destruct (decide (t = "")) as [->|_]; [done|].
    cbn [take List.filter]. by destruct (negb (String.eqb (strip t) "")). }
  split; [|split; [apply Hone|]].
  - intros Hne.
    destruct (infer_authors_loop_spec (take 7 (drop 1 lines)))
      as [He|(line & Hin & Hat & Hlen & Hsearch & Hres & Hcount)]; [done|].
    change (authors = author_candidates line) in Hres.
    rewrite Hres. split; [done|]. split; [apply author_candidates_Forall|].
    apply list_elem_of_lookup_1 in Hin as [i Hi].
    apply lookup_take_Some in Hi as [Hi Hlt]. rewrite lookup_drop in Hi.
    exists (1 + i), line. split; [lia|]. by repeat split.
  - apply Hone, collapsed_one_line, normalize_whitespace_is_compact.
Qed.

(** X27. The summary of [_extract_citations_section] is one of four
    texts, none of them blank.  So the entry "citations" that
    [analyze_uploaded_paper] returns is always this summary, normalized:
    [_pick] never falls back to the citation note, whatever the note
    says. *)
Theorem upload_citations_ignores_note (text : string)
    (heading_value : option string) (citation_note : string) :
  let summary := _extract_citations_section text heading_value in
  upload_citations text heading_value citation_note = _normalize_whitespace summary
  /\ _normalize_whitespace summary <> ""
  /\ (summary = "References section detected in uploaded paper."
      \/ summary = "Citations not clearly identifiable from extracted text."
      \/ (exists hv refs,
            heading_value = Some hv /\ hv <> ""
            /\ refs = find_refs 0 hv /\ refs <> []
            /\ summary = "References section detected with at least "
                         +:+ count_distinct refs +:+ " indexed citations.")
      \/ (exists refs,
            (heading_value = None \/ heading_value = Some "")
            /\ refs = find_refs 0 text /\ refs <> []
            /\ summary = "Detected at least " +:+ count_distinct refs
                         +:+ " indexed citations in the document.")).
Proof.
  intros summary.
  assert (Hshape :
    (summary = "References section detected in uploaded paper."
     \/ summary = "Citations not clearly identifiable from extracted text."
     \/ (exists hv refs,
           heading_value = Some hv /\ hv <> ""
           /\ refs = find_refs 0 hv /\ refs <> []
           /\ summary = "References section detected with at least "
                        +:+ count_distinct refs +:+ " indexed citations.")
     \/ (exists refs,
           (heading_value = None \/ heading_value = Some "")
           /\ refs = find_refs 0 text /\ refs <> []
           /\ summary = "Detected at least " +:+ count_distinct refs
                        +:+ " indexed citations in the document."))).
  { unfold summary, _extract_citations_section.
    destruct heading_value as [[|c hv]|].
    - destruct (find_refs 0 text) as [|r refs] eqn:Hr; [auto|].
      right. right. right. exists (r :: refs). repeat split; auto; done.
    - destruct (find_refs 0 (String c hv)) as [|r refs] eqn:Hr; [auto|].
      right. right. left. exists (String c hv), (r :: refs). repeat split; auto; done.
    - destruct (find_refs 0 text) as [|r refs] eqn:Hr; [auto|].
      right. right. right. exists (r :: refs). repeat split; auto; done. }
  assert (Hvisible : _normalize_whitespace summary <> "").
  { destruct Hshape as [->|[->|[(hv & refs & _ & _ & _ & _ & ->)|(refs & _ & _ & _ & ->)]]];
      by apply normalize_whitespace_visible. }
  split; [|split; [exact Hvisible|exact Hshape]].
  unfold upload_citations. fold summary. apply pick_kept; [exact Hvisible|].
  apply normalize_whitespace_is_compact.
Qed.

End ExtraUpload.

